(** * Shadow checkpoint service

    A shallow embedding of [src/services/checkpoints/ShadowCheckpointService.ts]:
    the class fields become a record, every [async] method becomes a
    computation in a small monad that threads the instance, the host world
    and the module-level warning set, records what the method logged,
    emitted and called, and propagates JavaScript exceptions. *)

From Stdlib Require Import String Ascii List ZArith Lia Bool DecimalString.
Import ListNotations.
Open Scope string_scope.
Open Scope Z_scope.

Set Implicit Arguments.

(** ** JavaScript built-ins used by the service *)

Module Js.

(** Truthiness of a string: only the empty string is falsy. *)
Definition truthy (s : string) : bool := negb (String.eqb s "").

(** [o ?? d] *)
Definition nullish {A : Type} (o : option A) (d : A) : A :=
  match o with Some a => a | None => d end.

(** Truthiness of an optional string ([undefined] and [""] are falsy). *)
Definition truthyOpt (o : option string) : bool :=
  match o with Some s => truthy s | None => false end.

(** [String.prototype.includes] *)
Definition includes (needle s : string) : bool :=
  match String.index 0 needle s with Some _ => true | None => false end.

(** [String.prototype.startsWith] *)
Definition startsWith (pre s : string) : bool := String.prefix pre s.

(** [s.replace(/\\/g, "/")] *)
Fixpoint replaceBackslashes (s : string) : string :=
  match s with
  | EmptyString => EmptyString
  | String c r =>
      String (if Ascii.eqb c "\" then "/"%char else c) (replaceBackslashes r)
  end.

(** White space and line terminators of the ASCII range, as removed by
    [String.prototype.trim]. *)
Definition isSpace (c : ascii) : bool :=
  let n := nat_of_ascii c in
  (Nat.eqb n 32 || Nat.eqb n 9 || Nat.eqb n 10 || Nat.eqb n 11
   || Nat.eqb n 12 || Nat.eqb n 13)%bool.

Fixpoint trimStart (s : string) : string :=
  match s with
  | EmptyString => EmptyString
  | String c r => if isSpace c then trimStart r else s
  end.

Fixpoint trimEnd (s : string) : string :=
  match s with
  | EmptyString => EmptyString
  | String c r =>
      match trimEnd r with
      | EmptyString => if isSpace c then EmptyString else String c EmptyString
      | r' => String c r'
      end
  end.

Definition trim (s : string) : string := trimEnd (trimStart s).

(** [a.join(sep)] *)
Fixpoint join (sep : string) (l : list string) : string :=
  match l with
  | [] => ""
  | [x] => x
  | x :: r => x ++ sep ++ join sep r
  end.

(** [a.includes(x)] on an array of strings (strict equality). *)
Fixpoint arrayIncludes (x : string) (l : list string) : bool :=
  match l with
  | [] => false
  | y :: r => if String.eqb y x then true else arrayIncludes x r
  end.

(** [a.indexOf(x)]: the first index holding [x], or [-1]. *)
Fixpoint indexOfFrom (x : string) (l : list string) (i : Z) : Z :=
  match l with
  | [] => -1
  | y :: r => if String.eqb y x then i else indexOfFrom x r (i + 1)
  end.

Definition indexOf (x : string) (l : list string) : Z := indexOfFrom x l 0.

(** [a[i]]: [undefined] outside the array. *)
Definition getIndex {A : Type} (l : list A) (i : Z) : option A :=
  if i <? 0 then None else nth_error l (Z.to_nat i).

(** Relative index of [Array.prototype.slice]: negative counts from the
    end, everything is clamped to [0 .. len]. *)
Definition relIndex (len k : Z) : Z :=
  if k <? 0 then Z.max (len + k) 0 else Z.min k len.

(** [a.slice(start, end)] *)
Definition slice {A : Type} (l : list A) (start end_ : Z) : list A :=
  let len := Z.of_nat (length l) in
  let k := relIndex len start in
  let f := relIndex len end_ in
  firstn (Z.to_nat (f - k)) (skipn (Z.to_nat k) l).

(** [`${n}`] for an integer and for a boolean. *)
Definition showZ (z : Z) : string := NilZero.string_of_int (Z.to_int z).
Definition showBool (b : bool) : string := if b then "true" else "false".

End Js.

(** ** Thrown values *)

(** An [Error] object; only its message is observed by the service. *)
Record Error := mkError { message : string }.

(** Anything a [throw] can carry: an [Error] instance, or some other value,
    kept as the text [String(e)] gives for it. *)
Inductive thrown :=
| ThrownError (e : Error)
| ThrownValue (repr : string).

(** [e instanceof Error ? e : new Error(String(e))] *)
Definition toError (e : thrown) : Error :=
  match e with
  | ThrownError err => err
  | ThrownValue repr => mkError repr
  end.

(** [error instanceof Error ? error.message : String(error)] *)
Definition errorText (e : thrown) : string :=
  match e with
  | ThrownError err => message err
  | ThrownValue repr => repr
  end.

(** Completion of a call: a value, or a thrown exception. *)
Inductive outcome (A : Type) :=
| Ok (a : A)
| Throw (e : thrown).
Arguments Ok {A} a.
Arguments Throw {A} e.

(** ** Data exchanged with the collaborators *)

(** One entry of [executeRipgrep]'s answer. *)
Record RgItem := mkRgItem { rg_type : string; rg_path : string }.

(** simple-git's [CommitResult]; [commit] is [""] when nothing was committed. *)
Record CommitResult := mkCommitResult { commit : string; branch : string }.

(** simple-git's [ConfigGetResult]; [value] is [null] when the key is unset. *)
Record ConfigGetResult := mkConfigGetResult { value : option string }.

Record DiffFile := mkDiffFile { file : string }.
Record DiffResult := mkDiffResult { files : list DiffFile }.

(** [CheckpointDiff] of [./types]. *)
Record CheckpointDiff := mkCheckpointDiff {
  paths_relative : string;
  paths_absolute : string;
  content_before : string;
  content_after : string
}.

(** [CheckpointEventMap] of [./types], as a tagged union. *)
Inductive CheckpointEvent :=
| EvInitialize (workspaceDir : string) (baseHash : option string)
               (created : bool) (duration : Z)
| EvCheckpoint (fromHash toHash : string) (duration : Z) (suppressMessage : bool)
| EvRestore (commitHash : string) (duration : Z)
| EvError (error : Error).

(** The handle [simpleGit(baseDir)] returns. *)
Record SimpleGit := mkSimpleGit { baseDir : string }.

(** Calls that leave the process: file system, ripgrep, git. *)
Inductive Call :=
| CRipgrep (args : list string) (workspacePath : string)
| CMkdir (path : string)
| CWriteFile (path content : string)
| CReadFile (path : string)
| CFileExists (path : string)
| CExcludePatterns (workspaceDir : string)
| CGitVersion (g : SimpleGit)
| CGitInit (g : SimpleGit)
| CGitAddConfig (g : SimpleGit) (key val : string)
| CGitGetConfig (g : SimpleGit) (key : string)
| CGitAdd (g : SimpleGit) (files : string)
| CGitCommit (g : SimpleGit) (msg : string) (allowEmpty : bool)
| CGitRevparse (g : SimpleGit) (args : list string)
| CGitClean (g : SimpleGit) (mode : string) (opts : list string)
| CGitReset (g : SimpleGit) (args : list string)
| CGitRaw (g : SimpleGit) (args : list string)
| CGitDiffSummary (g : SimpleGit) (args : list string)
| CGitShow (g : SimpleGit) (args : list string).

(** What a method leaves behind besides its result and the new state. *)
Inductive Effect :=
| FxLog (line : string)
| FxEmit (ev : CheckpointEvent)
| FxTelemetry (callsite : string) (err : thrown)
| FxWarning (msg : string)
| FxCall (c : Call).

(** Calls that change the file system or the shadow repository. *)
Definition mutates (c : Call) : bool :=
  match c with
  | CMkdir _ | CWriteFile _ _ | CGitInit _ | CGitAddConfig _ _ _
  | CGitAdd _ _ | CGitCommit _ _ _ | CGitClean _ _ _ | CGitReset _ _
  | CGitRaw _ _ => true
  | _ => false
  end.

Definition isMutation (fx : Effect) : bool :=
  match fx with FxCall c => mutates c | _ => false end.

Fixpoint emitted (fxs : list Effect) : list CheckpointEvent :=
  match fxs with
  | [] => []
  | FxEmit ev :: r => ev :: emitted r
  | _ :: r => emitted r
  end.

Definition isCheckpointEvent (ev : CheckpointEvent) : bool :=
  match ev with EvCheckpoint _ _ _ _ => true | _ => false end.


(** ** The monad of method bodies *)

Module Run.

(** A computation over a state [S]: its completion, the state it leaves,
    and the effects it performed, oldest first. A thrown exception keeps
    the state reached so far, as assignments made before a [throw] do. *)
Definition M (S A : Type) : Type := S -> outcome A * S * list Effect.

Definition ret {S A : Type} (a : A) : M S A := fun s => (Ok a, s, []).

Definition bind {S A B : Type} (m : M S A) (k : A -> M S B) : M S B :=
  fun s =>
    match m s with
    | (Ok a, s1, fx1) =>
        match k a s1 with
        | (r, s2, fx2) => (r, s2, (fx1 ++ fx2)%list)
        end
    | (Throw e, s1, fx1) => (Throw e, s1, fx1)
    end.

Definition throw {S A : Type} (e : thrown) : M S A := fun s => (Throw e, s, []).

(** [try { body } catch (e) { handler }] *)
Definition tryCatch {S A : Type} (body : M S A) (handler : thrown -> M S A) : M S A :=
  fun s =>
    match body s with
    | (Ok a, s1, fx1) => (Ok a, s1, fx1)
    | (Throw e, s1, fx1) =>
        match handler e s1 with
        | (r, s2, fx2) => (r, s2, (fx1 ++ fx2)%list)
        end
    end.

Definition get {S : Type} : M S S := fun s => (Ok s, s, []).
Definition put {S : Type} (s : S) : M S unit := fun _ => (Ok tt, s, []).
Definition tell {S : Type} (fx : Effect) : M S unit := fun s => (Ok tt, s, [fx]).

(** Run a computation on the second component of a pair state. *)
Definition liftSnd {T S A : Type} (m : M S A) : M (T * S) A :=
  fun ts =>
    match m (snd ts) with
    | (r, s1, fx) => (r, (fst ts, s1), fx)
    end.

End Run.
Import Run.

Declare Scope run_scope.
Delimit Scope run_scope with run.
Notation "x <- c ;; k" := (bind c (fun x => k))
  (at level 100, c at next level, right associativity) : run_scope.
Notation "c ;; k" := (bind c (fun _ => k))
  (at level 100, right associativity) : run_scope.
Open Scope run_scope.

Definition resultOf {S A : Type} (r : outcome A * S * list Effect) : outcome A := fst (fst r).
Definition stateOf {S A : Type} (r : outcome A * S * list Effect) : S := snd (fst r).
Definition effectsOf {S A : Type} (r : outcome A * S * list Effect) : list Effect := snd r.

(** ** Collaborators *)

(** Node built-ins and the i18n lookup: pure functions of their arguments.
    [className] is what [this.constructor.name] evaluates to, and
    [util_inspect] the text [util.inspect] prints for the data of an event. *)
Record Platform := mkPlatform {
  os_homedir : string;
  path_join : list string -> string;
  path_relative : string -> string -> string;
  path_dirname : string -> string;
  t : string -> list (string * string) -> string;
  className : string;
  util_inspect : CheckpointEvent -> string
}.

(** The world outside the class: each call answers with a completion and
    the world it leaves. The listeners registered on the inherited
    [EventEmitter] belong to it: [listenerCount] is the emitter's
    [listenerCount(eventName)], and [delivered] the world once the listeners
    of an event have run (those registered with [once] are gone by then). *)
Record Host (World : Type) := mkHost {
  executeRipgrep : list string -> string -> World -> outcome (list RgItem) * World;
  fs_mkdir : string -> World -> outcome unit * World;
  fs_writeFile : string -> string -> World -> outcome unit * World;
  fs_readFile : string -> World -> outcome string * World;
  fileExistsAtPath : string -> World -> outcome bool * World;
  getExcludePatterns : string -> World -> outcome (list string) * World;
  git_version : SimpleGit -> World -> outcome string * World;
  git_init : SimpleGit -> World -> outcome unit * World;
  git_addConfig : SimpleGit -> string -> string -> World -> outcome unit * World;
  git_getConfig : SimpleGit -> string -> World -> outcome ConfigGetResult * World;
  git_add : SimpleGit -> string -> World -> outcome unit * World;
  git_commit : SimpleGit -> string -> bool -> World -> outcome CommitResult * World;
  git_revparse : SimpleGit -> list string -> World -> outcome string * World;
  git_clean : SimpleGit -> string -> list string -> World -> outcome unit * World;
  git_reset : SimpleGit -> list string -> World -> outcome unit * World;
  git_raw : SimpleGit -> list string -> World -> outcome string * World;
  git_diffSummary : SimpleGit -> list string -> World -> outcome DiffResult * World;
  git_show : SimpleGit -> list string -> World -> outcome string * World;
  Date_now : World -> Z * World;
  listenerCount : string -> World -> nat;
  delivered : CheckpointEvent -> World -> World
}.

(** ** The instance and the module state *)

Record Service := mkService {
  taskId : string;
  checkpointsDir : string;
  workspaceDir : string;
  _checkpoints : list string;
  _baseHash : option string;
  dotGitDir : string;
  git : option SimpleGit;
  shadowGitConfigWorktree : option string
}.

Definition set_checkpoints (cps : list string) (s : Service) : Service :=
  mkService (taskId s) (checkpointsDir s) (workspaceDir s) cps (_baseHash s)
            (dotGitDir s) (git s) (shadowGitConfigWorktree s).

Definition set_baseHash (b : option string) (s : Service) : Service :=
  mkService (taskId s) (checkpointsDir s) (workspaceDir s) (_checkpoints s) b
            (dotGitDir s) (git s) (shadowGitConfigWorktree s).

Definition set_git (g : option SimpleGit) (s : Service) : Service :=
  mkService (taskId s) (checkpointsDir s) (workspaceDir s) (_checkpoints s)
            (_baseHash s) (dotGitDir s) g (shadowGitConfigWorktree s).

Definition set_shadowGitConfigWorktree (w : option string) (s : Service) : Service :=
  mkService (taskId s) (checkpointsDir s) (workspaceDir s) (_checkpoints s)
            (_baseHash s) (dotGitDir s) (git s) w.

(** [get isInitialized() { return !!this.git }] *)
Definition isInitialized (s : Service) : bool :=
  match git s with Some _ => true | None => false end.

(** [getCheckpoints() { return this._checkpoints.slice() }] *)
Definition getCheckpoints (s : Service) : list string := _checkpoints s.

(** The module-level state: the host world and [warningsShown]. *)
Record Sys (World : Type) := mkSys {
  world : World;
  warningsShown : list string
}.

Record InitResult := mkInitResult { init_created : bool; init_duration : Z }.

Record SaveOptions := mkSaveOptions {
  allowEmpty : option bool;
  suppressMessage : option bool
}.

(** [`this.baseHash!`]: the assertion is erased at run time. On an instance
    whose [git] is set the base hash is set too (see
    [wellFormed]); the unset case is read as the text
    JavaScript prints for it. *)
Definition nonNull (o : option string) : string :=
  match o with Some s => s | None => "undefined" end.

Definition LF : string := String (Ascii.ascii_of_nat 10) EmptyString.

Section Service.

Context {World : Type}.
Variable H : Host World.
Variable P : Platform.

(** *** Primitive steps *)

Definition hostCall {A : Type} (c : Call)
    (op : World -> outcome A * World) : M (Sys World) A :=
  fun s =>
    match op (world s) with
    | (r, w') => (r, mkSys w' (warningsShown s), [FxCall c])
    end.

(** [Date.now()] *)
Definition now : M (Sys World) Z :=
  fun s =>
    match Date_now H (world s) with
    | (n, w') => (Ok n, mkSys w' (warningsShown s), [])
    end.

Definition getThis : M (Service * Sys World) Service := fun s => (Ok (fst s), s, []).

Definition modifyThis (f : Service -> Service) : M (Service * Sys World) unit :=
  fun s => (Ok tt, (f (fst s), snd s), []).

Definition sys {A : Type} (m : M (Sys World) A) : M (Service * Sys World) A := liftSnd m.

(** [this.log(line)] *)
Definition log {St : Type} (line : string) : M St unit := tell (FxLog line).

(** What [super.emit("error", data)] throws when no listener is registered
    for ["error"]: Node's [ERR_UNHANDLED_ERROR], an [Error] whose message
    shows [util.inspect(data)]. *)
Definition unhandledError (error : Error) : thrown :=
  ThrownError (mkError ("Unhandled error. (" ++ util_inspect P (EvError error) ++ ")")).

(** [this.emit(event, data)], that is [super.emit(event, data)] of Node's
    [EventEmitter]. Listeners are taken to return normally. An ["error"]
    event that finds no listener is not delivered: [emit] throws instead.
    The other events need no listener, and what their listeners do is
    nothing the methods can see. [FxEmit] records an event that was handed
    to the listeners. *)
Definition emit (ev : CheckpointEvent) : M (Service * Sys World) unit :=
  match ev with
  | EvError error =>
      sys (fun y =>
             match listenerCount H "error" (world y) with
             | O => (Throw (unhandledError error), y, [])
             | S _ => (Ok tt, mkSys (delivered H ev (world y)) (warningsShown y),
                       [FxEmit ev])
             end)
  | _ => tell (FxEmit ev)
  end.

(** [reportError(callsite, error)] *)
Definition reportError {St : Type} (callsite : string) (error : thrown) : M St unit :=
  tell (FxTelemetry callsite error).

(** [showWarning(message)] *)
Definition showWarning (msg : string) : M (Sys World) unit :=
  fun s =>
    if ((Z.of_nat (length (warningsShown s)) <? 5)
        && negb (Js.arrayIncludes msg (warningsShown s)))%bool
    then (Ok tt, mkSys (world s) (warningsShown s ++ [msg])%list, [FxWarning msg])
    else (Ok tt, s, []).

Definition tag (method : string) : string :=
  "[" ++ className P ++ "#" ++ method ++ "]".

(** *** constructor *)

Definition constructor (taskId checkpointsDir workspaceDir : string)
    : M (Sys World) Service :=
  let homedir := os_homedir P in
  let desktopPath := path_join P [homedir; "Desktop"] in
  let documentsPath := path_join P [homedir; "Documents"] in
  let downloadsPath := path_join P [homedir; "Downloads"] in
  let protectedPaths := [homedir; desktopPath; documentsPath; downloadsPath] in
  if Js.arrayIncludes workspaceDir protectedPaths then
    showWarning (t P "kilocode:checkpoints.protectedPaths"
                     [("workspaceDir", workspaceDir)]) ;;
    throw (ThrownError (mkError ("Cannot use checkpoints in " ++ workspaceDir)))
  else
    ret (mkService taskId checkpointsDir workspaceDir [] None
                   (path_join P [checkpointsDir; ".git"]) None None).

(** *** writeExcludeFile, stageAll *)

Definition writeExcludeFile : M (Service * Sys World) unit :=
  this <- getThis ;;
  let infoDir := path_join P [dotGitDir this; "info"] in
  sys (hostCall (CMkdir infoDir) (fs_mkdir H infoDir)) ;;
  patterns <- sys (hostCall (CExcludePatterns (workspaceDir this))
                            (getExcludePatterns H (workspaceDir this))) ;;
  let excludeFile := path_join P [dotGitDir this; "info"; "exclude"] in
  let content := Js.join LF patterns in
  sys (hostCall (CWriteFile excludeFile content) (fs_writeFile H excludeFile content)).

Definition stageAll (g : SimpleGit) : M (Service * Sys World) unit :=
  tryCatch
    (sys (hostCall (CGitAdd g ".") (git_add H g ".")))
    (fun error =>
       log (tag "stageAll" ++ " failed to add files to git: " ++ errorText error) ;;
       reportError (className P ++ "#stageAll") error).

(** *** getNestedGitRepository *)

(** The filter callback of [getNestedGitRepository]. *)
Definition isNestedGitHead (item : RgItem) : bool :=
  if negb (String.eqb (rg_type item) "file") then false
  else
    let normalizedPath := Js.replaceBackslashes (rg_path item) in
    (Js.includes ".git/HEAD" normalizedPath
     && negb (Js.startsWith ".git/" normalizedPath)
     && negb (String.eqb normalizedPath ".git/HEAD"))%bool.

(** [const args = [...]] of [getNestedGitRepository]. *)
Definition ripgrepArgs (workspaceDir : string) : list string :=
  ["--files"; "--hidden"; "--follow"; "-g"; "**/.git/HEAD"; workspaceDir].

Definition getNestedGitRepository : M (Service * Sys World) (option string) :=
  tryCatch
    (this <- getThis ;;
     let args := ripgrepArgs (workspaceDir this) in
     gitPaths <- sys (hostCall (CRipgrep args (workspaceDir this))
                               (executeRipgrep H args (workspaceDir this))) ;;
     let nestedGitPaths := filter isNestedGitHead gitPaths in
     match nestedGitPaths with
     | first :: _ =>
         let headPath := rg_path first in
         let gitDir := path_dirname P headPath in
         let repoDir := path_dirname P gitDir in
         let absolutePath := path_join P [workspaceDir this; repoDir] in
         log (tag "getNestedGitRepository" ++ " found "
              ++ Js.showZ (Z.of_nat (length nestedGitPaths))
              ++ " nested git repositories, first at: " ++ repoDir) ;;
         ret (Some absolutePath)
     | [] => ret None
     end)
    (fun error =>
       log (tag "getNestedGitRepository"
            ++ " failed to check for nested git repos: " ++ errorText error) ;;
       reportError (className P ++ "#hasNestedGitRepositories") error ;;
       ret None).

(** *** getShadowGitConfigWorktree *)

Definition getShadowGitConfigWorktree (g : SimpleGit) : M (Service * Sys World) (option string) :=
  this <- getThis ;;
  (if negb (Js.truthyOpt (shadowGitConfigWorktree this)) then
     tryCatch
       (r <- sys (hostCall (CGitGetConfig g "core.worktree")
                           (git_getConfig H g "core.worktree")) ;;
        modifyThis (set_shadowGitConfigWorktree
                      (if Js.truthyOpt (value r) then value r else None)))
       (fun error =>
          log (tag "getShadowGitConfigWorktree"
               ++ " failed to get core.worktree: " ++ errorText error) ;;
          reportError (className P ++ "#getShadowGitConfigWorktree") error)
   else ret tt) ;;
  this <- getThis ;;
  ret (shadowGitConfigWorktree this).

(** *** initShadowGit *)

(** Lines 108-160 of [initShadowGit]: everything after the nested-repository
    check. *)
Definition openShadowRepository (onInit : option (M (Sys World) unit)) : M (Service * Sys World) InitResult :=
  this <- getThis ;;
  sys (hostCall (CMkdir (checkpointsDir this)) (fs_mkdir H (checkpointsDir this))) ;;
  let g := mkSimpleGit (checkpointsDir this) in
  gitVersion <- sys (hostCall (CGitVersion g) (git_version H g)) ;;
  log (tag "create" ++ " git = " ++ gitVersion) ;;
  startTime <- sys now ;;
  exists_ <- sys (hostCall (CFileExists (dotGitDir this))
                           (fileExistsAtPath H (dotGitDir this))) ;;
  created <-
    (if (exists_ : bool) then
       log (tag "initShadowGit" ++ " shadow git repo already exists at "
            ++ dotGitDir this) ;;
       worktree <- getShadowGitConfigWorktree g ;;
       if match worktree with
          | Some w => negb (String.eqb w (workspaceDir this))
          | None => true
          end
       then
         throw (ThrownError (mkError
           ("Checkpoints can only be used in the original workspace: "
            ++ nonNull worktree ++ " !== " ++ workspaceDir this)))
       else
         writeExcludeFile ;;
         head <- sys (hostCall (CGitRevparse g ["HEAD"]) (git_revparse H g ["HEAD"])) ;;
         modifyThis (set_baseHash (Some head)) ;;
         ret false
     else
       log (tag "initShadowGit" ++ " creating shadow git repo at "
            ++ checkpointsDir this) ;;
       sys (hostCall (CGitInit g) (git_init H g)) ;;
       sys (hostCall (CGitAddConfig g "core.worktree" (workspaceDir this))
                     (git_addConfig H g "core.worktree" (workspaceDir this))) ;;
       sys (hostCall (CGitAddConfig g "commit.gpgSign" "false")
                     (git_addConfig H g "commit.gpgSign" "false")) ;;
       sys (hostCall (CGitAddConfig g "user.name" "Kilo Code")
                     (git_addConfig H g "user.name" "Kilo Code")) ;;
       sys (hostCall (CGitAddConfig g "user.email" "noreply@example.com")
                     (git_addConfig H g "user.email" "noreply@example.com")) ;;
       writeExcludeFile ;;
       stageAll g ;;
       result <- sys (hostCall (CGitCommit g "initial commit" true)
                               (git_commit H g "initial commit" true)) ;;
       modifyThis (set_baseHash (Some (commit result))) ;;
       ret true) ;;
  endTime <- sys now ;;
  let duration := endTime - startTime in
  this <- getThis ;;
  log (tag "initShadowGit" ++ " initialized shadow repo with base commit "
       ++ nonNull (_baseHash this) ++ " in " ++ Js.showZ duration ++ "ms") ;;
  modifyThis (set_git (Some g)) ;;
  match onInit with Some f => sys f | None => ret tt end ;;
  this <- getThis ;;
  emit (EvInitialize (workspaceDir this) (_baseHash this) created duration) ;;
  ret (mkInitResult created duration).

Definition alreadyInitialized : thrown :=
  ThrownError (mkError "Shadow git repo already initialized").

Definition nestedRepositoryError (relativePath : string) : thrown :=
  ThrownError (mkError
    ("Checkpoints are disabled because a nested git repository was detected at: "
     ++ relativePath ++ ". "
     ++ "Please remove or relocate nested git repositories to use the checkpoints feature.")).

Definition initShadowGit (onInit : option (M (Sys World) unit)) : M (Service * Sys World) InitResult :=
  this <- getThis ;;
  match git this with
  | Some _ => throw alreadyInitialized
  | None =>
      nestedGitPath <- getNestedGitRepository ;;
      if Js.truthyOpt nestedGitPath then
        let relativePath := path_relative P (workspaceDir this) (nonNull nestedGitPath) in
        sys (showWarning (t P "kilocode:checkpoints.nestedGitRepos"
                              [("path", relativePath)])) ;;
        throw (nestedRepositoryError relativePath)
      else
        openShadowRepository onInit
  end.

(** *** saveCheckpoint *)

Definition notInitialized : thrown :=
  ThrownError (mkError "Shadow git repo not initialized").

Definition optAllowEmpty (options : option SaveOptions) : option bool :=
  match options with Some o => allowEmpty o | None => None end.

Definition optSuppressMessage (options : option SaveOptions) : option bool :=
  match options with Some o => suppressMessage o | None => None end.

Definition saveCheckpoint (msg : string) (options : option SaveOptions)
    : M (Service * Sys World) (option CommitResult) :=
  tryCatch
    (log (tag "saveCheckpoint" ++ " starting checkpoint save (allowEmpty: "
          ++ Js.showBool (Js.nullish (optAllowEmpty options) false) ++ ")") ;;
     this <- getThis ;;
     match git this with
     | None => throw notInitialized
     | Some g =>
         startTime <- sys now ;;
         stageAll g ;;
         let commitArgs := Js.nullish (optAllowEmpty options) false in
         result <- sys (hostCall (CGitCommit g msg commitArgs)
                                 (git_commit H g msg commitArgs)) ;;
         this <- getThis ;;
         let fromHash :=
           Js.nullish
             (Js.getIndex (_checkpoints this)
                          (Z.of_nat (length (_checkpoints this)) - 1))
             (nonNull (_baseHash this)) in
         let toHash := if Js.truthy (commit result) then commit result else fromHash in
         modifyThis (set_checkpoints (_checkpoints this ++ [toHash])%list) ;;
         endTime <- sys now ;;
         let duration := endTime - startTime in
         (if Js.truthy (commit result) then
            emit (EvCheckpoint fromHash toHash duration
                               (Js.nullish (optSuppressMessage options) false))
          else ret tt) ;;
         if Js.truthy (commit result) then
           log (tag "saveCheckpoint" ++ " checkpoint saved in "
                ++ Js.showZ duration ++ "ms -> " ++ commit result) ;;
           ret (Some result)
         else
           log (tag "saveCheckpoint" ++ " found no changes to commit in "
                ++ Js.showZ duration ++ "ms") ;;
           ret None
     end)
    (fun e =>
       let error := toError e in
       log (tag "saveCheckpoint" ++ " failed to create checkpoint: " ++ message error) ;;
       emit (EvError error) ;;
       throw (ThrownError error)).

(** *** restoreCheckpoint *)

Definition restoreCheckpoint (commitHash : string) : M (Service * Sys World) unit :=
  tryCatch
    (log (tag "restoreCheckpoint" ++ " starting checkpoint restore") ;;
     this <- getThis ;;
     match git this with
     | None => throw notInitialized
     | Some g =>
         start <- sys now ;;
         sys (hostCall (CGitClean g "f" ["-d"; "-f"]) (git_clean H g "f" ["-d"; "-f"])) ;;
         sys (hostCall (CGitReset g ["--hard"; commitHash])
                       (git_reset H g ["--hard"; commitHash])) ;;
         this <- getThis ;;
         let checkpointIndex := Js.indexOf commitHash (_checkpoints this) in
         (if negb (checkpointIndex =? -1) then
            modifyThis (set_checkpoints
                          (Js.slice (_checkpoints this) 0 (checkpointIndex + 1)))
          else ret tt) ;;
         endTime <- sys now ;;
         let duration := endTime - start in
         emit (EvRestore commitHash duration) ;;
         log (tag "restoreCheckpoint" ++ " restored checkpoint " ++ commitHash
              ++ " in " ++ Js.showZ duration ++ "ms")
     end)
    (fun e =>
       let error := toError e in
       log (tag "restoreCheckpoint" ++ " failed to restore checkpoint: "
            ++ message error) ;;
       emit (EvError error) ;;
       throw (ThrownError error)).

(** *** getDiff *)

(** [promise.catch(handler)] *)
Definition orCatch {St A : Type} (m : M St A) (handler : thrown -> M St A) : M St A :=
  tryCatch m handler.

(** The body of the [for (const file of files)] loop: the record pushed
    for one changed file. *)
Definition diffFile (g : SimpleGit) (from : string) (to : option string)
    (cwdPath : string) (f : DiffFile) : M (Service * Sys World) CheckpointDiff :=
  let relPath := file f in
  let absPath := path_join P [cwdPath; relPath] in
  before <- orCatch
              (sys (hostCall (CGitShow g [from ++ ":" ++ relPath])
                             (git_show H g [from ++ ":" ++ relPath])))
              (fun err =>
                 reportError ("[" ++ className P ++ "#getDiff:git.show:before") err ;;
                 ret "") ;;
  after <-
    (if Js.truthyOpt to then
       orCatch
         (sys (hostCall (CGitShow g [nonNull to ++ ":" ++ relPath])
                        (git_show H g [nonNull to ++ ":" ++ relPath])))
         (fun err =>
            reportError ("[" ++ className P ++ "#getDiff:git.show:after") err ;;
            ret "")
     else
       orCatch
         (sys (hostCall (CReadFile absPath) (fs_readFile H absPath)))
         (fun err =>
            reportError ("[" ++ className P ++ "#getDiff:readFile") err ;;
            ret "")) ;;
  ret (mkCheckpointDiff relPath absPath before after).

(** The loop itself, carrying the [result] array. *)
Fixpoint diffFiles (g : SimpleGit) (from : string) (to : option string)
    (cwdPath : string) (fs : list DiffFile) (result : list CheckpointDiff)
    : M (Service * Sys World) (list CheckpointDiff) :=
  match fs with
  | [] => ret result
  | f :: rest =>
      record <- diffFile g from to cwdPath f ;;
      diffFiles g from to cwdPath rest (result ++ [record])%list
  end.

Definition getDiff (from to : option string) : M (Service * Sys World) (list CheckpointDiff) :=
  this <- getThis ;;
  match git this with
  | None => throw notInitialized
  | Some g =>
      from' <-
        (if negb (Js.truthyOpt from) then
           out <- sys (hostCall (CGitRaw g ["rev-list"; "--max-parents=0"; "HEAD"])
                                (git_raw H g ["rev-list"; "--max-parents=0"; "HEAD"])) ;;
           ret (Js.trim out)
         else ret (nonNull from)) ;;
      stageAll g ;;
      log (tag "getDiff" ++ " diffing "
           ++ (if Js.truthyOpt to then from' ++ ".." ++ nonNull to
               else from' ++ "..HEAD")) ;;
      summary <-
        (if Js.truthyOpt to then
           sys (hostCall (CGitDiffSummary g [from' ++ ".." ++ nonNull to])
                         (git_diffSummary H g [from' ++ ".." ++ nonNull to]))
         else
           sys (hostCall (CGitDiffSummary g [from'])
                         (git_diffSummary H g [from']))) ;;
      worktree <- getShadowGitConfigWorktree g ;;
      this <- getThis ;;
      let cwdPath :=
        if Js.truthyOpt worktree then nonNull worktree
        else if Js.truthy (workspaceDir this) then workspaceDir this
        else "" in
      diffFiles g from' to cwdPath (files summary) []
  end.

(** *** Calls a client can make on an instance *)

Inductive Request :=
| ReqInit (onInit : option (M (Sys World) unit))
| ReqSave (msg : string) (options : option SaveOptions)
| ReqRestore (commitHash : string)
| ReqDiff (from to : option string).

(** The instance and module state a request leaves, whether it returned or
    threw. *)
Definition perform (r : Request) (s : Service * Sys World)
    : Service * Sys World :=
  match r with
  | ReqInit onInit => stateOf (initShadowGit onInit s)
  | ReqSave msg options => stateOf (saveCheckpoint msg options s)
  | ReqRestore commitHash => stateOf (restoreCheckpoint commitHash s)
  | ReqDiff from to => stateOf (getDiff from to s)
  end.

Definition performAll (rs : list Request) (s : Service * Sys World)
    : Service * Sys World :=
  fold_left (fun acc r => perform r acc) rs s.

(** *** The three reads of one file in [getDiff] *)

Inductive Read := BeforeBlob | AfterBlob | LiveFile.

(** The read [side] of file [f] throws when the loop reaches [f] in state
    [s]; the 'after' read is issued in the world the 'before' read left. *)
Definition readFails (side : Read) (g : SimpleGit) (from : string)
    (to : option string) (cwdPath : string) (f : DiffFile)
    (s : Service * Sys World) : Prop :=
  let relPath := file f in
  let w0 := world (snd s) in
  let w1 := snd (git_show H g [from ++ ":" ++ relPath] w0) in
  match side with
  | BeforeBlob =>
      exists e, fst (git_show H g [from ++ ":" ++ relPath] w0) = Throw e
  | AfterBlob =>
      Js.truthyOpt to = true /\
      exists e, fst (git_show H g [nonNull to ++ ":" ++ relPath] w1) = Throw e
  | LiveFile =>
      Js.truthyOpt to = false /\
      exists e, fst (fs_readFile H (path_join P [cwdPath; relPath]) w1) = Throw e
  end.

(** The content a record holds for the side a read fills. *)
Definition contentOf (side : Read) (record : CheckpointDiff) : string :=
  match side with
  | BeforeBlob => content_before record
  | AfterBlob | LiveFile => content_after record
  end.

End Service.

Arguments hostCall {World A} c op s /.
Arguments now {World} H s /.
Arguments getThis {World} s /.
Arguments modifyThis {World} f s /.
Arguments sys {World A} m ts /.

(** ** A scripted host, for running the methods on concrete inputs *)

Module Demo.

(** What the collaborators answer in one scenario. The world is a clock
    that [Date.now()] advances by one. *)
Record Script := mkScript {
  sc_ripgrep : outcome (list RgItem);
  sc_exists : bool;
  sc_add : outcome unit;
  sc_commit : outcome CommitResult;
  sc_reset : outcome unit;
  sc_show : list string -> outcome string;
  sc_readFile : string -> outcome string;
  sc_diff : outcome DiffResult
}.

Definition host (sc : Script) : Host Z :=
  mkHost
    (fun _ _ w => (sc_ripgrep sc, w))
    (fun _ w => (Ok tt, w))
    (fun _ _ w => (Ok tt, w))
    (fun p w => (sc_readFile sc p, w))
    (fun _ w => (Ok (sc_exists sc), w))
    (fun _ w => (Ok ["node_modules/"; ".DS_Store"], w))
    (fun _ w => (Ok "2.43.0", w))
    (fun _ w => (Ok tt, w))
    (fun _ _ _ w => (Ok tt, w))
    (fun _ _ w => (Ok (mkConfigGetResult (Some "/ws")), w))
    (fun _ _ w => (sc_add sc, w))
    (fun _ _ _ w => (sc_commit sc, w))
    (fun _ _ w => (Ok "b0", w))
    (fun _ _ _ w => (Ok tt, w))
    (fun _ _ w => (sc_reset sc, w))
    (fun _ _ w => (Ok ("b0" ++ LF), w))
    (fun _ _ w => (sc_diff sc, w))
    (fun _ args w => (sc_show sc args, w))
    (fun w => (w, w + 1))
    (fun _ _ => 0%nat)
    (fun _ w => w).

(** A host like [h], with one listener registered for ["error"] by [on]. *)
Definition heard (h : Host Z) : Host Z :=
  mkHost (executeRipgrep h) (fs_mkdir h) (fs_writeFile h) (fs_readFile h)
         (fileExistsAtPath h) (getExcludePatterns h) (git_version h) (git_init h)
         (git_addConfig h) (git_getConfig h) (git_add h) (git_commit h)
         (git_revparse h) (git_clean h) (git_reset h) (git_raw h)
         (git_diffSummary h) (git_show h) (Date_now h)
         (fun event _ => if String.eqb event "error" then 1%nat else 0%nat)
         (delivered h).

(** POSIX-like stand-ins for the [path] functions, enough for the paths of
    the scenarios below. *)
Definition joinPath (parts : list string) : string :=
  match Js.join "/" parts with "" => "." | p => p end.

Definition platform : Platform :=
  mkPlatform "/home/u" joinPath
    (fun from to => substring (S (String.length from))
                              (String.length to - S (String.length from)) to)
    (fun p => match p with
              | "sub/.git/HEAD" => "sub/.git"
              | "sub/.git" => "sub"
              | _ => "."
              end)
    (fun key _ => key)
    "RepoPerTaskCheckpointService"
    (fun ev => match ev with
               | EvError error =>
                   "{ type: 'error', error: Error: " ++ message error ++ " }"
               | _ => "[Object]"
               end).

Definition calm : Script :=
  mkScript (Ok []) false (Ok tt) (Ok (mkCommitResult "" "master")) (Ok tt)
           (fun _ => Ok "old") (fun _ => Ok "new") (Ok (mkDiffResult [])).

Definition fresh : Service :=
  mkService "task" "/store" "/ws" [] None "/store/.git" None None.

Definition opened (cps : list string) : Service :=
  mkService "task" "/store" "/ws" cps (Some "b0") "/store/.git"
            (Some (mkSimpleGit "/store")) (Some "/ws").

Definition start : Sys Z := mkSys 0 [].

(** The scenarios: what differs from [calm]. *)

Definition withCommit (r : outcome CommitResult) (sc : Script) : Script :=
  mkScript (sc_ripgrep sc) (sc_exists sc) (sc_add sc) r (sc_reset sc)
           (sc_show sc) (sc_readFile sc) (sc_diff sc).


Definition withRipgrep (r : outcome (list RgItem)) (sc : Script) : Script :=
  mkScript r (sc_exists sc) (sc_add sc) (sc_commit sc) (sc_reset sc)
           (sc_show sc) (sc_readFile sc) (sc_diff sc).

Definition withShow (f : list string -> outcome string) (sc : Script) : Script :=
  mkScript (sc_ripgrep sc) (sc_exists sc) (sc_add sc) (sc_commit sc) (sc_reset sc)
           f (sc_readFile sc) (sc_diff sc).

(** A file was edited: the commit goes through as [c2]. *)
Definition edited : Script := withCommit (Ok (mkCommitResult "c2" "master")) calm.

(** The commit fails. *)
Definition commitFails : Script :=
  withCommit (Throw (ThrownError (mkError "fatal: unable to write new index file")))
             calm.


(** The workspace holds a repository in [sub/]. *)
Definition nested : Script :=
  withRipgrep (Ok [mkRgItem "file" ".git/HEAD"; mkRgItem "file" "sub/.git/HEAD"])
              calm.

(** ripgrep cannot be run. *)
Definition scanFails : Script :=
  withRipgrep (Throw (ThrownError (mkError "spawn rg ENOENT"))) calm.

(** [a.txt] did not exist at the base commit. *)
Definition blobMissing : Script :=
  withShow (fun args =>
              match args with
              | ["b0:a.txt"] =>
                  Throw (ThrownError (mkError "fatal: path 'a.txt' does not exist in 'b0'"))
              | _ => Ok "old"
              end)
           calm.

Definition store : SimpleGit := mkSimpleGit "/store".

(** [saveCheckpoint("no edit")] on an unchanged tree. *)
Definition savedUnchanged :=
  saveCheckpoint (host calm) platform "no edit" None (opened ["c1"], start).


(** The instance and module state after a first [initShadowGit] of [fresh]
    under [calm]. *)
Definition initialized : Service * Sys Z :=
  (mkService "task" "/store" "/ws" [] (Some "") "/store/.git" (Some store) None,
   mkSys 2 []).

End Demo.

(** ** Properties of method bodies *)

(** The computation leaves the field [proj] of the instance as it found it,
    whether it returns or throws. *)
Definition keeps {World A X : Type} (proj : Service -> X)
    (m : M (Service * Sys World) A) : Prop :=
  forall st, proj (fst (stateOf (m st))) = proj (fst st).

(** Whenever the computation returns normally, the instance satisfies [Q]. *)
Definition ensures {World A : Type} (Q : Service -> Prop)
    (m : M (Service * Sys World) A) : Prop :=
  forall st a st' fx, m st = (Ok a, st', fx) -> Q (fst st').

Definition hasBaseHash (s : Service) : Prop := exists b, _baseHash s = Some b.

(** The invariant behind [this.baseHash!]: an initialized instance has its
    base hash. *)
Definition wellFormed (s : Service) : Prop :=
  isInitialized s = true -> hasBaseHash s.

(** Started on an instance that is not initialized, the computation leaves
    a well-formed instance, whether it returns or throws. *)
Definition exitsWell {World A : Type} (m : M (Service * Sys World) A) : Prop :=
  forall st, git (fst st) = None -> wellFormed (fst (stateOf (m st))).

(** The computation never throws. *)
Definition neverThrows {St A : Type} (m : M St A) : Prop :=
  forall st, exists a, resultOf (m st) = Ok a.

(** ** Reading the effects of a run *)

(** The external calls among the effects, in the order they were made. *)
Fixpoint calls (fxs : list Effect) : list Call :=
  match fxs with
  | [] => []
  | FxCall c :: r => c :: calls r
  | _ :: r => calls r
  end.

(** The warnings shown among the effects. *)
Fixpoint warnings (fxs : list Effect) : list string :=
  match fxs with
  | [] => []
  | FxWarning msg :: r => msg :: warnings r
  | _ :: r => warnings r
  end.

Definition isCall (fx : Effect) : bool :=
  match fx with FxCall _ => true | _ => false end.

(** Every effect of the computation satisfies [ok], however the run goes. *)
Definition performs {St A : Type} (ok : Effect -> bool) (m : M St A) : Prop :=
  forall st, forallb ok (effectsOf (m st)) = true.

(** What [saveCheckpoint] may do: log, report, emit, stage and commit. *)
Definition savesOnly (fx : Effect) : bool :=
  match fx with
  | FxCall (CGitAdd _ _) | FxCall (CGitCommit _ _ _) => true
  | FxCall _ | FxWarning _ => false
  | _ => true
  end.

(** What [restoreCheckpoint] may do: log, emit, clean and reset. *)
Definition restoresOnly (fx : Effect) : bool :=
  match fx with
  | FxCall (CGitClean _ _ _) | FxCall (CGitReset _ _) => true
  | FxCall _ | FxWarning _ | FxTelemetry _ _ => false
  | _ => true
  end.

(** What [getDiff] may do: log, report, stage, and read. *)
Definition diffsOnly (fx : Effect) : bool :=
  match fx with
  | FxCall (CGitRaw _ _) | FxCall (CGitAdd _ _) | FxCall (CGitDiffSummary _ _)
  | FxCall (CGitGetConfig _ _) | FxCall (CGitShow _ _) | FxCall (CReadFile _) => true
  | FxCall _ | FxWarning _ | FxEmit _ => false
  | _ => true
  end.

(** What [deleteBranch] may do: print to the console, report, and run git
    on the repository [g] it was given; no file is read or written, no
    event is emitted and no warning is shown. *)
Definition onRepository (g : SimpleGit) (fx : Effect) : bool :=
  match fx with
  | FxCall (CGitRaw g' _) | FxCall (CGitRevparse g' _)
  | FxCall (CGitGetConfig g' _) | FxCall (CGitAddConfig g' _ _)
  | FxCall (CGitReset g' _) | FxCall (CGitClean g' _ _) =>
      String.eqb (baseDir g') (baseDir g)
  | FxCall _ | FxWarning _ | FxEmit _ => false
  | _ => true
  end.

(** ** Series of warnings *)

(** [showWarning] called on each message in turn, as the constructor and
    [initShadowGit] do over the life of the module. *)
Fixpoint showWarnings {World : Type} (msgs : list string) : M (Sys World) unit :=
  match msgs with
  | [] => ret tt
  | msg :: rest => showWarning msg ;; showWarnings rest
  end.

(** ** Successful reads of [getDiff] *)

Section Reads.

Context {World : Type}.
Variable H : Host World.
Variable P : Platform.

(** The read [side] of file [f] returns [text] when the loop reaches [f] in
    state [s]. *)
Definition readReturns (side : Read) (g : SimpleGit) (from : string)
    (to : option string) (cwdPath : string) (f : DiffFile)
    (s : Service * Sys World) (text : string) : Prop :=
  let relPath := file f in
  let w0 := world (snd s) in
  let w1 := snd (git_show H g [from ++ ":" ++ relPath] w0) in
  match side with
  | BeforeBlob =>
      fst (git_show H g [from ++ ":" ++ relPath] w0) = Ok text
  | AfterBlob =>
      Js.truthyOpt to = true /\
      fst (git_show H g [nonNull to ++ ":" ++ relPath] w1) = Ok text
  | LiveFile =>
      Js.truthyOpt to = false /\
      fst (fs_readFile H (path_join P [cwdPath; relPath]) w1) = Ok text
  end.

(** The two reads [getDiff] makes for one changed file. *)
Definition readsOf (g : SimpleGit) (from : string) (to : option string)
    (cwdPath : string) (f : DiffFile) : list Call :=
  [CGitShow g [from ++ ":" ++ file f];
   if Js.truthyOpt to then CGitShow g [nonNull to ++ ":" ++ file f]
   else CReadFile (path_join P [cwdPath; file f])].

End Reads.

(** ** Storage paths and task deletion *)

(** simple-git's [BranchSummary]; only [all] is read. *)
Record BranchSummary := mkBranchSummary { branches_all : list string }.

(** The branch operations of simple-git that [deleteBranch] uses, the
    [TimeoutError] of [p-wait-for], and the number of polls that complete
    before its two-second timer fires, which is for the world to decide. *)
Record BranchHost (World : Type) := mkBranchHost {
  git_branchLocal : SimpleGit -> World -> outcome BranchSummary * World;
  git_checkout : SimpleGit -> list string -> World -> outcome unit * World;
  git_branch : SimpleGit -> list string -> World -> outcome unit * World;
  pollsBeforeTimeout : World -> nat;
  timeoutError : thrown
}.

(** [crypto.createHash("sha256").update(text).digest("hex")] *)
Record Crypto := mkCrypto { sha256_hex : string -> string }.

(** The branch operations are recorded among the calls under the git
    sub-command they stand for, followed by the arguments the source passes. *)
Definition CBranchLocal (g : SimpleGit) : Call := CGitRaw g ["branch"].
Definition CCheckout (g : SimpleGit) (args : list string) : Call :=
  CGitRaw g ("checkout" :: args).
Definition CBranch (g : SimpleGit) (args : list string) : Call :=
  CGitRaw g ("branch" :: args).

Module Static.

(** [try { body } finally { finalizer }]: the finalizer always runs; when it
    throws, its exception replaces the completion of the body. *)
Definition tryFinally {St A : Type} (body : M St A) (finalizer : M St unit) : M St A :=
  fun s =>
    match body s with
    | (r, s1, fx1) =>
        match finalizer s1 with
        | (Ok _, s2, fx2) => (r, s2, (fx1 ++ fx2)%list)
        | (Throw e, s2, fx2) => (Throw e, s2, (fx1 ++ fx2)%list)
        end
    end.

(** [pWaitFor(condition, { interval: 500, timeout: 2_000 })]: the condition
    is polled until it holds; it rejects with what the condition throws, or
    with [timeout] once the [polls] that fit before the timer are used up. *)
Fixpoint pWaitFor {St : Type} (timeout : thrown) (polls : nat)
    (condition : M St bool) : M St unit :=
  match polls with
  | O => throw timeout
  | S n =>
      holds <- condition ;;
      if (holds : bool) then ret tt else pWaitFor timeout n condition
  end.

(** [console.log] and [console.error] lines are recorded as log lines. *)
Definition console {St : Type} (line : string) : M St unit := tell (FxLog line).

Section Storage.

Context {World : Type}.
Variable H : Host World.
Variable B : BranchHost World.
Variable P : Platform.
Variable C : Crypto.

Definition hashWorkspaceDir (workspaceDir : string) : string :=
  substring 0 8 (sha256_hex C workspaceDir).

Definition taskRepoDir (taskId globalStorageDir : string) : string :=
  path_join P [globalStorageDir; "tasks"; taskId; "checkpoints"].

Definition workspaceRepoDir (globalStorageDir workspaceDir : string) : string :=
  path_join P [globalStorageDir; "checkpoints"; hashWorkspaceDir workspaceDir].

(** In a static method [this.constructor] is [Function]. *)
Definition staticTag (method : string) : string := "[Function#" ++ method ++ "]".

Definition deleteBranch (g : SimpleGit) (branchName : string) : M (Sys World) bool :=
  branches <- hostCall (CBranchLocal g) (git_branchLocal B g) ;;
  if negb (Js.arrayIncludes branchName (branches_all branches)) then
    console (staticTag "deleteBranch" ++ " branch " ++ branchName ++ " does not exist") ;;
    ret false
  else
    currentBranch <- hostCall (CGitRevparse g ["--abbrev-ref"; "HEAD"])
                              (git_revparse H g ["--abbrev-ref"; "HEAD"]) ;;
    if String.eqb currentBranch branchName then
      worktree <- hostCall (CGitGetConfig g "core.worktree")
                           (git_getConfig H g "core.worktree") ;;
      tryFinally
        (tryCatch
           (hostCall (CGitRaw g ["config"; "--unset"; "core.worktree"])
                     (git_raw H g ["config"; "--unset"; "core.worktree"]) ;;
            hostCall (CGitReset g ["--hard"]) (git_reset H g ["--hard"]) ;;
            hostCall (CGitClean g "f" ["-d"]) (git_clean H g "f" ["-d"]) ;;
            let defaultBranch :=
              if Js.arrayIncludes "main" (branches_all branches) then "main"
              else "master" in
            hostCall (CCheckout g [defaultBranch; "--force"])
                     (git_checkout B g [defaultBranch; "--force"]) ;;
            polls <- (fun s => (Ok (pollsBeforeTimeout B (world s)), s, [])) ;;
            pWaitFor (timeoutError B) polls
              (newBranch <- hostCall (CGitRevparse g ["--abbrev-ref"; "HEAD"])
                                     (git_revparse H g ["--abbrev-ref"; "HEAD"]) ;;
               ret (String.eqb newBranch defaultBranch)) ;;
            hostCall (CBranch g ["-D"; branchName]) (git_branch B g ["-D"; branchName]) ;;
            ret true)
           (fun error =>
              console (staticTag "deleteBranch" ++ " failed to delete branch "
                       ++ branchName ++ ": " ++ errorText error) ;;
              reportError "Function#deleteBranch" error ;;
              ret false))
        (match value worktree with
         | Some v =>
             if Js.truthy v then
               hostCall (CGitAddConfig g "core.worktree" v)
                        (git_addConfig H g "core.worktree" v)
             else ret tt
         | None => ret tt
         end)
    else
      hostCall (CBranch g ["-D"; branchName]) (git_branch B g ["-D"; branchName]) ;;
      ret true.

Definition deleteTask (taskId globalStorageDir workspaceDir : string)
    : M (Sys World) unit :=
  let repoDir := workspaceRepoDir globalStorageDir workspaceDir in
  let branchName := "roo-" ++ taskId in
  let g := mkSimpleGit repoDir in
  success <- deleteBranch g branchName ;;
  if (success : bool) then
    console ("[" ++ className P ++ "#deleteTask." ++ taskId ++ "] deleted branch "
             ++ branchName)
  else
    console ("[" ++ className P ++ "#deleteTask." ++ taskId
             ++ "] failed to delete branch " ++ branchName).

End Storage.

End Static.

(** ** Further scenarios *)

Module Scenarios.

Definition withReset (r : outcome unit) (sc : Demo.Script) : Demo.Script :=
  Demo.mkScript (Demo.sc_ripgrep sc) (Demo.sc_exists sc) (Demo.sc_add sc)
                (Demo.sc_commit sc) r (Demo.sc_show sc) (Demo.sc_readFile sc)
                (Demo.sc_diff sc).

Definition withExists (b : bool) (sc : Demo.Script) : Demo.Script :=
  Demo.mkScript (Demo.sc_ripgrep sc) b (Demo.sc_add sc) (Demo.sc_commit sc)
                (Demo.sc_reset sc) (Demo.sc_show sc) (Demo.sc_readFile sc)
                (Demo.sc_diff sc).

Definition withDiff (r : outcome DiffResult) (sc : Demo.Script) : Demo.Script :=
  Demo.mkScript (Demo.sc_ripgrep sc) (Demo.sc_exists sc) (Demo.sc_add sc)
                (Demo.sc_commit sc) (Demo.sc_reset sc) (Demo.sc_show sc)
                (Demo.sc_readFile sc) r.

(** The first commit of a new shadow repository goes through as [b0]. *)
Definition firstCommit : Demo.Script :=
  Demo.withCommit (Ok (mkCommitResult "b0" "master")) Demo.calm.

(** A later edit is committed as [c4]. *)
Definition editedAgain : Demo.Script :=
  Demo.withCommit (Ok (mkCommitResult "c4" "master")) Demo.calm.

(** The hard reset fails. *)
Definition resetFails : Demo.Script :=
  withReset (Throw (ThrownError (mkError "fatal: Could not parse object 'c9'")))
            Demo.calm.

(** The shadow repository was created by an earlier run. *)
Definition existing : Demo.Script := withExists true Demo.calm.

(** Two files differ. *)
Definition twoChanged : Demo.Script :=
  withDiff (Ok (mkDiffResult [mkDiffFile "a.txt"; mkDiffFile "b.txt"])) Demo.calm.


(** An instance with its git handle, before the worktree was looked up. *)
Definition unresolved : Service :=
  mkService "task" "/store" "/ws" [] (Some "b0") "/store/.git"
            (Some Demo.store) None.

(** A host like [h], except that the configuration cannot be read. *)
Definition withoutConfig (h : Host Z) : Host Z :=
  mkHost (executeRipgrep h) (fs_mkdir h) (fs_writeFile h) (fs_readFile h)
         (fileExistsAtPath h) (getExcludePatterns h) (git_version h) (git_init h)
         (git_addConfig h)
         (fun _ _ w => (Throw (ThrownError (mkError "fatal: not in a git directory")), w))
         (git_add h) (git_commit h) (git_revparse h) (git_clean h) (git_reset h)
         (git_raw h) (git_diffSummary h) (git_show h) (Date_now h)
         (listenerCount h) (delivered h).

(** An [onInit] callback that fails. *)
Definition failingCallback : M (Sys Z) unit :=
  throw (ThrownError (mkError "listener failed")).

(** A repository with the branch [b0] checked out (as [Demo.host] answers)
    and a task branch beside it; the switch away from [b0] never shows. *)
Definition branches : BranchHost Z :=
  mkBranchHost
    (fun _ w => (Ok (mkBranchSummary ["b0"; "roo-task"]), w))
    (fun _ _ w => (Ok tt, w))
    (fun _ _ w => (Ok tt, w))
    (fun _ => 4%nat)
    (ThrownError (mkError "Promise timed out after 2000 milliseconds")).

End Scenarios.

(** ** Facts about the array built-ins *)

Lemma arrayIncludes_In (x : string) (l : list string) :
  Js.arrayIncludes x l = true <-> In x l.
Proof.
  induction l as [|y r IH]; simpl.
  - split; [discriminate | contradiction].
  - destruct (String.eqb_spec y x) as [->|Hne].
    + split; auto.
    + rewrite IH. split; [auto | intros [Heq|Hin]; [contradiction | exact Hin]].
Qed.

Lemma indexOfFrom_absent (x : string) (l : list string) (i : Z) :
  ~ In x l -> Js.indexOfFrom x l i = -1.
Proof.
  revert i. induction l as [|y r IH]; intros i Hnot; simpl; [reflexivity|].
  destruct (String.eqb_spec y x) as [->|Hne].
  - exfalso. apply Hnot. left. reflexivity.
  - apply IH. intro Hin. apply Hnot. right. exact Hin.
Qed.

Lemma indexOfFrom_first (x : string) (l : list string) (i : Z) :
  In x l ->
  exists before later,
    l = (before ++ x :: later)%list /\ ~ In x before /\
    Js.indexOfFrom x l i = i + Z.of_nat (length before).
Proof.
  revert i. induction l as [|y r IH]; intros i Hin; [contradiction|].
  simpl. destruct (String.eqb_spec y x) as [->|Hne].
  - exists [], r. repeat split; auto. simpl. lia.
  - destruct Hin as [Heq|Hin]; [contradiction|].
    destruct (IH (i + 1) Hin) as (before & later & Hl & Hnot & Hidx).
    exists (y :: before), later. repeat split.
    + simpl. rewrite Hl. reflexivity.
    + intros [Heq|Hb]; [contradiction | exact (Hnot Hb)].
    + rewrite Hidx. simpl length. lia.
Qed.

Lemma slice_upto {A : Type} (before later : list A) (x : A) :
  Js.slice (before ++ x :: later)%list 0 (Z.of_nat (length before) + 1)
  = (before ++ [x])%list.
Proof.
  unfold Js.slice.
  set (len := Z.of_nat (length (before ++ x :: later))).
  assert (Hlen : len = Z.of_nat (length before) + 1 + Z.of_nat (length later))
    by (unfold len; rewrite length_app; simpl length; lia).
  assert (H0 : Js.relIndex len 0 = 0)
    by (unfold Js.relIndex; simpl; lia).
  assert (H1 : Js.relIndex len (Z.of_nat (length before) + 1)
               = Z.of_nat (length before) + 1)
    by (unfold Js.relIndex;
        destruct (Z.of_nat (length before) + 1 <? 0) eqn:E; lia).
  rewrite H0, H1. change (Z.to_nat 0) with 0%nat. simpl skipn.
  replace (Z.to_nat (Z.of_nat (length before) + 1 - 0))
    with (length (before ++ [x])) by (rewrite length_app; simpl; lia).
  replace (before ++ x :: later)%list with ((before ++ [x]) ++ later)%list
    by (rewrite <- app_assoc; reflexivity).
  rewrite firstn_app, Nat.sub_diag, firstn_all. simpl. apply app_nil_r.
Qed.

Lemma last_element {A : Type} (l : list A) (d : A) :
  Js.nullish (Js.getIndex l (Z.of_nat (length l) - 1)) d = last l d.
Proof.
  unfold Js.getIndex.
  destruct l as [|a r]; [reflexivity|].
  destruct (Z.of_nat (length (a :: r)) - 1 <? 0) eqn:E;
    [exfalso; apply Z.ltb_lt in E; simpl length in E; lia|].
  replace (Z.to_nat (Z.of_nat (length (a :: r)) - 1)) with (length r)
    by (simpl length; lia).
  clear E. revert a. induction r as [|b r IH]; intros a; [reflexivity|].
  change (nth_error (a :: b :: r) (length (b :: r)))
    with (nth_error (b :: r) (length r)).
  rewrite IH. reflexivity.
Qed.

Lemma truthy_nonempty (s : string) : Js.truthy s = true <-> s <> "".
Proof.
  unfold Js.truthy. destruct (String.eqb_spec s ""); simpl; split; congruence.
Qed.

(** ** The built-ins on sample inputs *)

Example slice_keeps_prefix : Js.slice ["c1"; "c2"; "c3"] 0 2 = ["c1"; "c2"].
Proof. reflexivity. Qed.

Example slice_counts_from_end : Js.slice ["c1"; "c2"; "c3"] (-2) 5 = ["c2"; "c3"].
Proof. reflexivity. Qed.

Example indexOf_first_occurrence : Js.indexOf "c1" ["c0"; "c1"; "c1"] = 1.
Proof. reflexivity. Qed.

Example indexOf_missing : Js.indexOf "b0" ["c0"; "c1"] = -1.
Proof. reflexivity. Qed.

Example trim_rev_list_output : Js.trim ("4f2a9c" ++ LF) = "4f2a9c".
Proof. reflexivity. Qed.

Example showZ_duration : Js.showZ 125 = "125".
Proof. reflexivity. Qed.

(** The filter of [getNestedGitRepository] drops the workspace's own
    [.git/HEAD] and entries that are not files, and keeps a [HEAD] below the
    root, with either path separator. *)

Example isNestedGitHead_root : isNestedGitHead (mkRgItem "file" ".git/HEAD") = false.
Proof. reflexivity. Qed.

Example isNestedGitHead_below_root :
  isNestedGitHead (mkRgItem "file" "sub/.git/HEAD") = true.
Proof. reflexivity. Qed.

Example isNestedGitHead_backslashes :
  isNestedGitHead (mkRgItem "file" "sub\.git\HEAD") = true.
Proof. reflexivity. Qed.

Example isNestedGitHead_folder :
  isNestedGitHead (mkRgItem "folder" "sub/.git/HEAD") = false.
Proof. reflexivity. Qed.

(** ** Running a method symbolically *)

(** Unfold the monad's plumbing and nothing else, so that the next host call
    is exposed while messages and paths stay folded. *)
Ltac run :=
  cbv beta iota zeta delta
      [bind ret throw tryCatch orCatch get put tell log emit reportError sys
       liftSnd hostCall now getThis modifyThis];
  cbn [app fst snd world warningsShown].

(** Split on whether an ["error"] event finds a listener. *)
Ltac heard_or_not :=
  repeat match goal with
         | |- context [match listenerCount ?h ?event ?w with _ => _ end] =>
             destruct (listenerCount h event w)
         end;
  run.

(** ** Checkpoint operations *)

Section Checkpoints.

Context {World : Type} (H : Host World) (P : Platform).

(** [stageAll] never throws: a failing [git add] is logged and reported,
    and the instance is left alone. *)
Lemma stageAll_run (g : SimpleGit) (s : Service) (y : Sys World) :
  exists fx,
    stageAll H P g (s, y)
    = (Ok tt, (s, mkSys (snd (git_add H g "." (world y))) (warningsShown y)), fx)
    /\ emitted fx = [].
Proof.
  unfold stageAll. run.
  destruct (git_add H g "." (world y)) as [[u|e] w1]; run.
  - destruct u. eexists. split; reflexivity.
  - eexists. split; reflexivity.
Qed.

(** C4. On an initialized instance, when the commit returns a non-empty
    hash, [saveCheckpoint] returns the commit result, appends exactly that
    hash to the checkpoint sequence, and emits exactly one event, a
    [checkpoint] event whose [toHash] is the appended hash and whose
    [fromHash] is the previous last checkpoint, or the base hash when the
    sequence was empty. This holds whether or not staging failed. *)
Theorem saveCheckpoint_appends_and_emits
    (s : Service) (y : Sys World) (g : SimpleGit) (b msg : string)
    (options : option SaveOptions) (t0 t1 : Z) (w0 w1 w2 w3 : World)
    (staged : outcome unit) (result : CommitResult) :
  git s = Some g ->
  _baseHash s = Some b ->
  Date_now H (world y) = (t0, w0) ->
  git_add H g "." w0 = (staged, w1) ->
  git_commit H g msg (Js.nullish (optAllowEmpty options) false) w1 = (Ok result, w2) ->
  commit result <> "" ->
  Date_now H w2 = (t1, w3) ->
  exists fx,
    saveCheckpoint H P msg options (s, y)
    = (Ok (Some result),
       (set_checkpoints (_checkpoints s ++ [commit result]) s,
        mkSys w3 (warningsShown y)), fx)
    /\ emitted fx
       = [EvCheckpoint (last (_checkpoints s) b) (commit result) (t1 - t0)
                       (Js.nullish (optSuppressMessage options) false)].
Proof.
  intros Hg Hb Ht0 Hadd Hcommit Hreal Ht1.
  apply truthy_nonempty in Hreal.
  unfold saveCheckpoint, stageAll. run.
  rewrite Hg. run. rewrite Ht0. run. rewrite Hadd.
  destruct staged as [u|e]; run; rewrite Hcommit; run; rewrite Ht1; run;
    rewrite Hreal; run; rewrite Hb; cbn [nonNull]; rewrite last_element;
    (eexists; split; [reflexivity | reflexivity]).
Qed.

(** C1, as amended. On an initialized instance, with [allowEmpty] unset,
    when the commit returns no hash (nothing was staged), [saveCheckpoint]
    returns [undefined] and emits no event, and the checkpoint sequence
    grows by one entry that repeats the previous last checkpoint, or the
    base hash when the sequence was empty. *)
Theorem saveCheckpoint_no_changes
    (s : Service) (y : Sys World) (g : SimpleGit) (b msg : string)
    (options : option SaveOptions) (t0 t1 : Z) (w0 w1 w2 w3 : World)
    (staged : outcome unit) (result : CommitResult) :
  git s = Some g ->
  _baseHash s = Some b ->
  optAllowEmpty options = None ->
  Date_now H (world y) = (t0, w0) ->
  git_add H g "." w0 = (staged, w1) ->
  git_commit H g msg false w1 = (Ok result, w2) ->
  commit result = "" ->
  Date_now H w2 = (t1, w3) ->
  exists fx,
    saveCheckpoint H P msg options (s, y)
    = (Ok None,
       (set_checkpoints (_checkpoints s ++ [last (_checkpoints s) b]) s,
        mkSys w3 (warningsShown y)), fx)
    /\ emitted fx = [].
Proof.
  intros Hg Hb Hunset Ht0 Hadd Hcommit Hnone Ht1.
  unfold saveCheckpoint, stageAll. rewrite Hunset. cbn [Js.nullish]. run.
  rewrite Hg. run. rewrite Ht0. run. rewrite Hadd.
  destruct staged as [u|e]; run; rewrite Hcommit; run; rewrite Ht1; run;
    rewrite Hnone; cbn [Js.truthy String.eqb negb]; run;
    rewrite Hb; cbn [nonNull]; rewrite last_element;
    (eexists; split; [reflexivity | reflexivity]).
Qed.



(** C3. [restoreCheckpoint] with a hash that does not occur in the
    checkpoint sequence, such as the base hash, leaves the instance and so
    the checkpoint sequence unchanged, whether the call returns or throws. *)
Theorem restoreCheckpoint_unknown_hash
    (s : Service) (y : Sys World) (commitHash : string) :
  ~ In commitHash (_checkpoints s) ->
  fst (stateOf (restoreCheckpoint H P commitHash (s, y))) = s
  /\ _checkpoints (fst (stateOf (restoreCheckpoint H P commitHash (s, y))))
     = _checkpoints s.
Proof.
  intros Hnot.
  assert (Hsame : fst (stateOf (restoreCheckpoint H P commitHash (s, y))) = s).
  { unfold restoreCheckpoint, stateOf. run.
    destruct (git s) as [g|]; run; [|heard_or_not; reflexivity].
    destruct (Date_now H (world y)) as [t0 w0]; run.
    destruct (git_clean H g "f" ["-d"; "-f"] w0) as [[u|e] w1]; run;
      [|heard_or_not; reflexivity].
    destruct (git_reset H g ["--hard"; commitHash] w1) as [[u'|e] w2]; run;
      [|heard_or_not; reflexivity].
    unfold Js.indexOf. rewrite (indexOfFrom_absent _ _ 0 Hnot).
    change (negb (-1 =? -1)) with false. run.
    destruct (Date_now H w2) as [t1 w3]; run. reflexivity. }
  split; [exact Hsame | rewrite Hsame; reflexivity].
Qed.
End Checkpoints.

(** ** What the methods do to the instance fields *)

Section Frames.

Context {World X : Type} (proj : Service -> X).

Lemma keeps_ret {A : Type} (a : A) : keeps (World:=World) proj (ret a).
Proof. intros st. reflexivity. Qed.

Lemma keeps_throw {A : Type} (e : thrown) :
  keeps (World:=World) (A:=A) proj (throw e).
Proof. intros st. reflexivity. Qed.

Lemma keeps_tell (fx : Effect) : keeps (World:=World) proj (tell fx).
Proof. intros st. reflexivity. Qed.

Lemma keeps_getThis : keeps (World:=World) proj getThis.
Proof. intros st. reflexivity. Qed.

Lemma keeps_sys {A : Type} (m : M (Sys World) A) : keeps proj (sys m).
Proof.
  intros st. unfold sys, liftSnd, stateOf.
  destruct (m _) as [[r s1] fx]. reflexivity.
Qed.

Lemma keeps_modify (f : Service -> Service) :
  (forall s, proj (f s) = proj s) -> keeps (World:=World) proj (modifyThis f).
Proof. intros Hf st. apply Hf. Qed.

Lemma keeps_bind {A B : Type} (m : M (Service * Sys World) A)
    (k : A -> M (Service * Sys World) B) :
  keeps proj m -> (forall a, keeps proj (k a)) -> keeps proj (bind m k).
Proof.
  intros Hm Hk st. specialize (Hm st). unfold bind, stateOf in *.
  destruct (m st) as [[[a|e] s1] fx1]; cbn [fst snd] in *; [|exact Hm].
  specialize (Hk a s1). unfold stateOf in Hk.
  destruct (k a s1) as [[r s2] fx2]. cbn [fst snd] in *. congruence.
Qed.

Lemma keeps_tryCatch {A : Type} (m : M (Service * Sys World) A)
    (h : thrown -> M (Service * Sys World) A) :
  keeps proj m -> (forall e, keeps proj (h e)) -> keeps proj (tryCatch m h).
Proof.
  intros Hm Hh st. specialize (Hm st). unfold tryCatch, stateOf in *.
  destruct (m st) as [[[a|e] s1] fx1]; cbn [fst snd] in *; [exact Hm|].
  specialize (Hh e s1). unfold stateOf in Hh.
  destruct (h e s1) as [[r s2] fx2]. cbn [fst snd] in *. congruence.
Qed.

End Frames.

(** Decompose a method body along its binds, handlers and branches. *)
Ltac keeps :=
  repeat first
    [ apply keeps_bind; [|intros ?]
    | apply keeps_tryCatch; [|intros ?]
    | apply keeps_sys
    | apply keeps_tell
    | apply keeps_ret
    | apply keeps_throw
    | apply keeps_getThis
    | apply keeps_modify; intros ?; reflexivity
    | match goal with
      | |- keeps _ (match ?x with _ => _ end) => destruct x
      | |- keeps _ (if ?b then _ else _) => destruct b
      end ].

Section Postconditions.

Context {World : Type} (Q : Service -> Prop).

Lemma ensures_throw {A : Type} (e : thrown) :
  ensures (World:=World) (A:=A) Q (throw e).
Proof. intros st a st' fx Hrun. discriminate Hrun. Qed.

Lemma ensures_bind {A B : Type} (m : M (Service * Sys World) A)
    (k : A -> M (Service * Sys World) B) :
  (forall a, ensures Q (k a)) -> ensures Q (bind m k).
Proof.
  intros Hk st b st' fx. unfold bind.
  destruct (m st) as [[[a|e] s1] fx1]; [|discriminate].
  destruct (k a s1) as [[r s2] fx2] eqn:Hka. intros Hrun.
  injection Hrun as -> -> _. exact (Hk a s1 b st' fx2 Hka).
Qed.

(** An assignment that establishes [Q], followed by steps that keep the
    field [Q] reads. *)
Lemma ensures_modify {B X : Type} (proj : Service -> X) (f : Service -> Service)
    (k : M (Service * Sys World) B) :
  (forall s s', proj s' = proj (f s) -> Q s') ->
  keeps proj k -> ensures Q (bind (modifyThis f) (fun _ => k)).
Proof.
  intros Hq Hk st b st' fx. unfold bind, modifyThis.
  specialize (Hk (f (fst st), snd st)). unfold stateOf in Hk.
  destruct (k _) as [[r s2] fx2]. cbn [fst snd] in Hk.
  intros Hrun. injection Hrun as _ -> _. exact (Hq _ _ Hk).
Qed.

End Postconditions.

Section Lifecycle.

Context {World : Type} (H : Host World) (P : Platform).

Lemma keeps_diffFile {X : Type} (proj : Service -> X) g from to cwdPath f :
  keeps proj (diffFile H P g from to cwdPath f).
Proof. unfold diffFile, orCatch. keeps. Qed.

Lemma keeps_diffFiles {X : Type} (proj : Service -> X) g from to cwdPath fs :
  forall result, keeps proj (diffFiles H P g from to cwdPath fs result).
Proof.
  induction fs as [|f rest IH]; intros result; cbn [diffFiles].
  - apply keeps_ret.
  - apply keeps_bind; [apply keeps_diffFile | intros record; apply IH].
Qed.

(** *** The [git] field *)

Lemma git_kept_by_saveCheckpoint (msg : string) (options : option SaveOptions) :
  keeps git (saveCheckpoint H P msg options).
Proof. unfold saveCheckpoint. keeps. Qed.

Lemma git_kept_by_restoreCheckpoint (commitHash : string) :
  keeps git (restoreCheckpoint H P commitHash).
Proof. unfold restoreCheckpoint. keeps. Qed.

Lemma git_kept_by_getDiff (from to : option string) : keeps git (getDiff H P from to).
Proof. unfold getDiff. keeps; apply keeps_diffFiles. Qed.

(** *** The base hash *)

Lemma baseHash_kept_by_saveCheckpoint (msg : string) (options : option SaveOptions) :
  keeps _baseHash (saveCheckpoint H P msg options).
Proof. unfold saveCheckpoint. keeps. Qed.

Lemma baseHash_kept_by_restoreCheckpoint (commitHash : string) :
  keeps _baseHash (restoreCheckpoint H P commitHash).
Proof. unfold restoreCheckpoint. keeps. Qed.

Lemma baseHash_kept_by_getDiff (from to : option string) :
  keeps _baseHash (getDiff H P from to).
Proof. unfold getDiff. keeps; apply keeps_diffFiles. Qed.

(** *** [initShadowGit] *)

Lemma ensures_initialized_openShadowRepository (onInit : option (M (Sys World) unit)) :
  ensures (fun s => isInitialized s = true) (openShadowRepository H P onInit).
Proof.
  unfold openShadowRepository.
  repeat first
    [ apply (@ensures_modify _ _ _ _ git);
      [ intros s s' Hgit; unfold isInitialized; rewrite Hgit; reflexivity | ]
    | apply ensures_bind; intros ? ].
  destruct onInit; keeps.
Qed.

Lemma ensures_initialized_initShadowGit (onInit : option (M (Sys World) unit)) :
  ensures (fun s => isInitialized s = true) (initShadowGit H P onInit).
Proof.
  unfold initShadowGit. apply ensures_bind. intros this.
  destruct (git this); [apply ensures_throw|].
  apply ensures_bind. intros nestedGitPath.
  destruct (Js.truthyOpt nestedGitPath).
  - apply ensures_bind. intros _. apply ensures_throw.
  - apply ensures_initialized_openShadowRepository.
Qed.

Lemma initShadowGit_again (onInit : option (M (Sys World) unit))
    (st : Service * Sys World) :
  isInitialized (fst st) = true ->
  initShadowGit H P onInit st = (Throw alreadyInitialized, st, []).
Proof.
  unfold isInitialized, initShadowGit. run.
  destruct (git (fst st)); [|discriminate].
  intros _. run. destruct st. reflexivity.
Qed.

Lemma exitsWell_keeps {A : Type} (m : M (Service * Sys World) A) :
  keeps git m -> exitsWell m.
Proof.
  intros Hm st Hfresh Hinit. unfold isInitialized in Hinit.
  rewrite Hm, Hfresh in Hinit. discriminate Hinit.
Qed.

Lemma exitsWell_bind {A B : Type} (m : M (Service * Sys World) A)
    (k : A -> M (Service * Sys World) B) :
  keeps git m -> (forall a, exitsWell (k a)) -> exitsWell (bind m k).
Proof.
  intros Hm Hk st Hfresh. specialize (Hm st). unfold bind, stateOf in *.
  destruct (m st) as [[[a|e] s1] fx1]; cbn [fst snd] in *.
  - specialize (Hk a s1). unfold stateOf in Hk.
    destruct (k a s1) as [[r s2] fx2]. cbn [fst snd] in *.
    apply Hk. congruence.
  - intros Hinit. unfold isInitialized in Hinit.
    rewrite Hm, Hfresh in Hinit. discriminate Hinit.
Qed.

(** The step that sets the base hash, followed by steps that keep it. *)
Lemma exitsWell_after_baseHash {A B : Type} (m : M (Service * Sys World) A)
    (k : A -> M (Service * Sys World) B) :
  keeps git m -> ensures hasBaseHash m -> (forall a, keeps _baseHash (k a)) ->
  exitsWell (bind m k).
Proof.
  intros Hgit Hbase Hk st Hfresh. specialize (Hgit st). specialize (Hbase st).
  unfold bind, stateOf in *.
  destruct (m st) as [[[a|e] s1] fx1]; cbn [fst snd] in *.
  - specialize (Hbase a s1 fx1 eq_refl). specialize (Hk a s1). unfold stateOf in Hk.
    destruct (k a s1) as [[r s2] fx2]. cbn [fst snd] in *.
    intros _. unfold hasBaseHash in *. rewrite Hk. exact Hbase.
  - intros Hinit. unfold isInitialized in Hinit.
    rewrite Hgit, Hfresh in Hinit. discriminate Hinit.
Qed.

Lemma exitsWell_openShadowRepository (onInit : option (M (Sys World) unit)) :
  exitsWell (openShadowRepository H P onInit).
Proof.
  unfold openShadowRepository.
  apply exitsWell_bind; [keeps | intros this].
  do 4 (apply exitsWell_bind; [keeps | intros ?]).
  apply exitsWell_bind; [keeps | intros exists_].
  apply exitsWell_after_baseHash.
  - destruct exists_; keeps.
  - destruct exists_.
    + apply ensures_bind. intros _. apply ensures_bind. intros worktree.
      match goal with |- ensures _ (if ?c then _ else _) => destruct c end;
        [apply ensures_throw|].
      apply ensures_bind. intros _. apply ensures_bind. intros head.
      apply (@ensures_modify _ _ _ _ _baseHash); [|keeps].
      intros s s' Hb. exists head. exact Hb.
    + do 8 (apply ensures_bind; intros ?).
      apply ensures_bind. intros result.
      apply (@ensures_modify _ _ _ _ _baseHash); [|keeps].
      intros s s' Hb. exists (commit result). exact Hb.
  - intros created. destruct onInit; keeps.
Qed.

Lemma exitsWell_initShadowGit (onInit : option (M (Sys World) unit)) :
  exitsWell (initShadowGit H P onInit).
Proof.
  unfold initShadowGit. apply exitsWell_bind; [keeps | intros this].
  destruct (git this); [apply exitsWell_keeps; keeps|].
  apply exitsWell_bind; [unfold getNestedGitRepository; keeps | intros nested].
  destruct (Js.truthyOpt nested).
  - apply exitsWell_keeps. keeps.
  - apply exitsWell_openShadowRepository.
Qed.

(** *** Invariants along any series of calls *)

Lemma perform_keeps_initialized (r : Request) (st : Service * Sys World) :
  isInitialized (fst st) = true ->
  isInitialized (fst (perform H P r st)) = true.
Proof.
  intros Hinit. destruct r as [onInit|msg options|commitHash|from to];
    cbn [perform].
  - rewrite (initShadowGit_again onInit st Hinit). exact Hinit.
  - unfold isInitialized. rewrite git_kept_by_saveCheckpoint. exact Hinit.
  - unfold isInitialized. rewrite git_kept_by_restoreCheckpoint. exact Hinit.
  - unfold isInitialized. rewrite git_kept_by_getDiff. exact Hinit.
Qed.

Lemma performAll_keeps_initialized (rs : list Request) :
  forall st : Service * Sys World,
    isInitialized (fst st) = true ->
    isInitialized (fst (performAll H P rs st)) = true.
Proof.
  unfold performAll.
  induction rs as [|r rs IH]; intros st Hinit; cbn [fold_left].
  - exact Hinit.
  - apply IH, perform_keeps_initialized, Hinit.
Qed.

Lemma perform_keeps_wellFormed (r : Request) (st : Service * Sys World) :
  wellFormed (fst st) -> wellFormed (fst (perform H P r st)).
Proof.
  intros Hwf. destruct r as [onInit|msg options|commitHash|from to];
    cbn [perform].
  - destruct (git (fst st)) as [g|] eqn:Hgit.
    + rewrite (initShadowGit_again onInit st); [exact Hwf|].
      unfold isInitialized. rewrite Hgit. reflexivity.
    + apply exitsWell_initShadowGit. exact Hgit.
  - unfold wellFormed, isInitialized, hasBaseHash in *.
    rewrite git_kept_by_saveCheckpoint, baseHash_kept_by_saveCheckpoint. exact Hwf.
  - unfold wellFormed, isInitialized, hasBaseHash in *.
    rewrite git_kept_by_restoreCheckpoint, baseHash_kept_by_restoreCheckpoint.
    exact Hwf.
  - unfold wellFormed, isInitialized, hasBaseHash in *.
    rewrite git_kept_by_getDiff, baseHash_kept_by_getDiff. exact Hwf.
Qed.

Lemma constructor_wellFormed (taskId checkpointsDir workspaceDir : string)
    (y y' : Sys World) (s : Service) (fx : list Effect) :
  constructor P taskId checkpointsDir workspaceDir y = (Ok s, y', fx) ->
  wellFormed s /\ _checkpoints s = [] /\ isInitialized s = false.
Proof.
  unfold constructor.
  destruct (Js.arrayIncludes workspaceDir _).
  - run. destruct (showWarning _ y) as [[r y1] fx1]. destruct r; discriminate.
  - unfold ret. intros Hrun. injection Hrun as <- _ _.
    repeat split. intros Hinit. discriminate Hinit.
Qed.

(** Every instance the constructor returns stays well-formed under any
    series of calls: whenever it is initialized, it has its base hash. *)
Lemma reachable_wellFormed (taskId checkpointsDir workspaceDir : string)
    (y y' : Sys World) (s : Service) (fx : list Effect) (rs : list Request) :
  constructor P taskId checkpointsDir workspaceDir y = (Ok s, y', fx) ->
  wellFormed (fst (performAll H P rs (s, y'))).
Proof.
  intros Hnew. apply constructor_wellFormed in Hnew. destruct Hnew as (Hwf & _).
  assert (Hall : forall st : Service * Sys World,
             wellFormed (fst st) -> wellFormed (fst (performAll H P rs st))).
  { unfold performAll. induction rs as [|r rest IH]; intros st Hst; cbn [fold_left].
    - exact Hst.
    - apply IH, perform_keeps_wellFormed, Hst. }
  apply Hall. exact Hwf.
Qed.

(** C7. Once [initShadowGit] has returned normally on an instance, every
    later call of [initShadowGit] on that instance, directly afterwards or
    after any series of other calls, throws the already-initialized error
    and changes nothing. *)
Theorem initShadowGit_second_call_throws
    (onInit again : option (M (Sys World) unit)) (st st1 : Service * Sys World)
    (r : InitResult) (fx : list Effect) (between : list Request) :
  initShadowGit H P onInit st = (Ok r, st1, fx) ->
  initShadowGit H P again (performAll H P between st1)
  = (Throw alreadyInitialized, performAll H P between st1, []).
Proof.
  intros Hfirst.
  apply initShadowGit_again, performAll_keeps_initialized.
  exact (@ensures_initialized_initShadowGit onInit st r st1 fx Hfirst).
Qed.

End Lifecycle.

(** ** Guards of the constructor and of [initShadowGit] *)

Section Guards.

Context {World : Type} (H : Host World) (P : Platform).

Lemma showWarning_run (msg : string) (y : Sys World) :
  exists shown fx,
    showWarning msg y = (Ok tt, mkSys (world y) shown, fx)
    /\ (forall c, ~ In (FxCall c) fx)
    /\ forallb (fun e => negb (isMutation e)) fx = true.
Proof.
  unfold showWarning.
  destruct ((Z.of_nat (length (warningsShown y)) <? 5)
            && negb (Js.arrayIncludes msg (warningsShown y)))%bool.
  - exists (warningsShown y ++ [msg])%list, [FxWarning msg].
    repeat split. intros c [Heq|[]]. discriminate Heq.
  - exists (warningsShown y), []. destruct y as [w shown]. repeat split.
    intros c [].
Qed.

(** C6. Constructing the service on the home directory, or on its Desktop,
    Documents or Downloads folder, throws, and no call to the file system or
    to git has been made by then: the world is as it was. *)
Theorem constructor_rejects_protected_path
    (taskId checkpointsDir workspaceDir : string) (y : Sys World) :
  In workspaceDir
     [os_homedir P;
      path_join P [os_homedir P; "Desktop"];
      path_join P [os_homedir P; "Documents"];
      path_join P [os_homedir P; "Downloads"]] ->
  exists (y' : Sys World) (fx : list Effect),
    constructor P taskId checkpointsDir workspaceDir y
    = (Throw (ThrownError (mkError ("Cannot use checkpoints in " ++ workspaceDir))),
       y', fx)
    /\ world y' = world y
    /\ (forall c, ~ In (FxCall c) fx)
    /\ forallb (fun e => negb (isMutation e)) fx = true.
Proof.
  intros Hprotected. apply arrayIncludes_In in Hprotected.
  unfold constructor. rewrite Hprotected. run.
  destruct (showWarning_run
              (t P "kilocode:checkpoints.protectedPaths"
                 [("workspaceDir", workspaceDir)]) y)
    as (shown & fx & Hrun & Hcalls & Hpure).
  rewrite Hrun. run. exists (mkSys (world y) shown), (fx ++ [])%list.
  rewrite app_nil_r. repeat split; assumption.
Qed.

(** C5. When the ripgrep scan answers with a [.git/HEAD] file that the
    filter keeps (one that is not the workspace root's own), [initShadowGit]
    on a fresh instance throws the nested-repository error, whose message
    names the repository's path relative to the workspace. Nothing has been
    created by then: the instance is unchanged and still uninitialized, and
    no call that writes to the file system or to git was made. The joined
    path is assumed non-empty, as [path.join] guarantees. *)
Theorem initShadowGit_rejects_nested_repository
    (onInit : option (M (Sys World) unit)) (s : Service) (y : Sys World)
    (items : list RgItem) (w1 : World) (first : RgItem) (others : list RgItem) :
  git s = None ->
  executeRipgrep H (ripgrepArgs (workspaceDir s)) (workspaceDir s) (world y)
  = (Ok items, w1) ->
  filter isNestedGitHead items = first :: others ->
  path_join P [workspaceDir s; path_dirname P (path_dirname P (rg_path first))]
  <> "" ->
  exists (shown : list string) (fx : list Effect),
    initShadowGit H P onInit (s, y)
    = (Throw (nestedRepositoryError
                (path_relative P (workspaceDir s)
                   (path_join P [workspaceDir s;
                                 path_dirname P (path_dirname P (rg_path first))]))),
       (s, mkSys w1 shown), fx)
    /\ isInitialized s = false
    /\ forallb (fun e => negb (isMutation e)) fx = true.
Proof.
  intros Hfresh Hscan Hnested Hpath. apply truthy_nonempty in Hpath.
  unfold initShadowGit, getNestedGitRepository, ripgrepArgs in *. run.
  rewrite Hfresh. run. rewrite Hscan. run. rewrite Hnested. run.
  cbn [Js.truthyOpt]. rewrite Hpath. run. cbn [nonNull].
  match goal with
  | |- context [showWarning ?m ?y0] =>
      destruct (showWarning_run m y0) as (shown & fx & Hrun & _ & Hpure);
      rewrite Hrun
  end.
  run. eexists shown, _. split; [reflexivity|]. split.
  - unfold isInitialized. rewrite Hfresh. reflexivity.
  - cbn [forallb isMutation mutates negb andb]. rewrite app_nil_r. exact Hpure.
Qed.

Lemma bind_effects {St A B : Type} (m : M St A) (k : A -> M St B) (st : St) :
  exists rest, effectsOf (bind m k st) = (effectsOf (m st) ++ rest)%list.
Proof.
  unfold bind, effectsOf. destruct (m st) as [[[a|e] s1] fx1]; cbn [snd].
  - destruct (k a s1) as [[r s2] fx2]. exists fx2. reflexivity.
  - exists []. symmetry. apply app_nil_r.
Qed.

Lemma bind_getThis_effects {B : Type} (k : Service -> M (Service * Sys World) B)
    (st : Service * Sys World) :
  effectsOf (bind getThis k st) = effectsOf (k (fst st) st).
Proof.
  unfold bind, getThis, effectsOf.
  destruct (k (fst st) st) as [[r s2] fx2]. reflexivity.
Qed.

Lemma hostCall_effects {A : Type} (c : Call) (op : World -> outcome A * World)
    (st : Service * Sys World) :
  effectsOf (sys (hostCall c op) st) = [FxCall c].
Proof.
  unfold effectsOf. run. destruct (op _) as [r w']. reflexivity.
Qed.

(** C10. When the ripgrep scan itself throws, [getNestedGitRepository]
    answers [null], and [initShadowGit] on a fresh instance carries on: its
    completion and final state are those of the repository set-up run from
    the state the scan left, and right after the scan's log and telemetry
    entries it creates the storage directory. *)
Theorem initShadowGit_survives_scan_failure
    (onInit : option (M (Sys World) unit)) (s : Service) (y : Sys World)
    (e : thrown) (w1 : World) :
  git s = None ->
  executeRipgrep H (ripgrepArgs (workspaceDir s)) (workspaceDir s) (world y)
  = (Throw e, w1) ->
  exists (scan rest : list Effect),
    getNestedGitRepository H P (s, y)
    = (Ok None, (s, mkSys w1 (warningsShown y)), scan)
    /\ initShadowGit H P onInit (s, y)
       = (resultOf (openShadowRepository H P onInit (s, mkSys w1 (warningsShown y))),
          stateOf (openShadowRepository H P onInit (s, mkSys w1 (warningsShown y))),
          scan ++ FxCall (CMkdir (checkpointsDir s)) :: rest)%list
    /\ effectsOf (openShadowRepository H P onInit (s, mkSys w1 (warningsShown y)))
       = FxCall (CMkdir (checkpointsDir s)) :: rest.
Proof.
  intros Hfresh Hscan.
  assert (Hopen : exists rest,
            effectsOf (openShadowRepository H P onInit
                         (s, mkSys w1 (warningsShown y)))
            = FxCall (CMkdir (checkpointsDir s)) :: rest).
  { unfold openShadowRepository.
    rewrite bind_getThis_effects. cbn [fst].
    match goal with
    | |- exists rest, effectsOf (bind ?m ?k ?st) = _ =>
        destruct (bind_effects m k st) as (rest & Hrest)
    end.
    exists rest. rewrite hostCall_effects in Hrest. exact Hrest. }
  destruct Hopen as (rest & Hrest).
  eexists _, rest. split; [|split; [|exact Hrest]].
  - unfold getNestedGitRepository, ripgrepArgs in *. run. rewrite Hscan. run.
    reflexivity.
  - unfold initShadowGit, getNestedGitRepository, ripgrepArgs in *. run.
    rewrite Hfresh. run. rewrite Hscan. run. cbn [Js.truthyOpt].
    unfold effectsOf in Hrest. unfold resultOf, stateOf.
    destruct (openShadowRepository H P onInit (s, mkSys w1 (warningsShown y)))
      as [[r' s'] fx'].
    cbn [fst snd] in *. rewrite Hrest. reflexivity.
Qed.

End Guards.

(** ** The per-file reads of [getDiff] *)

Section Diff.

Context {World : Type} (H : Host World) (P : Platform).

Variables (g : SimpleGit) (from : string) (to : option string) (cwdPath : string).

Lemma diffFile_run (f : DiffFile) (st : Service * Sys World) :
  exists record st' fx,
    diffFile H P g from to cwdPath f st = (Ok record, st', fx)
    /\ fst st' = fst st
    /\ paths_relative record = file f
    /\ paths_absolute record = path_join P [cwdPath; file f]
    /\ forall side,
         readFails H P side g from to cwdPath f st -> contentOf side record = "".
Proof.
  unfold diffFile, orCatch, readFails. run.
  destruct (git_show H g [from ++ ":" ++ file f] (world (snd st)))
    as [[before|e] w1]; run;
  (destruct (Js.truthyOpt to); run;
   [ destruct (git_show H g [nonNull to ++ ":" ++ file f] w1) as [[after|e'] w2]
   | destruct (fs_readFile H (path_join P [cwdPath; file f]) w1)
       as [[after|e'] w2] ];
   run; do 3 eexists; (split; [reflexivity|]); repeat split;
   intros side Hfail; destruct side; cbn [contentOf content_before content_after];
   try reflexivity;
   repeat match goal with
          | Hf : _ /\ _ |- _ => destruct Hf
          | Hf : exists _, _ |- _ => destruct Hf
          end;
   discriminate).
Qed.

Lemma diffFiles_cons (f : DiffFile) (rest : list DiffFile)
    (st st0 st' : Service * Sys World) (record : CheckpointDiff)
    (records : list CheckpointDiff) (fx0 fx : list Effect) :
  diffFile H P g from to cwdPath f st = (Ok record, st0, fx0) ->
  (forall acc, diffFiles H P g from to cwdPath rest acc st0
               = (Ok (acc ++ records)%list, st', fx)) ->
  forall acc, diffFiles H P g from to cwdPath (f :: rest) acc st
              = (Ok (acc ++ record :: records)%list, st', (fx0 ++ fx)%list).
Proof.
  intros Hone Hrest acc. cbn [diffFiles]. unfold bind. rewrite Hone, Hrest.
  rewrite <- app_assoc. reflexivity.
Qed.

Lemma diffFiles_run (fs : list DiffFile) :
  forall st : Service * Sys World,
  exists records st' fx,
    (forall acc, diffFiles H P g from to cwdPath fs acc st
                 = (Ok (acc ++ records)%list, st', fx))
    /\ map paths_relative records = map file fs.
Proof.
  induction fs as [|f rest IH]; intros st.
  - exists [], st, []. split; [|reflexivity].
    intros acc. cbn [diffFiles]. unfold ret. rewrite app_nil_r. reflexivity.
  - destruct (diffFile_run f st) as (record & st0 & fx0 & Hone & _ & Hrel & _).
    destruct (IH st0) as (records & st' & fx & Hrest & Hmap).
    exists (record :: records), st', (fx0 ++ fx)%list. split.
    + intros acc. eapply diffFiles_cons; eassumption.
    + cbn [map]. rewrite Hrel, Hmap. reflexivity.
Qed.

(** The loop never throws, whatever the reads do. *)
Lemma diffFiles_neverThrows (fs : list DiffFile) (acc : list CheckpointDiff) :
  neverThrows (diffFiles H P g from to cwdPath fs acc).
Proof.
  intros st. destruct (diffFiles_run fs st) as (records & st' & fx & Hrun & _).
  exists (acc ++ records)%list. rewrite Hrun. reflexivity.
Qed.

(** C9. Take the [i]-th changed file of [getDiff]'s loop and one of its
    reads: the blob at [from], the blob at [to], or the live file. If that
    read throws when the loop reaches the file, the loop still returns, with
    one record per changed file in order; the record of the [i]-th file is
    among them and holds the empty string on the side the read was to
    fill. *)
Theorem getDiff_read_failure_degrades
    (fs : list DiffFile) (st : Service * Sys World) (i : nat) (f : DiffFile)
    (side : Read) :
  nth_error fs i = Some f ->
  readFails H P side g from to cwdPath f
            (stateOf (diffFiles H P g from to cwdPath (firstn i fs) [] st)) ->
  exists records st' fx record,
    diffFiles H P g from to cwdPath fs [] st = (Ok records, st', fx)
    /\ map paths_relative records = map file fs
    /\ nth_error records i = Some record
    /\ paths_relative record = file f
    /\ contentOf side record = "".
Proof.
  revert st i. induction fs as [|f0 rest IH]; intros st i Hnth Hfail.
  - destruct i; discriminate Hnth.
  - destruct (diffFile_run f0 st)
      as (record0 & st0 & fx0 & Hone & _ & Hrel0 & _ & Hside0).
    destruct (diffFiles_run rest st0) as (records & st' & fx & Hrest & Hmap).
    assert (Hall : diffFiles H P g from to cwdPath (f0 :: rest) [] st
                   = (Ok (record0 :: records), st', (fx0 ++ fx)%list))
      by exact (@diffFiles_cons f0 rest st st0 st' record0 records fx0 fx
                                Hone Hrest []).
    destruct i as [|j].
    + injection Hnth as <-. cbn [firstn diffFiles] in Hfail.
      exists (record0 :: records), st', (fx0 ++ fx)%list, record0.
      repeat split; try assumption.
      * cbn [map]. rewrite Hrel0, Hmap. reflexivity.
      * apply Hside0. exact Hfail.
    + cbn [nth_error] in Hnth. cbn [firstn] in Hfail.
      destruct (diffFiles_run (firstn j rest) st0)
        as (pre & stj & fxj & Hpre & _).
      assert (Hprefix : diffFiles H P g from to cwdPath (f0 :: firstn j rest) [] st
                        = (Ok (record0 :: pre), stj, (fx0 ++ fxj)%list))
        by exact (@diffFiles_cons f0 (firstn j rest) st st0 stj record0 pre
                                  fx0 fxj Hone Hpre []).
      rewrite Hprefix in Hfail.
      assert (Hstate : stateOf (diffFiles H P g from to cwdPath (firstn j rest) [] st0)
                       = stj) by (rewrite Hpre; reflexivity).
      unfold stateOf in Hfail at 1. cbn [fst snd] in Hfail.
      rewrite <- Hstate in Hfail.
      destruct (IH st0 j Hnth Hfail)
        as (records' & st'' & fx' & record & Hrun & _ & Hrec & Hrel & Hempty).
      rewrite (Hrest []) in Hrun. cbn [app] in Hrun.
      injection Hrun as <- _ _.
      exists (record0 :: records), st', (fx0 ++ fx)%list, record.
      repeat split; try assumption.
      cbn [map]. rewrite Hrel0, Hmap. reflexivity.
Qed.

End Diff.

(** ** The theorems on concrete runs *)

(** Each run below uses the scripted host of [Demo]: a task store in
    [/store], the workspace [/ws], and a clock that ticks once per
    [Date.now()]. *)

Lemma saveCheckpoint_appends_and_emits_witness :
  exists fx,
    saveCheckpoint (Demo.host Demo.edited) Demo.platform "edit 2" None
                   (Demo.opened ["c1"], Demo.start)
    = (Ok (Some (mkCommitResult "c2" "master")),
       (Demo.opened ["c1"; "c2"], mkSys 2 []), fx)
    /\ emitted fx = [EvCheckpoint "c1" "c2" 1 false].
Proof.
  apply (@saveCheckpoint_appends_and_emits Z (Demo.host Demo.edited) Demo.platform
           (Demo.opened ["c1"]) Demo.start Demo.store "b0" "edit 2" None
           0 1 1 1 1 2 (Ok tt) (mkCommitResult "c2" "master"));
    try reflexivity.
  discriminate.
Defined.

Lemma saveCheckpoint_no_changes_witness :
  exists fx,
    Demo.savedUnchanged
    = (Ok None, (Demo.opened ["c1"; "c1"], mkSys 2 []), fx)
    /\ emitted fx = [].
Proof.
  apply (@saveCheckpoint_no_changes Z (Demo.host Demo.calm) Demo.platform
           (Demo.opened ["c1"]) Demo.start Demo.store "b0" "no edit" None
           0 1 1 1 1 2 (Ok tt) (mkCommitResult "" "master"));
    reflexivity.
Defined.

Lemma saveCheckpoint_unchanged_tree_counterexample :
  git_commit (Demo.host Demo.calm) Demo.store "no edit" false 1
  = (Ok (mkCommitResult "" "master"), 1)
  /\ resultOf Demo.savedUnchanged = Ok None
  /\ filter isCheckpointEvent (emitted (effectsOf Demo.savedUnchanged)) = []
  /\ length (_checkpoints (fst (stateOf Demo.savedUnchanged)))
     <> length (_checkpoints (Demo.opened ["c1"])).
Proof. repeat split. vm_compute. discriminate. Qed.


(** The same failing commit on an instance nobody listens to: the caller
    gets what [emit] throws, and no event is delivered. *)
Example saveCheckpoint_commit_failure_unheard :
  resultOf (saveCheckpoint (Demo.host Demo.commitFails) Demo.platform "edit 2" None
                           (Demo.opened ["c1"], Demo.start))
  = Throw (ThrownError (mkError
      "Unhandled error. ({ type: 'error', error: Error: fatal: unable to write new index file })"))
  /\ emitted (effectsOf (saveCheckpoint (Demo.host Demo.commitFails) Demo.platform
                                        "edit 2" None
                                        (Demo.opened ["c1"], Demo.start)))
     = []
  /\ _checkpoints (fst (stateOf (saveCheckpoint (Demo.host Demo.commitFails)
                                                Demo.platform "edit 2" None
                                                (Demo.opened ["c1"], Demo.start))))
     = ["c1"].
Proof. repeat split. Qed.



Lemma restoreCheckpoint_unknown_hash_witness :
  fst (stateOf (restoreCheckpoint (Demo.host Demo.calm) Demo.platform "b0"
                  (Demo.opened ["c1"; "c2"], Demo.start)))
  = Demo.opened ["c1"; "c2"]
  /\ _checkpoints
       (fst (stateOf (restoreCheckpoint (Demo.host Demo.calm) Demo.platform "b0"
                        (Demo.opened ["c1"; "c2"], Demo.start))))
     = ["c1"; "c2"].
Proof.
  apply (@restoreCheckpoint_unknown_hash Z (Demo.host Demo.calm) Demo.platform
           (Demo.opened ["c1"; "c2"]) Demo.start "b0").
  intros [Heq|[Heq|[]]]; discriminate Heq.
Defined.

Lemma constructor_rejects_protected_path_witness :
  exists (y' : Sys Z) (fx : list Effect),
    constructor Demo.platform "task" "/store" "/home/u/Desktop" Demo.start
    = (Throw (ThrownError (mkError "Cannot use checkpoints in /home/u/Desktop")),
       y', fx)
    /\ world y' = 0
    /\ (forall c, ~ In (FxCall c) fx)
    /\ forallb (fun e => negb (isMutation e)) fx = true.
Proof.
  apply (@constructor_rejects_protected_path Z Demo.platform "task" "/store"
           "/home/u/Desktop" Demo.start).
  right. left. reflexivity.
Defined.

Lemma initShadowGit_rejects_nested_repository_witness :
  exists (shown : list string) (fx : list Effect),
    initShadowGit (Demo.host Demo.nested) Demo.platform None
                  (Demo.fresh, Demo.start)
    = (Throw (nestedRepositoryError "sub"), (Demo.fresh, mkSys 0 shown), fx)
    /\ isInitialized Demo.fresh = false
    /\ forallb (fun e => negb (isMutation e)) fx = true.
Proof.
  apply (@initShadowGit_rejects_nested_repository Z (Demo.host Demo.nested)
           Demo.platform None Demo.fresh Demo.start
           [mkRgItem "file" ".git/HEAD"; mkRgItem "file" "sub/.git/HEAD"] 0
           (mkRgItem "file" "sub/.git/HEAD") []); try reflexivity.
  discriminate.
Defined.

Lemma initShadowGit_survives_scan_failure_witness :
  exists (scan rest : list Effect),
    getNestedGitRepository (Demo.host Demo.scanFails) Demo.platform
                           (Demo.fresh, Demo.start)
    = (Ok None, (Demo.fresh, mkSys 0 []), scan)
    /\ initShadowGit (Demo.host Demo.scanFails) Demo.platform None
                     (Demo.fresh, Demo.start)
       = (Ok (mkInitResult true 1),
          (mkService "task" "/store" "/ws" [] (Some "") "/store/.git"
                     (Some Demo.store) None, mkSys 2 []),
          scan ++ FxCall (CMkdir "/store") :: rest)%list
    /\ effectsOf (openShadowRepository (Demo.host Demo.scanFails) Demo.platform
                    None (Demo.fresh, mkSys 0 []))
       = FxCall (CMkdir "/store") :: rest.
Proof.
  apply (@initShadowGit_survives_scan_failure Z (Demo.host Demo.scanFails)
           Demo.platform None Demo.fresh Demo.start
           (ThrownError (mkError "spawn rg ENOENT")) 0); reflexivity.
Defined.

Lemma initShadowGit_second_call_throws_witness :
  initShadowGit (Demo.host Demo.calm) Demo.platform None
    (performAll (Demo.host Demo.calm) Demo.platform
       [ReqSave "edit 1" None; ReqRestore "b0"] Demo.initialized)
  = (Throw alreadyInitialized,
     performAll (Demo.host Demo.calm) Demo.platform
       [ReqSave "edit 1" None; ReqRestore "b0"] Demo.initialized,
     []).
Proof.
  eapply (@initShadowGit_second_call_throws Z (Demo.host Demo.calm) Demo.platform
            None None (Demo.fresh, Demo.start) Demo.initialized
            (mkInitResult true 1) _ [ReqSave "edit 1" None; ReqRestore "b0"]).
  vm_compute. reflexivity.
Defined.

Lemma getDiff_read_failure_degrades_witness :
  exists records st' fx record,
    diffFiles (Demo.host Demo.blobMissing) Demo.platform Demo.store "b0" None "/ws"
              [mkDiffFile "b.txt"; mkDiffFile "a.txt"] []
              (Demo.opened ["c1"], Demo.start)
    = (Ok records, st', fx)
    /\ map paths_relative records = ["b.txt"; "a.txt"]
    /\ nth_error records 1 = Some record
    /\ paths_relative record = "a.txt"
    /\ content_before record = "".
Proof.
  apply (@getDiff_read_failure_degrades Z (Demo.host Demo.blobMissing)
           Demo.platform Demo.store "b0" None "/ws"
           [mkDiffFile "b.txt"; mkDiffFile "a.txt"]
           (Demo.opened ["c1"], Demo.start) 1%nat (mkDiffFile "a.txt") BeforeBlob).
  - reflexivity.
  - exists (ThrownError (mkError "fatal: path 'a.txt' does not exist in 'b0'")).
    reflexivity.
Defined.

(** ** Exploring every path of a method *)

(** Split on the next host call whose answer decides how the run goes on. *)
Ltac next_call :=
  match goal with
  | |- context [match ?X with pair _ _ => _ end] =>
      lazymatch X with
      | context [match _ with pair _ _ => _ end] => fail
      | _ => destruct X as [? ?] eqn:?
      end
  end.

Ltac step :=
  first
    [ match goal with
      | |- context [if ?b then _ else _] => destruct b eqn:?
      end
    | next_call
    | match goal with
      | |- context [match listenerCount ?h ?event ?w with _ => _ end] =>
          destruct (listenerCount h event w) eqn:?
      end ];
  repeat match goal with o : outcome _ |- _ => destruct o end;
  run.

Lemma calls_app (a b : list Effect) : calls (a ++ b) = (calls a ++ calls b)%list.
Proof.
  induction a as [|fx a IH]; [reflexivity|].
  destruct fx; cbn [app calls]; rewrite IH; reflexivity.
Qed.

Lemma emitted_app (a b : list Effect) :
  emitted (a ++ b) = (emitted a ++ emitted b)%list.
Proof.
  induction a as [|fx a IH]; [reflexivity|].
  destruct fx; cbn [app emitted]; rewrite IH; reflexivity.
Qed.

Lemma ends_with_cons {A : Type} (x z : A) (l : list A) :
  (exists before, l = (before ++ [z])%list) ->
  exists before, x :: l = (before ++ [z])%list.
Proof. intros (before & ->). exists (x :: before). reflexivity. Qed.
(** ** Calls on an instance that is not initialized, and failed restores *)

Section Uninitialized.

Context {World : Type} (H : Host World) (P : Platform).

(** [saveCheckpoint] on an instance that was never initialized makes no
    call outside the process and leaves the instance as it was. With a
    listener registered for [error], it emits the error "Shadow git repo not
    initialized" and throws it; with none, as on a new instance, nothing is
    delivered and the caller gets the [ERR_UNHANDLED_ERROR] of [emit]. *)
Theorem saveCheckpoint_requires_init
    (msg : string) (options : option SaveOptions) (s : Service) (y : Sys World) :
  git s = None ->
  exists fx,
    saveCheckpoint H P msg options (s, y)
    = match listenerCount H "error" (world y) with
      | O => (Throw (unhandledError P (mkError "Shadow git repo not initialized")),
              (s, y), fx)
      | S _ => (Throw notInitialized,
                (s, mkSys (delivered H (EvError (mkError "Shadow git repo not initialized"))
                                     (world y))
                          (warningsShown y)),
                fx)
      end
    /\ emitted fx = match listenerCount H "error" (world y) with
                    | O => []
                    | S _ => [EvError (mkError "Shadow git repo not initialized")]
                    end
    /\ forallb (fun e => negb (isCall e)) fx = true.
Proof.
  intros Hfresh. unfold saveCheckpoint. run. rewrite Hfresh. run.
  destruct (listenerCount H "error" (world y)) as [|n]; eexists; repeat split.
Qed.

(** [restoreCheckpoint] on an instance that was never initialized does the
    same: nothing is cleaned or reset, and the error is emitted and thrown
    when [error] has a listener, while [emit] throws when it has none. *)
Theorem restoreCheckpoint_requires_init
    (commitHash : string) (s : Service) (y : Sys World) :
  git s = None ->
  exists fx,
    restoreCheckpoint H P commitHash (s, y)
    = match listenerCount H "error" (world y) with
      | O => (Throw (unhandledError P (mkError "Shadow git repo not initialized")),
              (s, y), fx)
      | S _ => (Throw notInitialized,
                (s, mkSys (delivered H (EvError (mkError "Shadow git repo not initialized"))
                                     (world y))
                          (warningsShown y)),
                fx)
      end
    /\ emitted fx = match listenerCount H "error" (world y) with
                    | O => []
                    | S _ => [EvError (mkError "Shadow git repo not initialized")]
                    end
    /\ forallb (fun e => negb (isCall e)) fx = true.
Proof.
  intros Hfresh. unfold restoreCheckpoint. run. rewrite Hfresh. run.
  destruct (listenerCount H "error" (world y)) as [|n]; eexists; repeat split.
Qed.

(** [getDiff] on an instance that was never initialized throws the same
    error, but silently: no log line, no event, no call. *)
Theorem getDiff_requires_init
    (from to : option string) (s : Service) (y : Sys World) :
  git s = None ->
  getDiff H P from to (s, y) = (Throw notInitialized, (s, y), []).
Proof.
  intros Hfresh. unfold getDiff. run. rewrite Hfresh. run. reflexivity.
Qed.

(** When the clean or the hard reset fails, [restoreCheckpoint] leaves the
    instance, hence the checkpoint sequence, as it was, and after a failed
    clean no reset is tried. With a listener registered for [error], one
    error event is emitted and the failure is rethrown as an [Error]; with
    none, nothing is delivered and the caller gets the
    [ERR_UNHANDLED_ERROR] of [emit]. *)
Theorem restoreCheckpoint_failure
    (commitHash : string) (s : Service) (y : Sys World) (g : SimpleGit)
    (t0 : Z) (w0 w1 wf : World) (cleaned : outcome unit) (e : thrown) :
  git s = Some g ->
  Date_now H (world y) = (t0, w0) ->
  git_clean H g "f" ["-d"; "-f"] w0 = (cleaned, w1) ->
  (cleaned = Throw e /\ wf = w1
   \/ cleaned = Ok tt /\ git_reset H g ["--hard"; commitHash] w1 = (Throw e, wf)) ->
  exists fx,
    restoreCheckpoint H P commitHash (s, y)
    = match listenerCount H "error" wf with
      | O => (Throw (unhandledError P (toError e)),
              (s, mkSys wf (warningsShown y)), fx)
      | S _ => (Throw (ThrownError (toError e)),
                (s, mkSys (delivered H (EvError (toError e)) wf) (warningsShown y)),
                fx)
      end
    /\ emitted fx = match listenerCount H "error" wf with
                    | O => []
                    | S _ => [EvError (toError e)]
                    end
    /\ (cleaned = Throw e ->
        forallb (fun fx => match fx with FxCall (CGitReset _ _) => false | _ => true end)
                fx = true).
Proof.
  intros Hg Ht0 Hclean [[Hfail ->] | [Hok Hreset]]; subst cleaned;
    unfold restoreCheckpoint; run; rewrite Hg; run; rewrite Ht0; run;
    rewrite Hclean; run.
  - destruct (listenerCount H "error" w1) as [|n]; eexists; repeat split.
  - rewrite Hreset. run.
    destruct (listenerCount H "error" wf) as [|n]; eexists;
      (split; [reflexivity|]); (split; [reflexivity|]);
      intros Habs; discriminate Habs.
Qed.

End Uninitialized.
(** ** How saves and restores move the checkpoint sequence *)

Section Sequence.

Context {World : Type} (H : Host World) (P : Platform).

(** However it ends, [saveCheckpoint] only ever appends to the checkpoint
    sequence, and at most one hash. *)
Theorem saveCheckpoint_extends_sequence
    (msg : string) (options : option SaveOptions) (st : Service * Sys World) :
  exists tail,
    _checkpoints (fst (stateOf (saveCheckpoint H P msg options st)))
    = (_checkpoints (fst st) ++ tail)%list
    /\ (length tail <= 1)%nat.
Proof.
  unfold saveCheckpoint, stageAll, stateOf. run.
  destruct (git (fst st)) as [g|]; run.
  2:{ heard_or_not; exists []; rewrite app_nil_r; (split; [reflexivity | auto]). }
  repeat step;
    solve [ exists []; rewrite app_nil_r; split; [reflexivity | auto]
          | eexists [_]; split; [reflexivity | auto] ].
Qed.

(** However it ends, [restoreCheckpoint] only ever cuts the checkpoint
    sequence at its end: what remains is a prefix of what was there. *)
Theorem restoreCheckpoint_shrinks_sequence
    (commitHash : string) (st : Service * Sys World) :
  exists dropped,
    _checkpoints (fst st)
    = (_checkpoints (fst (stateOf (restoreCheckpoint H P commitHash st)))
       ++ dropped)%list.
Proof.
  assert (Hslice : exists dropped,
            _checkpoints (fst st)
            = (Js.slice (_checkpoints (fst st)) 0
                        (Js.indexOf commitHash (_checkpoints (fst st)) + 1)
               ++ dropped)%list).
  { unfold Js.slice, Js.relIndex. change (0 <? 0) with false. cbv iota.
    replace (Z.to_nat (Z.min 0 (Z.of_nat (length (_checkpoints (fst st))))))
      with 0%nat by lia.
    cbn [skipn]. eexists. symmetry. apply firstn_skipn. }
  unfold restoreCheckpoint, stateOf. run.
  destruct (git (fst st)) as [g|]; run;
    [| heard_or_not; exists []; rewrite app_nil_r; reflexivity ].
  repeat step;
    solve [ exists []; rewrite app_nil_r; reflexivity
          | cbn [_checkpoints set_checkpoints]; exact Hslice ].
Qed.


Lemma first_occurrence_unique (h : string) (kept kept' later later' : list string) :
  (kept ++ h :: later)%list = (kept' ++ h :: later')%list ->
  ~ In h kept -> ~ In h kept' -> kept = kept' /\ later = later'.
Proof.
  revert kept'. induction kept as [|x kept IH]; intros kept' Heq Hk Hk'.
  - destruct kept' as [|x' kept'].
    + injection Heq as ->. split; reflexivity.
    + injection Heq as <- _. exfalso. apply Hk'. left. reflexivity.
  - destruct kept' as [|x' kept'].
    + injection Heq as -> _. exfalso. apply Hk. left. reflexivity.
    + injection Heq as <- Heq.
      destruct (IH kept' Heq) as (-> & ->).
      * intro Hin. apply Hk. right. exact Hin.
      * intro Hin. apply Hk'. right. exact Hin.
      * split; reflexivity.
Qed.

(** What a restore that returns has done to the instance. *)
Lemma restoreCheckpoint_returned
    (commitHash : string) (s s' : Service) (y y' : Sys World) (fx : list Effect) :
  restoreCheckpoint H P commitHash (s, y) = (Ok tt, (s', y'), fx) ->
  (exists g, git s = Some g)
  /\ (~ In commitHash (_checkpoints s) /\ s' = s
      \/ exists kept later,
           _checkpoints s = (kept ++ commitHash :: later)%list
           /\ ~ In commitHash kept
           /\ s' = set_checkpoints (kept ++ [commitHash]) s).
Proof.
  unfold restoreCheckpoint. run.
  destruct (git s) as [g|] eqn:Hg; run; [|heard_or_not; discriminate].
  destruct (in_dec string_dec commitHash (_checkpoints s)) as [Hin|Hnot].
  - destruct (indexOfFrom_first commitHash (_checkpoints s) 0 Hin)
      as (kept & later & Hsplit & Hfirst & Hidx).
    assert (Hslice : Js.slice (_checkpoints s) 0
                       (Js.indexOf commitHash (_checkpoints s) + 1)
                     = (kept ++ [commitHash])%list).
    { unfold Js.indexOf. rewrite Hidx, Hsplit, Z.add_0_l. apply slice_upto. }
    repeat step; try discriminate;
      intros Heq; injection Heq as <- _ _;
      (split; [eexists; reflexivity|]); right; exists kept, later.
    + rewrite Hslice. auto.
    + exfalso.
      match goal with
      | Hb : negb (_ =? -1) = false |- _ =>
          apply negb_false_iff, Z.eqb_eq in Hb; unfold Js.indexOf in Hb; lia
      end.
  - repeat step; try discriminate;
      intros Heq; injection Heq as <- _ _;
      (split; [eexists; reflexivity|]); left; auto.
    exfalso.
    match goal with
    | Hb : negb (_ =? -1) = true |- _ =>
        unfold Js.indexOf in Hb; rewrite (indexOfFrom_absent _ _ 0 Hnot) in Hb;
        discriminate Hb
    end.
Qed.

(** Restoring the same checkpoint a second time changes nothing in the
    instance. *)
Theorem restoreCheckpoint_twice
    (commitHash : string) (s s1 s2 : Service) (y y1 y2 : Sys World)
    (fx1 fx2 : list Effect) :
  restoreCheckpoint H P commitHash (s, y) = (Ok tt, (s1, y1), fx1) ->
  restoreCheckpoint H P commitHash (s1, y1) = (Ok tt, (s2, y2), fx2) ->
  s2 = s1.
Proof.
  intros Hfirst Hsecond.
  apply restoreCheckpoint_returned in Hfirst. destruct Hfirst as (_ & Hfirst).
  apply restoreCheckpoint_returned in Hsecond. destruct Hsecond as (_ & Hsecond).
  destruct Hsecond as [(_ & ->) | (kept2 & later2 & Hsplit2 & Hnot2 & ->)];
    [reflexivity|].
  destruct Hfirst as [(Hnot & ->) | (kept & later & Hsplit & Hnot & ->)].
  - exfalso. apply Hnot. rewrite Hsplit2. apply in_or_app. right. left. reflexivity.
  - cbn [_checkpoints set_checkpoints] in Hsplit2.
    destruct (first_occurrence_unique commitHash kept kept2 [] later2 Hsplit2 Hnot Hnot2)
      as (<- & _).
    reflexivity.
Qed.

(** A save that follows a restore starts from the restored checkpoint: the
    new hash is appended right after it, the checkpoints that came later
    are gone, and the event names the restored hash as [fromHash]. *)
Theorem saveCheckpoint_after_restore
    (commitHash msg : string) (options : option SaveOptions)
    (s s1 : Service) (y y1 : Sys World) (fx1 : list Effect)
    (t0 t1 : Z) (w0 w1 w2 w3 : World) (staged : outcome unit)
    (result : CommitResult) (g : SimpleGit) :
  restoreCheckpoint H P commitHash (s, y) = (Ok tt, (s1, y1), fx1) ->
  In commitHash (_checkpoints s) ->
  git s = Some g ->
  Date_now H (world y1) = (t0, w0) ->
  git_add H g "." w0 = (staged, w1) ->
  git_commit H g msg (Js.nullish (optAllowEmpty options) false) w1 = (Ok result, w2) ->
  commit result <> "" ->
  Date_now H w2 = (t1, w3) ->
  exists kept later fx2,
    _checkpoints s = (kept ++ commitHash :: later)%list
    /\ ~ In commitHash kept
    /\ saveCheckpoint H P msg options (s1, y1)
       = (Ok (Some result),
          (set_checkpoints (kept ++ [commitHash; commit result]) s,
           mkSys w3 (warningsShown y1)), fx2)
    /\ emitted fx2
       = [EvCheckpoint commitHash (commit result) (t1 - t0)
                       (Js.nullish (optSuppressMessage options) false)].
Proof.
  intros Hrestore Hin Hg Ht0 Hadd Hcommit Hreal Ht1.
  apply restoreCheckpoint_returned in Hrestore.
  destruct Hrestore as (_ & [(Hnot & _) | (kept & later & Hsplit & Hnot & ->)]);
    [contradiction|].
  exists kept, later. apply truthy_nonempty in Hreal.
  unfold saveCheckpoint, stageAll. run.
  cbn [git set_checkpoints _checkpoints _baseHash]. rewrite Hg. run.
  rewrite Ht0. run. rewrite Hadd.
  destruct staged as [u|e]; run; rewrite Hcommit; run; rewrite Ht1; run;
    rewrite Hreal; run;
    cbn [git set_checkpoints _checkpoints _baseHash taskId checkpointsDir
         workspaceDir dotGitDir shadowGitConfigWorktree];
    rewrite last_element, last_last, <- app_assoc;
    (eexists; repeat split; solve [assumption | reflexivity]).
Qed.

End Sequence.
(** ** The paths of [initShadowGit] *)

Section InitPaths.

Context {World : Type} (H : Host World) (P : Platform).

Lemma showWarning_effects (msg : string) (y : Sys World) :
  exists shown fx,
    showWarning msg y = (Ok tt, mkSys (world y) shown, fx)
    /\ (fx = [] \/ fx = [FxWarning msg]).
Proof.
  unfold showWarning.
  destruct ((Z.of_nat (length (warningsShown y)) <? 5)
            && negb (Js.arrayIncludes msg (warningsShown y)))%bool.
  - eexists _, _. split; [reflexivity | right; reflexivity].
  - exists (warningsShown y), []. destruct y. split; [reflexivity | left; reflexivity].
Qed.

Lemma getNestedGitRepository_scan (s : Service) (y : Sys World) :
  exists (found : option string) (fx : list Effect),
    getNestedGitRepository H P (s, y)
    = (Ok found,
       (s, mkSys (snd (executeRipgrep H (ripgrepArgs (workspaceDir s))
                                      (workspaceDir s) (world y)))
                 (warningsShown y)),
       fx)
    /\ found
       = match fst (executeRipgrep H (ripgrepArgs (workspaceDir s)) (workspaceDir s)
                                   (world y)) with
         | Ok items =>
             match filter isNestedGitHead items with
             | first :: _ =>
                 Some (path_join P [workspaceDir s;
                                    path_dirname P (path_dirname P (rg_path first))])
             | [] => None
             end
         | Throw _ => None
         end
    /\ calls fx = [CRipgrep (ripgrepArgs (workspaceDir s)) (workspaceDir s)]
    /\ emitted fx = [].
Proof.
  unfold getNestedGitRepository. run.
  destruct (executeRipgrep H (ripgrepArgs (workspaceDir s)) (workspaceDir s)
                           (world y)) as [[items|e] w1]; run; cbn [fst snd].
  - destruct (filter isNestedGitHead items) as [|first others]; run;
      do 2 eexists; repeat split.
  - do 2 eexists; repeat split.
Qed.

(** The nested-repository scan never throws and never touches the
    instance: it runs ripgrep once, emits nothing, and answers the parent
    folder of the first nested [.git/HEAD], or nothing when the search
    fails or finds none. *)
Theorem getNestedGitRepository_run (s : Service) (y : Sys World) :
  exists (found : option string) (fx : list Effect),
    getNestedGitRepository H P (s, y)
    = (Ok found,
       (s, mkSys (snd (executeRipgrep H (ripgrepArgs (workspaceDir s))
                                      (workspaceDir s) (world y)))
                 (warningsShown y)),
       fx)
    /\ found
       = match fst (executeRipgrep H (ripgrepArgs (workspaceDir s)) (workspaceDir s)
                                   (world y)) with
         | Ok items =>
             match filter isNestedGitHead items with
             | first :: _ =>
                 Some (path_join P [workspaceDir s;
                                    path_dirname P (path_dirname P (rg_path first))])
             | [] => None
             end
         | Throw _ => None
         end
    /\ calls fx = [CRipgrep (ripgrepArgs (workspaceDir s)) (workspaceDir s)]
    /\ emitted fx = [].
Proof.
  unfold getNestedGitRepository. run.
  destruct (executeRipgrep H (ripgrepArgs (workspaceDir s)) (workspaceDir s)
                           (world y)) as [[items|e] w1]; run; cbn [fst snd].
  - destruct (filter isNestedGitHead items) as [|first others]; run;
      do 2 eexists; repeat split.
  - do 2 eexists; repeat split.
Qed.

(** [initShadowGit] on a fresh instance: the scan, then either the
    nested-repository error or the repository set-up. *)
Lemma initShadowGit_unfold (s : Service) (y : Sys World) :
  git s = None ->
  exists (found : option string) (w1 : World) (scan : list Effect),
    calls scan = [CRipgrep (ripgrepArgs (workspaceDir s)) (workspaceDir s)]
    /\ emitted scan = []
    /\ w1 = snd (executeRipgrep H (ripgrepArgs (workspaceDir s)) (workspaceDir s)
                                (world y))
    /\ found
       = match fst (executeRipgrep H (ripgrepArgs (workspaceDir s)) (workspaceDir s)
                                   (world y)) with
         | Ok items =>
             match filter isNestedGitHead items with
             | first :: _ =>
                 Some (path_join P [workspaceDir s;
                                    path_dirname P (path_dirname P (rg_path first))])
             | [] => None
             end
         | Throw _ => None
         end
    /\ (Js.truthyOpt found = true ->
        forall onInit, exists shown fxw,
          initShadowGit H P onInit (s, y)
          = (Throw (nestedRepositoryError
                      (path_relative P (workspaceDir s) (nonNull found))),
             (s, mkSys w1 shown), (scan ++ fxw)%list)
          /\ calls fxw = [] /\ emitted fxw = [])
    /\ (Js.truthyOpt found = false ->
        forall onInit,
          initShadowGit H P onInit (s, y)
          = (resultOf (openShadowRepository H P onInit (s, mkSys w1 (warningsShown y))),
             stateOf (openShadowRepository H P onInit (s, mkSys w1 (warningsShown y))),
             (scan
              ++ effectsOf (openShadowRepository H P onInit
                              (s, mkSys w1 (warningsShown y))))%list)).
Proof.
  intros Hfresh.
  destruct (getNestedGitRepository_scan s y)
    as (found & scan & Hscan & Hfound & Hcalls & Hquiet).
  exists found,
    (snd (executeRipgrep H (ripgrepArgs (workspaceDir s)) (workspaceDir s) (world y))),
    scan.
  repeat split; try assumption.
  - intros Htruthy onInit. unfold initShadowGit. run. rewrite Hfresh. run.
    rewrite Hscan. run. rewrite Htruthy. run.
    match goal with
    | |- context [showWarning ?m ?y0] =>
        destruct (showWarning_effects m y0) as (shown & fxw & Hw & Hfxw);
        rewrite Hw
    end.
    run. exists shown, (fxw ++ [])%list. split; [reflexivity|].
    rewrite app_nil_r. destruct Hfxw as [-> | ->]; split; reflexivity.
  - intros Hfalsy onInit. unfold initShadowGit. run. rewrite Hfresh. run.
    rewrite Hscan. run. rewrite Hfalsy.
    unfold resultOf, stateOf, effectsOf.
    destruct (openShadowRepository H P onInit _) as [[r0 st0] fx0]. reflexivity.
Qed.

Lemma initShadowGit_returned
    (onInit : option (M (Sys World) unit)) (s s' : Service) (y y' : Sys World)
    (r : InitResult) (fx : list Effect) :
  initShadowGit H P onInit (s, y) = (Ok r, (s', y'), fx) ->
  git s = None
  /\ exists (y1 : Sys World) (scan fx1 : list Effect),
       openShadowRepository H P onInit (s, y1) = (Ok r, (s', y'), fx1)
       /\ fx = (scan ++ fx1)%list
       /\ calls scan = [CRipgrep (ripgrepArgs (workspaceDir s)) (workspaceDir s)]
       /\ emitted scan = []
       /\ warningsShown y1 = warningsShown y.
Proof.
  intros Hrun.
  destruct (git s) as [g|] eqn:Hgit.
  { rewrite initShadowGit_again in Hrun; [discriminate Hrun|].
    unfold isInitialized. cbn [fst]. rewrite Hgit. reflexivity. }
  split; [reflexivity|].
  destruct (@initShadowGit_unfold s y Hgit)
    as (found & w1 & scan & Hcalls & Hquiet & _ & _ & Hnested & Hopen).
  destruct (Js.truthyOpt found).
  - destruct (Hnested eq_refl onInit) as (shown & fxw & Hthrow & _).
    rewrite Hthrow in Hrun. discriminate Hrun.
  - rewrite (Hopen eq_refl onInit) in Hrun. unfold resultOf, stateOf, effectsOf in Hrun.
    destruct (openShadowRepository H P onInit _) as [[r0 st0] fx0] eqn:Hrepo.
    cbn [fst snd] in Hrun. injection Hrun as -> -> <-.
    exists (mkSys w1 (warningsShown y)), scan, fx0. repeat split; assumption.
Qed.

Lemma openShadowRepository_postcondition
    (onInit : option (M (Sys World) unit)) (s s' : Service) (y y' : Sys World)
    (r : InitResult) (fx : list Effect) :
  openShadowRepository H P onInit (s, y) = (Ok r, (s', y'), fx) ->
  git s' = Some (mkSimpleGit (checkpointsDir s))
  /\ hasBaseHash s'
  /\ _checkpoints s' = _checkpoints s
  /\ workspaceDir s' = workspaceDir s
  /\ exists before,
       fx = (before ++ [FxEmit (EvInitialize (workspaceDir s) (_baseHash s')
                                             (init_created r) (init_duration r))])%list.
Proof.
  unfold openShadowRepository, getShadowGitConfigWorktree, writeExcludeFile,
    stageAll. run.
  destruct onInit as [f|]; run.
  all: repeat step; try discriminate.
  all: intros Heq; injection Heq as <- <- <- <-.
  all: cbn [git _baseHash _checkpoints workspaceDir set_git set_baseHash
            set_shadowGitConfigWorktree init_created init_duration].
  all: repeat split; try (eexists; reflexivity).
  all: repeat first [ solve [exists []; reflexivity]
                    | solve [eexists; reflexivity]
                    | apply ends_with_cons ].
Qed.


Lemma openShadowRepository_created
    (s s' : Service) (y y' : Sys World) (r : InitResult) (fx : list Effect) :
  openShadowRepository H P None (s, y) = (Ok r, (s', y'), fx) ->
  init_created r = true ->
  exists (content : string) (base : CommitResult) (staged : outcome unit)
         (wa wb wc : World) (t1 : Z),
    git_add H (mkSimpleGit (checkpointsDir s)) "." wa = (staged, wb)
    /\ git_commit H (mkSimpleGit (checkpointsDir s)) "initial commit" true wb
       = (Ok base, wc)
    /\ Date_now H wc = (t1, world y')
    /\ calls fx
    = [CMkdir (checkpointsDir s);
       CGitVersion (mkSimpleGit (checkpointsDir s));
       CFileExists (dotGitDir s);
       CGitInit (mkSimpleGit (checkpointsDir s));
       CGitAddConfig (mkSimpleGit (checkpointsDir s)) "core.worktree" (workspaceDir s);
       CGitAddConfig (mkSimpleGit (checkpointsDir s)) "commit.gpgSign" "false";
       CGitAddConfig (mkSimpleGit (checkpointsDir s)) "user.name" "Kilo Code";
       CGitAddConfig (mkSimpleGit (checkpointsDir s)) "user.email" "noreply@example.com";
       CMkdir (path_join P [dotGitDir s; "info"]);
       CExcludePatterns (workspaceDir s);
       CWriteFile (path_join P [dotGitDir s; "info"; "exclude"]) content;
       CGitAdd (mkSimpleGit (checkpointsDir s)) ".";
       CGitCommit (mkSimpleGit (checkpointsDir s)) "initial commit" true]
    /\ _baseHash s' = Some (commit base)
    /\ emitted fx = [EvInitialize (workspaceDir s) (Some (commit base)) true
                                  (init_duration r)].
Proof.
  unfold openShadowRepository, getShadowGitConfigWorktree, writeExcludeFile,
    stageAll. run.
  repeat step; try discriminate.
  all: intros Heq; injection Heq as <- <- <- <-.
  all: cbn [init_created]; intros Hcreated; try discriminate Hcreated.
  all: cbn [world]; do 7 eexists.
  all: split; [eassumption|]; split; [eassumption|]; split; [eassumption|].
  all: repeat split.
Qed.

Lemma openShadowRepository_reopened
    (s s' : Service) (y y' : Sys World) (r : InitResult) (fx : list Effect) :
  openShadowRepository H P None (s, y) = (Ok r, (s', y'), fx) ->
  init_created r = false ->
  exists (content head : string) (lookup : list Call) (wr wh : World) (t1 : Z),
    git_revparse H (mkSimpleGit (checkpointsDir s)) ["HEAD"] wr = (Ok head, wh)
    /\ Date_now H wh = (t1, world y')
    /\ calls fx
    = ([CMkdir (checkpointsDir s);
        CGitVersion (mkSimpleGit (checkpointsDir s));
        CFileExists (dotGitDir s)]
       ++ lookup
       ++ [CMkdir (path_join P [dotGitDir s; "info"]);
           CExcludePatterns (workspaceDir s);
           CWriteFile (path_join P [dotGitDir s; "info"; "exclude"]) content;
           CGitRevparse (mkSimpleGit (checkpointsDir s)) ["HEAD"]])%list
    /\ (lookup = []
        \/ lookup = [CGitGetConfig (mkSimpleGit (checkpointsDir s)) "core.worktree"])
    /\ shadowGitConfigWorktree s' = Some (workspaceDir s)
    /\ _baseHash s' = Some head
    /\ emitted fx = [EvInitialize (workspaceDir s) (Some head) false
                                  (init_duration r)].
Proof.
  unfold openShadowRepository, getShadowGitConfigWorktree, writeExcludeFile,
    stageAll. run.
  repeat step; try discriminate.
  all: intros Heq; injection Heq as <- <- <- <-.
  all: cbn [init_created]; intros Hcreated; try discriminate Hcreated.
  all: cbn [shadowGitConfigWorktree set_shadowGitConfigWorktree set_git
            set_baseHash _baseHash workspaceDir dotGitDir] in *.
  all: match goal with
       | Hw : match ?o with Some _ => _ | None => true end = false |- _ =>
           destruct o as [wt|] eqn:Hcached; [|discriminate Hw];
           apply negb_false_iff, String.eqb_eq in Hw; subst wt
       end.
  all: cbn [world]; eexists _, _.
  all: solve
         [ exists []; do 3 eexists;
           (split; [eassumption|]); (split; [eassumption|]); repeat split; auto
         | exists [CGitGetConfig (mkSimpleGit (checkpointsDir s)) "core.worktree"];
           do 3 eexists;
           (split; [eassumption|]); (split; [eassumption|]); repeat split; auto ].
Qed.


Lemma openShadowRepository_failure
    (s s' : Service) (y y' : Sys World) (e : thrown) (fx : list Effect) :
  openShadowRepository H P None (s, y) = (Throw e, (s', y'), fx) ->
  git s' = git s /\ _checkpoints s' = _checkpoints s /\ emitted fx = [].
Proof.
  unfold openShadowRepository, getShadowGitConfigWorktree, writeExcludeFile,
    stageAll. run.
  repeat step; try discriminate.
  all: intros Heq; injection Heq as _ <- _ <-.
  all: repeat split.
Qed.

Lemma openShadowRepository_callback_throws
    (f : M (Sys World) unit) (s s1 : Service) (y y1 y2 : Sys World)
    (r : InitResult) (fx fxf : list Effect) (e : thrown) :
  openShadowRepository H P None (s, y) = (Ok r, (s1, y1), fx) ->
  f y1 = (Throw e, y2, fxf) ->
  openShadowRepository H P (Some f) (s, y)
  = (Throw e, (s1, y2), (removelast fx ++ fxf)%list).
Proof.
  unfold openShadowRepository, getShadowGitConfigWorktree, writeExcludeFile,
    stageAll. run.
  repeat step; try discriminate;
    intros Heq Hf; injection Heq as <- <- <- <-;
    rewrite Hf in *;
    try match goal with
        | Hx : (Throw _, _, _) = (Ok _, _, _) |- _ => discriminate Hx
        end;
    match goal with
    | Hx : (Throw _, _, _) = (Throw _, _, _) |- _ => injection Hx as <- <- <-
    end;
    reflexivity.
Qed.


Lemma removelast_snoc_app {A : Type} (a b : list A) (z : A) :
  removelast (a ++ b ++ [z]) = (a ++ b)%list.
Proof. rewrite app_assoc. apply removelast_last. Qed.

(** An [initShadowGit] that returns was run on a fresh instance and leaves
    it initialized on the checkpoints directory, with a base hash, the
    same workspace and checkpoint sequence; its last effect is the
    [initialize] event, which carries that base hash and the result. *)
Theorem initShadowGit_postcondition
    (onInit : option (M (Sys World) unit)) (s s' : Service) (y y' : Sys World)
    (r : InitResult) (fx : list Effect) :
  initShadowGit H P onInit (s, y) = (Ok r, (s', y'), fx) ->
  git s = None
  /\ git s' = Some (mkSimpleGit (checkpointsDir s))
  /\ hasBaseHash s'
  /\ _checkpoints s' = _checkpoints s
  /\ workspaceDir s' = workspaceDir s
  /\ exists before,
       fx = (before ++ [FxEmit (EvInitialize (workspaceDir s) (_baseHash s')
                                             (init_created r) (init_duration r))])%list.
Proof.
  intros Hrun. apply initShadowGit_returned in Hrun.
  destruct Hrun as (Hgit & y1 & scan & fx1 & Hopen & -> & _).
  apply openShadowRepository_postcondition in Hopen.
  destruct Hopen as (Hg & Hb & Hc & Hw & before & ->).
  repeat split; try assumption.
  exists (scan ++ before)%list. rewrite app_assoc. reflexivity.
Qed.

(** Creating the shadow repository: the exact calls, in order. The
    worktree is bound to the workspace, signing is off, the identity is
    "Kilo Code", and the base hash is that of an initial commit that is
    allowed to be empty. *)
Theorem initShadowGit_first_creation
    (s s' : Service) (y y' : Sys World) (r : InitResult) (fx : list Effect) :
  initShadowGit H P None (s, y) = (Ok r, (s', y'), fx) ->
  init_created r = true ->
  exists (content : string) (base : CommitResult) (staged : outcome unit)
         (wa wb wc : World) (t1 : Z),
    git_add H (mkSimpleGit (checkpointsDir s)) "." wa = (staged, wb)
    /\ git_commit H (mkSimpleGit (checkpointsDir s)) "initial commit" true wb
       = (Ok base, wc)
    /\ Date_now H wc = (t1, world y')
    /\ calls fx
    = [CRipgrep (ripgrepArgs (workspaceDir s)) (workspaceDir s);
       CMkdir (checkpointsDir s);
       CGitVersion (mkSimpleGit (checkpointsDir s));
       CFileExists (dotGitDir s);
       CGitInit (mkSimpleGit (checkpointsDir s));
       CGitAddConfig (mkSimpleGit (checkpointsDir s)) "core.worktree" (workspaceDir s);
       CGitAddConfig (mkSimpleGit (checkpointsDir s)) "commit.gpgSign" "false";
       CGitAddConfig (mkSimpleGit (checkpointsDir s)) "user.name" "Kilo Code";
       CGitAddConfig (mkSimpleGit (checkpointsDir s)) "user.email" "noreply@example.com";
       CMkdir (path_join P [dotGitDir s; "info"]);
       CExcludePatterns (workspaceDir s);
       CWriteFile (path_join P [dotGitDir s; "info"; "exclude"]) content;
       CGitAdd (mkSimpleGit (checkpointsDir s)) ".";
       CGitCommit (mkSimpleGit (checkpointsDir s)) "initial commit" true]
    /\ _baseHash s' = Some (commit base)
    /\ emitted fx = [EvInitialize (workspaceDir s) (Some (commit base)) true
                                  (init_duration r)].
Proof.
  intros Hrun Hcreated. apply initShadowGit_returned in Hrun.
  destruct Hrun as (Hgit & y1 & scan & fx1 & Hopen & -> & Hcalls & Hquiet & _).
  eapply openShadowRepository_created in Hopen; [|exact Hcreated].
  destruct Hopen
    as (content & base & staged & wa & wb & wc & t1 & Hadd & Hcommit & Hnow
        & Hc & Hb & He).
  exists content, base, staged, wa, wb, wc, t1.
  rewrite calls_app, emitted_app, Hcalls, Hquiet, Hc, He.
  repeat split; assumption.
Qed.

(** Reopening an existing shadow repository: nothing is initialized,
    configured or committed; the worktree recorded in the repository is the
    workspace, and the base hash is the repository's [HEAD]. *)
Theorem initShadowGit_reopen
    (s s' : Service) (y y' : Sys World) (r : InitResult) (fx : list Effect) :
  initShadowGit H P None (s, y) = (Ok r, (s', y'), fx) ->
  init_created r = false ->
  exists (content head : string) (lookup : list Call) (wr wh : World) (t1 : Z),
    git_revparse H (mkSimpleGit (checkpointsDir s)) ["HEAD"] wr = (Ok head, wh)
    /\ Date_now H wh = (t1, world y')
    /\ calls fx
    = ([CRipgrep (ripgrepArgs (workspaceDir s)) (workspaceDir s);
        CMkdir (checkpointsDir s);
        CGitVersion (mkSimpleGit (checkpointsDir s));
        CFileExists (dotGitDir s)]
       ++ lookup
       ++ [CMkdir (path_join P [dotGitDir s; "info"]);
           CExcludePatterns (workspaceDir s);
           CWriteFile (path_join P [dotGitDir s; "info"; "exclude"]) content;
           CGitRevparse (mkSimpleGit (checkpointsDir s)) ["HEAD"]])%list
    /\ (lookup = []
        \/ lookup = [CGitGetConfig (mkSimpleGit (checkpointsDir s)) "core.worktree"])
    /\ shadowGitConfigWorktree s' = Some (workspaceDir s)
    /\ _baseHash s' = Some head
    /\ emitted fx = [EvInitialize (workspaceDir s) (Some head) false
                                  (init_duration r)].
Proof.
  intros Hrun Hcreated. apply initShadowGit_returned in Hrun.
  destruct Hrun as (Hgit & y1 & scan & fx1 & Hopen & -> & Hcalls & Hquiet & _).
  eapply openShadowRepository_reopened in Hopen; [|exact Hcreated].
  destruct Hopen
    as (content & head & lookup & wr & wh & t1 & Hrev & Hnow & Hc & Hl & Hw & Hb & He).
  exists content, head, lookup, wr, wh, t1.
  rewrite calls_app, emitted_app, Hcalls, Hquiet, Hc, He.
  repeat split; assumption.
Qed.

(** An [initShadowGit] that throws leaves the instance as uninitialized as
    it found it and emits no event. *)
Theorem initShadowGit_failure
    (s s' : Service) (y y' : Sys World) (e : thrown) (fx : list Effect) :
  initShadowGit H P None (s, y) = (Throw e, (s', y'), fx) ->
  git s' = git s /\ _checkpoints s' = _checkpoints s /\ emitted fx = [].
Proof.
  intros Hrun.
  destruct (git s) as [g|] eqn:Hgit.
  { rewrite initShadowGit_again in Hrun
      by (unfold isInitialized; cbn [fst]; rewrite Hgit; reflexivity).
    injection Hrun as _ <- _ <-. repeat split; congruence. }
  destruct (@initShadowGit_unfold s y Hgit)
    as (found & w1 & scan & Hcalls & Hquiet & _ & _ & Hnested & Hopen).
  destruct (Js.truthyOpt found).
  - destruct (Hnested eq_refl None) as (shown & fxw & Hthrow & _ & Hfxw).
    rewrite Hthrow in Hrun. injection Hrun as _ <- _ <-.
    rewrite emitted_app, Hquiet, Hfxw. repeat split; congruence.
  - rewrite (Hopen eq_refl None) in Hrun. unfold resultOf, stateOf, effectsOf in Hrun.
    destruct (openShadowRepository H P None _) as [[r0 [s0 y0]] fx0] eqn:Hrepo.
    cbn [fst snd] in Hrun. injection Hrun as -> -> -> <-.
    apply openShadowRepository_failure in Hrepo.
    destruct Hrepo as (Hg & Hc & He).
    rewrite emitted_app, Hquiet, He, Hg, Hgit. repeat split. exact Hc.
Qed.

(** When the [onInit] callback throws, [initShadowGit] throws the same and
    the [initialize] event is not emitted; but the instance is already
    initialized by then. *)
Theorem initShadowGit_callback_throws
    (f : M (Sys World) unit) (s s1 : Service) (y y1 y2 : Sys World)
    (r : InitResult) (fx fxf : list Effect) (e : thrown) :
  initShadowGit H P None (s, y) = (Ok r, (s1, y1), fx) ->
  f y1 = (Throw e, y2, fxf) ->
  initShadowGit H P (Some f) (s, y)
  = (Throw e, (s1, y2), (removelast fx ++ fxf)%list)
  /\ isInitialized s1 = true.
Proof.
  intros Hrun Hf.
  assert (Hinit : isInitialized s1 = true)
    by exact (@ensures_initialized_initShadowGit _ H P None (s, y) r (s1, y1) fx Hrun).
  split; [|exact Hinit].
  assert (Hgit : git s = None).
  { destruct (git s) as [g|] eqn:Hgit; [|reflexivity].
    rewrite initShadowGit_again in Hrun
      by (unfold isInitialized; cbn [fst]; rewrite Hgit; reflexivity).
    discriminate Hrun. }
  destruct (@initShadowGit_unfold s y Hgit)
    as (found & w1 & scan & _ & _ & _ & _ & Hnested & Hopen).
  destruct (Js.truthyOpt found).
  - destruct (Hnested eq_refl None) as (shown & fxw & Hthrow & _).
    rewrite Hthrow in Hrun. discriminate Hrun.
  - rewrite (Hopen eq_refl None) in Hrun. rewrite (Hopen eq_refl (Some f)).
    unfold resultOf, stateOf, effectsOf in *.
    destruct (openShadowRepository H P None _) as [[r0 [s0 y0]] fx0] eqn:Hrepo.
    cbn [fst snd] in Hrun. injection Hrun as -> -> -> <-.
    erewrite openShadowRepository_callback_throws; [|exact Hrepo|exact Hf].
    cbn [fst snd].
    apply openShadowRepository_postcondition in Hrepo.
    destruct Hrepo as (_ & _ & _ & _ & before & ->).
    rewrite removelast_snoc_app, removelast_last, app_assoc. reflexivity.
Qed.




End InitPaths.
(** ** The warning budget *)

Section Warnings.

Context {World : Type}.

Lemma showWarnings_run (msgs : list string) :
  forall y : Sys World,
    NoDup (warningsShown y) ->
    exists fx,
      showWarnings msgs y
      = (Ok tt, mkSys (world y) (warningsShown y ++ warnings fx)%list, fx)
      /\ NoDup (warningsShown y ++ warnings fx)%list
      /\ incl (warnings fx) msgs
      /\ (length (warningsShown y ++ warnings fx)
          <= Nat.max 5 (length (warningsShown y)))%nat.
Proof.
  induction msgs as [|msg rest IH]; intros y Hnodup.
  - exists []. cbn [showWarnings warnings]. unfold ret. rewrite app_nil_r.
    destruct y as [w shown]. repeat split; auto. intros x []. cbn [warningsShown]. lia.
  - cbn [showWarnings]. unfold bind, showWarning.
    destruct (Z.of_nat (length (warningsShown y)) <? 5) eqn:Hroom;
      [destruct (Js.arrayIncludes msg (warningsShown y)) eqn:Hseen|];
      cbn [andb negb].
    + destruct (IH y Hnodup) as (fx & Hrun & Hnd & Hincl & Hlen).
      rewrite Hrun. exists fx. repeat split; auto.
      intros x Hx. right. apply Hincl, Hx.
    + assert (Hnew : NoDup (warningsShown y ++ [msg])%list).
      { apply NoDup_app; [exact Hnodup | repeat constructor; intros [] | ].
        intros x Hx [<-|[]].
        apply arrayIncludes_In in Hx. congruence. }
      destruct (IH (mkSys (world y) (warningsShown y ++ [msg])%list) Hnew)
        as (fx & Hrun & Hnd & Hincl & Hlen).
      rewrite Hrun. cbn [world warningsShown] in *.
      exists (FxWarning msg :: fx). cbn [app warnings].
      rewrite <- app_assoc in *. cbn [app] in *.
      repeat split; auto.
      * intros x [<-|Hx]; [left; reflexivity | right; apply Hincl, Hx].
      * apply Z.ltb_lt in Hroom. rewrite !length_app in *. cbn [length] in *. lia.
    + destruct (IH y Hnodup) as (fx & Hrun & Hnd & Hincl & Hlen).
      rewrite Hrun. exists fx. repeat split; auto.
      intros x Hx. right. apply Hincl, Hx.
Qed.

(** Starting from the empty set the module is loaded with, at most five
    warnings are ever shown, no message twice, and only messages asked for. *)
Theorem showWarning_budget (msgs : list string) (w : World) :
  (length (warnings (effectsOf (showWarnings msgs (mkSys w [])))) <= 5)%nat
  /\ NoDup (warnings (effectsOf (showWarnings msgs (mkSys w []))))
  /\ incl (warnings (effectsOf (showWarnings msgs (mkSys w [])))) msgs
  /\ resultOf (showWarnings msgs (mkSys w [])) = Ok tt
  /\ world (stateOf (showWarnings msgs (mkSys w []))) = w.
Proof.
  destruct (showWarnings_run msgs (mkSys w []) (NoDup_nil _))
    as (fx & Hrun & Hnd & Hincl & Hlen).
  rewrite Hrun. cbn [effectsOf resultOf stateOf fst snd world warningsShown app length] in *.
  repeat split; auto.
Qed.

End Warnings.
(** ** The cached worktree path *)

Section Worktree.

Context {World : Type} (H : Host World) (P : Platform).

Lemma getShadowGitConfigWorktree_cached
    (g : SimpleGit) (s : Service) (y : Sys World) (cached : string) :
  shadowGitConfigWorktree s = Some cached ->
  cached <> "" ->
  getShadowGitConfigWorktree H P g (s, y) = (Ok (Some cached), (s, y), []).
Proof.
  intros Hcached Hreal. apply truthy_nonempty in Hreal.
  unfold getShadowGitConfigWorktree. run. rewrite Hcached.
  cbn [Js.truthyOpt]. rewrite Hreal. cbn [negb]. run. rewrite Hcached.
  reflexivity.
Qed.

(** The worktree path is asked of git once: the answer is stored on the
    instance, and every later call answers from there without a call,
    whatever handle it is given. *)
Theorem getShadowGitConfigWorktree_looks_up_once
    (g g' : SimpleGit) (s : Service) (y y' : Sys World) (r : ConfigGetResult)
    (w1 : World) (found : string) :
  shadowGitConfigWorktree s = None ->
  git_getConfig H g "core.worktree" (world y) = (Ok r, w1) ->
  value r = Some found ->
  found <> "" ->
  getShadowGitConfigWorktree H P g (s, y)
  = (Ok (Some found),
     (set_shadowGitConfigWorktree (Some found) s, mkSys w1 (warningsShown y)),
     [FxCall (CGitGetConfig g "core.worktree")])
  /\ getShadowGitConfigWorktree H P g'
       (set_shadowGitConfigWorktree (Some found) s, y')
     = (Ok (Some found), (set_shadowGitConfigWorktree (Some found) s, y'), []).
Proof.
  intros Hnone Hlookup Hvalue Hreal. split.
  - apply truthy_nonempty in Hreal.
    unfold getShadowGitConfigWorktree. run. rewrite Hnone.
    cbn [Js.truthyOpt negb]. run. rewrite Hlookup. run. rewrite Hvalue.
    cbn [Js.truthyOpt]. rewrite Hreal. reflexivity.
  - apply getShadowGitConfigWorktree_cached; [reflexivity | exact Hreal].
Qed.

(** A failing lookup is swallowed: it is logged and reported, the answer
    is [undefined], and nothing is stored on the instance. *)
Theorem getShadowGitConfigWorktree_lookup_failure
    (g : SimpleGit) (s : Service) (y : Sys World) (e : thrown) (w1 : World) :
  shadowGitConfigWorktree s = None ->
  git_getConfig H g "core.worktree" (world y) = (Throw e, w1) ->
  exists fx,
    getShadowGitConfigWorktree H P g (s, y)
    = (Ok None, (s, mkSys w1 (warningsShown y)), fx)
    /\ calls fx = [CGitGetConfig g "core.worktree"]
    /\ In (FxTelemetry (className P ++ "#getShadowGitConfigWorktree") e) fx.
Proof.
  intros Hnone Hlookup.
  unfold getShadowGitConfigWorktree. run. rewrite Hnone.
  cbn [Js.truthyOpt negb]. run. rewrite Hlookup. run. rewrite Hnone.
  eexists. repeat split. right. right. left. reflexivity.
Qed.

End Worktree.
(** ** What the operations never do *)

Section Performs.

Context {St : Type} (ok : Effect -> bool).

Lemma performs_ret {A : Type} (a : A) : performs (St:=St) ok (ret a).
Proof. intros st. reflexivity. Qed.

Lemma performs_throw {A : Type} (e : thrown) : performs (St:=St) (A:=A) ok (throw e).
Proof. intros st. reflexivity. Qed.

Lemma performs_tell (fx : Effect) : ok fx = true -> performs (St:=St) ok (tell fx).
Proof. intros Hok st. cbn. rewrite Hok. reflexivity. Qed.

Lemma performs_bind {A B : Type} (m : M St A) (k : A -> M St B) :
  performs ok m -> (forall a, performs ok (k a)) -> performs ok (bind m k).
Proof.
  intros Hm Hk st. specialize (Hm st). unfold bind, effectsOf in *.
  destruct (m st) as [[[a|e] s1] fx1]; cbn [snd] in *; [|exact Hm].
  specialize (Hk a s1). unfold effectsOf in Hk.
  destruct (k a s1) as [[r s2] fx2]. cbn [snd] in *.
  rewrite forallb_app, Hm, Hk. reflexivity.
Qed.

Lemma performs_tryCatch {A : Type} (m : M St A) (h : thrown -> M St A) :
  performs ok m -> (forall e, performs ok (h e)) -> performs ok (tryCatch m h).
Proof.
  intros Hm Hh st. specialize (Hm st). unfold tryCatch, effectsOf in *.
  destruct (m st) as [[[a|e] s1] fx1]; cbn [snd] in *; [exact Hm|].
  specialize (Hh e s1). unfold effectsOf in Hh.
  destruct (h e s1) as [[r s2] fx2]. cbn [snd] in *.
  rewrite forallb_app, Hm, Hh. reflexivity.
Qed.

End Performs.

Section PerformsInstance.

Context {World : Type} (ok : Effect -> bool).

Lemma performs_getThis : performs (St:=Service * Sys World) ok getThis.
Proof. intros st. reflexivity. Qed.

Lemma performs_modifyThis (f : Service -> Service) :
  performs (St:=Service * Sys World) ok (modifyThis f).
Proof. intros st. reflexivity. Qed.

Lemma performs_sys {A : Type} (m : M (Sys World) A) :
  performs ok m -> performs ok (sys m).
Proof.
  intros Hm st. specialize (Hm (snd st)). unfold sys, liftSnd, effectsOf in *.
  destruct (m _) as [[r s1] fx]. exact Hm.
Qed.

Lemma performs_hostCall {A : Type} (c : Call) (op : World -> outcome A * World) :
  ok (FxCall c) = true -> performs ok (hostCall c op).
Proof.
  intros Hok st. unfold hostCall, effectsOf. destruct (op _) as [r w'].
  cbn. rewrite Hok. reflexivity.
Qed.

Lemma performs_emit (H : Host World) (P : Platform) (ev : CheckpointEvent) :
  ok (FxEmit ev) = true -> performs ok (emit H P ev).
Proof.
  intros Hok st. unfold effectsOf.
  destruct ev; cbn; rewrite ?Hok; try reflexivity.
  unfold liftSnd.
  destruct (listenerCount H "error" (world (snd st))); cbn; rewrite ?Hok; reflexivity.
Qed.

Lemma performs_now (H : Host World) : performs ok (now H).
Proof.
  intros st. unfold now, effectsOf. destruct (Date_now H _) as [n w']. reflexivity.
Qed.

End PerformsInstance.

(** Decompose a method body and check each effect it can perform. *)
Ltac effects :=
  repeat first
    [ apply performs_emit; reflexivity
    | apply performs_bind; [|intros ?]
    | apply performs_tryCatch; [|intros ?]
    | apply performs_sys
    | apply performs_hostCall; reflexivity
    | apply performs_now
    | apply performs_tell; reflexivity
    | apply performs_ret
    | apply performs_throw
    | apply performs_getThis
    | apply performs_modifyThis
    | match goal with
      | |- performs _ (match ?x with _ => _ end) => destruct x
      | |- performs _ (if ?b then _ else _) => destruct b
      end ].

Section Footprints.

Context {World : Type} (H : Host World) (P : Platform).

(** Outside the process [saveCheckpoint] only stages and commits; it shows
    no warning. *)
Theorem saveCheckpoint_footprint
    (msg : string) (options : option SaveOptions) (st : Service * Sys World) :
  forallb savesOnly (effectsOf (saveCheckpoint H P msg options st)) = true.
Proof.
  revert st. change (performs savesOnly (saveCheckpoint H P msg options)).
  unfold saveCheckpoint, stageAll. effects.
Qed.

(** Outside the process [restoreCheckpoint] only cleans and resets; it
    reports nothing to telemetry and shows no warning. *)
Theorem restoreCheckpoint_footprint
    (commitHash : string) (st : Service * Sys World) :
  forallb restoresOnly (effectsOf (restoreCheckpoint H P commitHash st)) = true.
Proof.
  revert st. change (performs restoresOnly (restoreCheckpoint H P commitHash)).
  unfold restoreCheckpoint. effects.
Qed.

Lemma diffFiles_footprint g from to cwdPath fs :
  forall result, performs diffsOnly (diffFiles H P g from to cwdPath fs result).
Proof.
  induction fs as [|f rest IH]; intros result; cbn [diffFiles].
  - apply performs_ret.
  - apply performs_bind; [|intros record; apply IH].
    unfold diffFile, orCatch. effects.
Qed.

(** [getDiff] changes nothing but the index: it stages, reads, and looks
    up the worktree; it emits no event and leaves the checkpoint sequence
    and the base hash alone. *)
Theorem getDiff_footprint (from to : option string) (st : Service * Sys World) :
  forallb diffsOnly (effectsOf (getDiff H P from to st)) = true
  /\ emitted (effectsOf (getDiff H P from to st)) = []
  /\ _checkpoints (fst (stateOf (getDiff H P from to st))) = _checkpoints (fst st)
  /\ _baseHash (fst (stateOf (getDiff H P from to st))) = _baseHash (fst st).
Proof.
  assert (Hfoot : forallb diffsOnly (effectsOf (getDiff H P from to st)) = true).
  { revert st. change (performs diffsOnly (getDiff H P from to)).
    unfold getDiff, stageAll, getShadowGitConfigWorktree.
    effects; apply diffFiles_footprint. }
  split; [exact Hfoot|]. split; [|split].
  - induction (effectsOf (getDiff H P from to st)) as [|fx fxs IH]; [reflexivity|].
    cbn [forallb] in Hfoot. apply andb_true_iff in Hfoot. destruct Hfoot as [Hfx Hrest].
    destruct fx; cbn [emitted]; try (apply IH, Hrest). discriminate Hfx.
  - assert (Hk : keeps _checkpoints (getDiff H P from to))
      by (unfold getDiff; keeps; apply keeps_diffFiles).
    apply Hk.
  - apply baseHash_kept_by_getDiff.
Qed.

End Footprints.
(** ** The reads of [getDiff], file by file *)

Section DiffReads.

Context {World : Type} (H : Host World) (P : Platform).

Variables (g : SimpleGit) (from : string) (to : option string) (cwdPath : string).

Lemma diffFile_reads (f : DiffFile) (st : Service * Sys World) :
  exists record st' fx,
    diffFile H P g from to cwdPath f st = (Ok record, st', fx)
    /\ calls fx = readsOf P g from to cwdPath f
    /\ forall side text,
         readReturns H P side g from to cwdPath f st text ->
         contentOf side record = text.
Proof.
  unfold diffFile, orCatch, readReturns, readsOf. run.
  destruct (git_show H g [from ++ ":" ++ file f] (world (snd st)))
    as [[before|e] w1]; run;
  (destruct (Js.truthyOpt to); run;
   [ destruct (git_show H g [nonNull to ++ ":" ++ file f] w1) as [[after|e'] w2]
   | destruct (fs_readFile H (path_join P [cwdPath; file f]) w1)
       as [[after|e'] w2] ];
   run; do 3 eexists; (split; [reflexivity|]); (split; [reflexivity|]);
   intros side text Hread; destruct side;
   cbn [contentOf content_before content_after];
   repeat match goal with
          | Hr : _ /\ _ |- _ => destruct Hr
          end;
   congruence).
Qed.

(** The record of the [i]-th file is the one the loop body returns in the
    state the loop has reached by then. *)
Lemma diffFiles_nth (fs : list DiffFile) :
  forall (st : Service * Sys World) (i : nat) (f : DiffFile),
    nth_error fs i = Some f ->
    exists records st' fx record sti fxi,
      diffFiles H P g from to cwdPath fs [] st = (Ok records, st', fx)
      /\ length records = length fs
      /\ nth_error records i = Some record
      /\ diffFile H P g from to cwdPath f
           (stateOf (diffFiles H P g from to cwdPath (firstn i fs) [] st))
         = (Ok record, sti, fxi).
Proof.
  induction fs as [|f0 rest IH]; intros st i f Hnth.
  - destruct i; discriminate Hnth.
  - destruct (diffFile_run H P g from to cwdPath f0 st)
      as (record0 & st0 & fx0 & Hone & _).
    destruct (diffFiles_run H P g from to cwdPath rest st0)
      as (records & st' & fx & Hrest & Hmap).
    assert (Hall : diffFiles H P g from to cwdPath (f0 :: rest) [] st
                   = (Ok (record0 :: records), st', (fx0 ++ fx)%list))
      by exact (@diffFiles_cons _ H P g from to cwdPath f0 rest st st0 st'
                                record0 records fx0 fx Hone Hrest []).
    assert (Hlen : length (record0 :: records) = length (f0 :: rest)).
    { cbn [length]. f_equal.
      rewrite <- (length_map paths_relative), Hmap. apply length_map. }
    destruct i as [|j].
    + injection Hnth as <-. cbn [firstn diffFiles]. unfold ret, stateOf.
      cbn [fst snd].
      exists (record0 :: records), st', (fx0 ++ fx)%list, record0, st0, fx0.
      repeat split; assumption.
    + cbn [nth_error] in Hnth.
      destruct (diffFiles_run H P g from to cwdPath (firstn j rest) st0)
        as (pre & stj & fxj & Hpre & _).
      assert (Hprefix : diffFiles H P g from to cwdPath (f0 :: firstn j rest) [] st
                        = (Ok (record0 :: pre), stj, (fx0 ++ fxj)%list))
        by exact (@diffFiles_cons _ H P g from to cwdPath f0 (firstn j rest) st st0
                                  stj record0 pre fx0 fxj Hone Hpre []).
      destruct (IH st0 j f Hnth)
        as (records' & st'' & fx' & record & sti & fxi & Hrun & _ & Hrec & Hbody).
      rewrite (Hrest []) in Hrun. cbn [app] in Hrun. injection Hrun as <- _ _.
      cbn [firstn]. rewrite Hprefix.
      rewrite (Hpre []) in Hbody. unfold stateOf in *. cbn [fst snd] in *.
      exists (record0 :: records), st', (fx0 ++ fx)%list, record, sti, fxi.
      repeat split; assumption.
Qed.

(** A read that succeeds is passed on unchanged: the record of the file
    carries the text that the read returned. *)
Theorem getDiff_read_content
    (fs : list DiffFile) (st : Service * Sys World) (i : nat) (f : DiffFile)
    (side : Read) (text : string) :
  nth_error fs i = Some f ->
  readReturns H P side g from to cwdPath f
              (stateOf (diffFiles H P g from to cwdPath (firstn i fs) [] st)) text ->
  exists records st' fx record,
    diffFiles H P g from to cwdPath fs [] st = (Ok records, st', fx)
    /\ length records = length fs
    /\ nth_error records i = Some record
    /\ contentOf side record = text.
Proof.
  intros Hnth Hread.
  destruct (diffFiles_nth fs st i Hnth)
    as (records & st' & fx & record & sti & fxi & Hrun & Hlen & Hrec & Hbody).
  destruct (diffFile_reads f
              (stateOf (diffFiles H P g from to cwdPath (firstn i fs) [] st)))
    as (record' & sti' & fxi' & Hbody' & _ & Hcontent).
  rewrite Hbody in Hbody'. injection Hbody' as <- _ _.
  exists records, st', fx, record. repeat split; auto.
Qed.

Lemma diffFiles_reads_in_order (fs : list DiffFile) :
  forall (acc : list CheckpointDiff) (st : Service * Sys World),
    calls (effectsOf (diffFiles H P g from to cwdPath fs acc st))
    = flat_map (readsOf P g from to cwdPath) fs.
Proof.
  induction fs as [|f rest IH]; intros acc st; [reflexivity|].
  cbn [diffFiles flat_map]. unfold bind, effectsOf.
  destruct (diffFile_reads f st) as (record & st0 & fx0 & Hone & Hcalls & _).
  rewrite Hone. specialize (IH (acc ++ [record])%list st0). unfold effectsOf in IH.
  destruct (diffFiles H P g from to cwdPath rest _ st0) as [[r s2] fx2].
  cbn [snd] in *. rewrite calls_app, Hcalls, IH. reflexivity.
Qed.

(** The loop reads exactly two texts per changed file, in the order of the
    summary, whether reads fail or not: the blob at [from], then the blob
    at [to] or, without [to], the file in the worktree. *)
Theorem diffFiles_calls (fs : list DiffFile) (acc : list CheckpointDiff)
    (st : Service * Sys World) :
  calls (effectsOf (diffFiles H P g from to cwdPath fs acc st))
  = flat_map (readsOf P g from to cwdPath) fs.
Proof.
  revert acc st. induction fs as [|f rest IH]; intros acc st; [reflexivity|].
  cbn [diffFiles flat_map]. unfold bind, effectsOf.
  destruct (diffFile_reads f st) as (record & st0 & fx0 & Hone & Hcalls & _).
  rewrite Hone. specialize (IH (acc ++ [record])%list st0). unfold effectsOf in IH.
  destruct (diffFiles H P g from to cwdPath rest _ st0) as [[r s2] fx2].
  cbn [snd] in *. rewrite calls_app, Hcalls, IH. reflexivity.
Qed.

End DiffReads.

Section DiffRoot.

Context {World : Type} (H : Host World) (P : Platform).

(** Without [from], [getDiff] compares against the root commit of the
    shadow repository, whose hash it trims; the range is [root..to], or
    [root] alone against the worktree. *)
Theorem getDiff_from_root
    (from to : option string) (s : Service) (y : Sys World) (g : SimpleGit)
    (out cwd : string) (staged : outcome unit) (summary : DiffResult)
    (w1 w2 w3 : World) :
  git s = Some g ->
  Js.truthyOpt from = false ->
  shadowGitConfigWorktree s = Some cwd ->
  cwd <> "" ->
  git_raw H g ["rev-list"; "--max-parents=0"; "HEAD"] (world y) = (Ok out, w1) ->
  git_add H g "." w1 = (staged, w2) ->
  git_diffSummary H g
    [if Js.truthyOpt to then Js.trim out ++ ".." ++ nonNull to else Js.trim out] w2
  = (Ok summary, w3) ->
  resultOf (getDiff H P from to (s, y))
  = resultOf (diffFiles H P g (Js.trim out) to cwd (files summary) []
                        (s, mkSys w3 (warningsShown y)))
  /\ stateOf (getDiff H P from to (s, y))
     = stateOf (diffFiles H P g (Js.trim out) to cwd (files summary) []
                          (s, mkSys w3 (warningsShown y)))
  /\ calls (effectsOf (getDiff H P from to (s, y)))
     = CGitRaw g ["rev-list"; "--max-parents=0"; "HEAD"]
       :: CGitAdd g "."
       :: CGitDiffSummary g
            [if Js.truthyOpt to then Js.trim out ++ ".." ++ nonNull to
             else Js.trim out]
       :: flat_map (readsOf P g (Js.trim out) to cwd) (files summary).
Proof.
  intros Hg Hfrom Hcached Hreal Hraw Hadd Hsummary.
  pose proof (diffFiles_reads_in_order H P g (Js.trim out) to cwd (files summary) []
                              (s, mkSys w3 (warningsShown y))) as Hcalls.
  apply truthy_nonempty in Hreal.
  unfold getDiff, stageAll, getShadowGitConfigWorktree, resultOf, stateOf,
    effectsOf in *. run.
  rewrite Hg. run. rewrite Hfrom. cbn [negb]. run. rewrite Hraw. run. rewrite Hadd.
  destruct staged as [u|e]; run;
    (destruct (Js.truthyOpt to) eqn:Hto; run; rewrite Hsummary; run;
     rewrite Hcached; cbn [Js.truthyOpt]; rewrite Hreal; cbn [negb nonNull]; run;
     rewrite Hcached; cbn [Js.truthyOpt nonNull]; rewrite Hreal;
     destruct (diffFiles H P g (Js.trim out) _ cwd (files summary) [] _)
       as [[r st'] fx];
     cbn [fst snd calls app] in *; rewrite ?calls_app; cbn [calls app];
     rewrite Hcalls; repeat split).
Qed.

End DiffRoot.
(** ** The filter of the nested-repository scan *)

Lemma replaceBackslashes_append (a b : string) :
  Js.replaceBackslashes (a ++ b)
  = Js.replaceBackslashes a ++ Js.replaceBackslashes b.
Proof.
  induction a as [|c a IH]; [reflexivity|].
  cbn [append Js.replaceBackslashes]. rewrite IH. reflexivity.
Qed.

Lemma replaceBackslashes_idempotent (s : string) :
  Js.replaceBackslashes (Js.replaceBackslashes s) = Js.replaceBackslashes s.
Proof.
  induction s as [|c s IH]; [reflexivity|].
  cbn [Js.replaceBackslashes]. rewrite IH.
  destruct (Ascii.eqb c "\"%char) eqn:Hc; [reflexivity | rewrite Hc; reflexivity].
Qed.

Lemma append_assoc (a b c : string) : (a ++ b) ++ c = a ++ b ++ c.
Proof.
  induction a as [|x a IH]; [reflexivity|].
  cbn [append]. rewrite IH. reflexivity.
Qed.

Lemma prefix_append (a b : string) : String.prefix a (a ++ b) = true.
Proof.
  induction a as [|c a IH]; [destruct b; reflexivity|].
  cbn [append String.prefix]. destruct (ascii_dec c c); [exact IH | congruence].
Qed.

Lemma substring_infix (pre n post : string) :
  substring (String.length pre) (String.length n) (pre ++ n ++ post) = n.
Proof.
  induction pre as [|c pre IH]; cbn [String.length append substring].
  - induction n as [|d n IHn]; cbn [String.length append substring].
    + destruct post; reflexivity.
    + rewrite IHn. reflexivity.
  - exact IH.
Qed.

Lemma includes_infix (pre n post : string) :
  n <> "" -> Js.includes n (pre ++ n ++ post) = true.
Proof.
  intros Hn. unfold Js.includes.
  destruct (String.index 0 n (pre ++ n ++ post)) eqn:Hidx; [reflexivity|].
  exfalso.
  apply (index_correct3 0 (String.length pre) n (pre ++ n ++ post) Hidx Hn).
  - apply Nat.le_0_l.
  - apply substring_infix.
Qed.

(** Path separators do not matter to the filter. *)
Lemma isNestedGitHead_separators (ty path : string) :
  isNestedGitHead (mkRgItem ty path)
  = isNestedGitHead (mkRgItem ty (Js.replaceBackslashes path)).
Proof.
  unfold isNestedGitHead. cbn [rg_type rg_path].
  rewrite replaceBackslashes_idempotent. reflexivity.
Qed.

Lemma length_append (a b : string) :
  String.length (a ++ b) = (String.length a + String.length b)%nat.
Proof.
  induction a as [|c a IH]; [reflexivity|].
  cbn [append String.length]. rewrite IH. reflexivity.
Qed.

(** A path [d/.git/HEAD] lies under [.git/] exactly when [d] is [.git] or
    lies under it. *)
Lemma prefix_git_head (d : string) :
  String.prefix ".git/" (d ++ "/.git/HEAD")
  = (String.eqb d ".git" || String.prefix ".git/" d)%bool.
Proof.
  destruct d as [|c1 [|c2 [|c3 [|c4 [|c5 d]]]]];
    cbn [append String.prefix String.eqb];
    repeat match goal with
           | |- context [Ascii.eqb ?a ?b] =>
               destruct (Ascii.eqb_spec a b); try subst;
               cbn [andb orb append String.prefix String.eqb]
           | |- context [ascii_dec ?a ?b] =>
               destruct (ascii_dec a b); try subst; try congruence;
               cbn [andb orb append String.prefix String.eqb]
           end;
    try reflexivity; try congruence;
    destruct d; reflexivity.
Qed.

(** What the scan never reports: anything under the workspace's own
    [.git], with either separator, and anything that is not a file. The
    [HEAD] of a [.git] folder in [dir] is reported, with either separator,
    exactly when [dir] is not that [.git] itself nor under it. *)
Theorem isNestedGitHead_classifies :
  (forall ty rest, isNestedGitHead (mkRgItem ty (".git/" ++ rest)) = false)
  /\ (forall ty rest, isNestedGitHead (mkRgItem ty (".git\" ++ rest)) = false)
  /\ (forall ty path, ty <> "file" -> isNestedGitHead (mkRgItem ty path) = false)
  /\ (forall dir,
        isNestedGitHead (mkRgItem "file" (dir ++ "/.git/HEAD"))
        = negb (String.eqb (Js.replaceBackslashes dir) ".git"
                || Js.startsWith ".git/" (Js.replaceBackslashes dir))
        /\ isNestedGitHead (mkRgItem "file" (dir ++ "\.git\HEAD"))
           = negb (String.eqb (Js.replaceBackslashes dir) ".git"
                   || Js.startsWith ".git/" (Js.replaceBackslashes dir))).
Proof.
  assert (Hroot : forall ty rest,
             isNestedGitHead (mkRgItem ty (".git/" ++ rest)) = false).
  { intros ty rest. unfold isNestedGitHead. cbn [rg_type rg_path].
    destruct (negb (String.eqb ty "file")); [reflexivity|].
    rewrite replaceBackslashes_append.
    change (Js.replaceBackslashes ".git/") with ".git/".
    unfold Js.startsWith. rewrite prefix_append.
    rewrite andb_false_r. reflexivity. }
  assert (Hnested : forall dir,
             isNestedGitHead (mkRgItem "file" (dir ++ "/.git/HEAD"))
             = negb (String.eqb (Js.replaceBackslashes dir) ".git"
                     || Js.startsWith ".git/" (Js.replaceBackslashes dir))).
  { intros dir. unfold isNestedGitHead. cbn [rg_type rg_path].
    change (negb (String.eqb "file" "file")) with false. cbv iota.
    rewrite replaceBackslashes_append.
    change (Js.replaceBackslashes "/.git/HEAD") with "/.git/HEAD".
    unfold Js.startsWith. rewrite prefix_git_head.
    replace (Js.includes ".git/HEAD" (Js.replaceBackslashes dir ++ "/.git/HEAD"))
      with true.
    - destruct (String.eqb_spec (Js.replaceBackslashes dir ++ "/.git/HEAD") ".git/HEAD")
        as [Heq|Hne].
      + apply (f_equal String.length) in Heq. rewrite length_append in Heq.
        cbn [String.length] in Heq. lia.
      + cbn [negb andb]. rewrite andb_true_r. reflexivity.
    - symmetry.
      change (Js.replaceBackslashes dir ++ "/.git/HEAD")
        with (Js.replaceBackslashes dir ++ "/" ++ ".git/HEAD" ++ "").
      rewrite <- (append_assoc (Js.replaceBackslashes dir) "/").
      apply includes_infix. discriminate. }
  repeat split.
  - exact Hroot.
  - intros ty rest. rewrite isNestedGitHead_separators.
    rewrite replaceBackslashes_append.
    change (Js.replaceBackslashes ".git\") with ".git/". apply Hroot.
  - intros ty path Hty. unfold isNestedGitHead. cbn [rg_type].
    apply String.eqb_neq in Hty. rewrite Hty. reflexivity.
  - apply Hnested.
  - rewrite isNestedGitHead_separators, replaceBackslashes_append.
    change (Js.replaceBackslashes "\.git\HEAD") with "/.git/HEAD".
    rewrite (Hnested (Js.replaceBackslashes dir)), replaceBackslashes_idempotent.
    reflexivity.
Qed.
(** ** Deleting a task's branch *)

(** [step], also across a [pWaitFor]. *)
Ltac poll_step :=
  first
    [ step
    | match goal with
      | |- context [Static.pWaitFor ?t ?n ?c ?s] =>
          destruct (Static.pWaitFor t n c s) as [[[[]|?] ?] ?] eqn:?
      end; run ].

Ltac run_in Hx :=
  cbv beta iota zeta delta
    [bind ret throw tryCatch orCatch get put tell log emit reportError sys
     liftSnd hostCall now getThis modifyThis] in Hx;
  cbn [app fst snd world warningsShown] in Hx.

Section Branches.

Import Static.

Context {World : Type} (H : Host World) (B : BranchHost World).

(** A branch that is not in the local list: nothing is deleted, the answer
    is [false], and only the listing was asked for. *)
Theorem deleteBranch_missing
    (g : SimpleGit) (branchName : string) (y : Sys World)
    (branches : BranchSummary) (w1 : World) :
  git_branchLocal B g (world y) = (Ok branches, w1) ->
  ~ In branchName (branches_all branches) ->
  exists fx,
    deleteBranch H B g branchName y = (Ok false, mkSys w1 (warningsShown y), fx)
    /\ calls fx = [CBranchLocal g].
Proof.
  intros Hlist Hmissing.
  assert (Hinc : Js.arrayIncludes branchName (branches_all branches) = false).
  { destruct (Js.arrayIncludes branchName (branches_all branches)) eqn:Hin;
      [|reflexivity].
    apply arrayIncludes_In in Hin. contradiction. }
  unfold deleteBranch, console. run. rewrite Hlist. run. rewrite Hinc. cbn [negb]. run.
  eexists. split; reflexivity.
Qed.

(** A branch that is not checked out is deleted directly; the worktree
    binding is not touched, and a failing delete is thrown to the caller. *)
Theorem deleteBranch_not_checked_out
    (g : SimpleGit) (branchName current : string) (y : Sys World)
    (branches : BranchSummary) (w1 w2 w3 : World) (deleted : outcome unit) :
  git_branchLocal B g (world y) = (Ok branches, w1) ->
  In branchName (branches_all branches) ->
  git_revparse H g ["--abbrev-ref"; "HEAD"] w1 = (Ok current, w2) ->
  current <> branchName ->
  git_branch B g ["-D"; branchName] w2 = (deleted, w3) ->
  exists fx,
    deleteBranch H B g branchName y
    = (match deleted with Ok _ => Ok true | Throw e => Throw e end,
       mkSys w3 (warningsShown y), fx)
    /\ calls fx = [CBranchLocal g;
                   CGitRevparse g ["--abbrev-ref"; "HEAD"];
                   CBranch g ["-D"; branchName]].
Proof.
  intros Hlist Hin Hhead Hother Hdelete.
  apply arrayIncludes_In in Hin. apply String.eqb_neq in Hother.
  unfold deleteBranch. run. rewrite Hlist. run. rewrite Hin. cbn [negb]. run.
  rewrite Hhead. run. rewrite Hother. run. rewrite Hdelete.
  destruct deleted as [u|e]; run; eexists; split; reflexivity.
Qed.


Lemma tryFinally_run {St A : Type} (body : M St A) (finalizer : M St unit) (st : St) :
  effectsOf (tryFinally body finalizer st)
  = (effectsOf (body st) ++ effectsOf (finalizer (stateOf (body st))))%list
  /\ resultOf (tryFinally body finalizer st)
     = match resultOf (finalizer (stateOf (body st))) with
       | Ok _ => resultOf (body st)
       | Throw e => Throw e
       end.
Proof.
  unfold tryFinally, effectsOf, resultOf, stateOf.
  destruct (body st) as [[r s1] fx1]. cbn [fst snd].
  destruct (finalizer s1) as [[[u|e] s2] fx2]; split; reflexivity.
Qed.

(** Polling a condition that never holds ends in an exception, and asks for
    nothing but the current branch. *)
Lemma pWaitFor_unconfirmed (g : SimpleGit) (target : string) :
  (forall w, fst (git_revparse H g ["--abbrev-ref"; "HEAD"] w) <> Ok target) ->
  forall (polls : nat) (st : Sys World),
  exists e st' fx,
    pWaitFor (timeoutError B) polls
      (newBranch <- hostCall (CGitRevparse g ["--abbrev-ref"; "HEAD"])
                             (git_revparse H g ["--abbrev-ref"; "HEAD"]) ;;
       ret (String.eqb newBranch target)) st
    = (Throw e, st', fx)
    /\ forall c, In c (calls fx) -> c = CGitRevparse g ["--abbrev-ref"; "HEAD"].
Proof.
  intros Hnever.
  set (condition := (newBranch <- hostCall (CGitRevparse g ["--abbrev-ref"; "HEAD"])
                                           (git_revparse H g ["--abbrev-ref"; "HEAD"]) ;;
                     ret (String.eqb newBranch target)) : M (Sys World) bool).
  assert (Hcond : forall st : Sys World,
             (exists e st', condition st
                            = (Throw e, st', [FxCall (CGitRevparse g ["--abbrev-ref"; "HEAD"])]))
             \/ (exists st', condition st
                             = (Ok false, st', [FxCall (CGitRevparse g ["--abbrev-ref"; "HEAD"])]))).
  { intros st. subst condition. run. specialize (Hnever (world st)).
    destruct (git_revparse H g ["--abbrev-ref"; "HEAD"] (world st))
      as [[name|e] w1]; run.
    - right. destruct (String.eqb_spec name target) as [->|Hne];
        [exfalso; apply Hnever; reflexivity|].
      eexists. reflexivity.
    - left. do 2 eexists. reflexivity. }
  clearbody condition.
  induction polls as [|n IH]; intros st.
  - cbn [pWaitFor]. unfold throw. do 3 eexists. split; [reflexivity|].
    intros c [].
  - cbn [pWaitFor]. unfold bind at 1.
    destruct (Hcond st) as [(e & st1 & ->) | (st1 & ->)].
    + do 3 eexists. split; [reflexivity|]. intros c [<-|[]]. reflexivity.
    + destruct (IH st1) as (e & st' & fx & Hrun & Hcalls).
      rewrite Hrun. do 3 eexists. split; [reflexivity|].
      intros c [<-|Hc]; [reflexivity | apply Hcalls, Hc].
Qed.

(** Once the checked-out branch's worktree binding was read, the last call
    of [deleteBranch] puts it back, whatever happened in between; and
    nothing but a failure of that last call is thrown. *)
Theorem deleteBranch_restores_worktree
    (g : SimpleGit) (branchName worktree : string) (y : Sys World)
    (branches : BranchSummary) (config : ConfigGetResult) (w1 w2 w3 : World) :
  git_branchLocal B g (world y) = (Ok branches, w1) ->
  In branchName (branches_all branches) ->
  git_revparse H g ["--abbrev-ref"; "HEAD"] w1 = (Ok branchName, w2) ->
  git_getConfig H g "core.worktree" w2 = (Ok config, w3) ->
  value config = Some worktree ->
  worktree <> "" ->
  exists before,
    calls (effectsOf (deleteBranch H B g branchName y))
    = (before ++ [CGitAddConfig g "core.worktree" worktree])%list
    /\ (resultOf (deleteBranch H B g branchName y) = Ok true
        \/ resultOf (deleteBranch H B g branchName y) = Ok false
        \/ exists e w,
             resultOf (deleteBranch H B g branchName y) = Throw e
             /\ fst (git_addConfig H g "core.worktree" worktree w) = Throw e).
Proof.
  intros Hlist Hin Hhead Hconfig Hvalue Hreal.
  apply arrayIncludes_In in Hin. apply truthy_nonempty in Hreal.
  unfold deleteBranch. run. rewrite Hlist. run. rewrite Hin. cbn [negb]. run.
  rewrite Hhead. run. rewrite String.eqb_refl. run. rewrite Hconfig. run.
  rewrite Hvalue, Hreal.
  match goal with
  | |- context [tryFinally ?body ?fin ?st] =>
      destruct (tryFinally_run body fin st) as (Hfx & Hres);
      assert (Hbody : resultOf (body st) = Ok true \/ resultOf (body st) = Ok false);
      [| destruct (tryFinally body fin st) as [[r s'] fx] eqn:Hrun;
         unfold effectsOf, resultOf in Hfx, Hres |- *; cbn [fst snd] in Hfx, Hres |- *;
         destruct (body st) as [[rb sb] fxb]; cbn [fst snd stateOf] in * ]
  end.
  { unfold resultOf, console. run. repeat poll_step; cbn [fst]; auto. }
  unfold stateOf in *. cbn [fst snd] in *.
  revert Hfx Hres. run.
  destruct (git_addConfig H g "core.worktree" worktree (world sb))
    as [[u|e] wf] eqn:Hput; cbn [fst snd]; intros -> ->;
    cbn [calls]; rewrite calls_app; cbn [calls];
    exists (CBranchLocal g :: CGitRevparse g ["--abbrev-ref"; "HEAD"]
            :: CGitGetConfig g "core.worktree" :: calls fxb);
    (split; [reflexivity|]).
  - unfold resultOf in Hbody. cbn [fst] in Hbody. tauto.
  - right. right. exists e, (world sb). rewrite Hput. split; reflexivity.
Qed.


(** Unless the switch to the default branch was confirmed, the checked-out
    branch is not deleted: the answer is never [true], and no delete is
    asked for. *)
Theorem deleteBranch_unconfirmed_switch
    (g : SimpleGit) (branchName : string) (y : Sys World)
    (branches : BranchSummary) (w1 w2 : World) :
  git_branchLocal B g (world y) = (Ok branches, w1) ->
  In branchName (branches_all branches) ->
  git_revparse H g ["--abbrev-ref"; "HEAD"] w1 = (Ok branchName, w2) ->
  (forall w, fst (git_revparse H g ["--abbrev-ref"; "HEAD"] w)
             <> Ok (if Js.arrayIncludes "main" (branches_all branches)
                    then "main" else "master")) ->
  resultOf (deleteBranch H B g branchName y) <> Ok true
  /\ ~ In (CBranch g ["-D"; branchName])
          (calls (effectsOf (deleteBranch H B g branchName y))).
Proof.
  intros Hlist Hin Hhead Hnever.
  apply arrayIncludes_In in Hin.
  unfold deleteBranch. run. rewrite Hlist. run. rewrite Hin. cbn [negb]. run.
  rewrite Hhead. run. rewrite String.eqb_refl. run.
  destruct (git_getConfig H g "core.worktree" w2) as [[config|e] w3]; run;
    [|unfold resultOf, effectsOf, CBranch; cbn [fst snd calls];
      split; [discriminate|intros [Hc|[Hc|[Hc|[]]]]; discriminate Hc]].
  match goal with
  | |- context [tryFinally ?body ?fin ?st] =>
      destruct (tryFinally_run body fin st) as (Hfx & Hres);
      assert (Hbody : resultOf (body st) = Ok false
                      /\ ~ In (CBranch g ["-D"; branchName])
                              (calls (effectsOf (body st))));
      [| destruct (tryFinally body fin st) as [[r s'] fx] eqn:Hrun;
         unfold effectsOf, resultOf in Hfx, Hres |- *; cbn [fst snd] in Hfx, Hres |- *;
         destruct (body st) as [[rb sb] fxb]; cbn [fst snd stateOf] in * ]
  end.
  { unfold resultOf, effectsOf, console, CBranch, CCheckout. run.
    repeat first
      [ step
      | match goal with
        | |- context [pWaitFor ?t ?n ?c ?s] =>
            let Hp := fresh "Hp" in
            let Hcalls := fresh "Hcalls" in
            destruct (@pWaitFor_unconfirmed g _ Hnever n s)
              as (? & ? & ? & Hp & Hcalls);
            run_in Hp; rewrite Hp; run
        end ];
      cbn [fst snd calls]; rewrite ?calls_app; cbn [calls];
      (split; [reflexivity|]);
      rewrite ?app_nil_r, ?in_app_iff; cbn [In];
      intros Hc;
      repeat match goal with
             | Hx : _ \/ _ |- _ => destruct Hx
             | Hx : False |- _ => destruct Hx
             | Hx : CGitRaw _ _ = CGitRaw _ _ |- _ => discriminate Hx
             | Hx : _ = CGitRaw _ _ |- _ => discriminate Hx
             | Hx : In _ (calls _) |- _ =>
                 match goal with
                 | Hcalls : forall c, In c (calls _) -> _ |- _ =>
                     apply Hcalls in Hx; discriminate Hx
                 end
             end. }
  unfold stateOf, resultOf, effectsOf in *. cbn [fst snd] in *.
  destruct Hbody as (-> & Hnone).
  revert Hfx Hres.
  destruct (value config) as [v|]; [destruct (Js.truthy v)|]; run;
    try (destruct (git_addConfig H g "core.worktree" v (world sb)) as [[u|e] wf]);
    cbn [fst snd]; intros -> ->;
    (split; [discriminate|]);
    cbn [calls]; rewrite calls_app; cbn [calls]; unfold CBranch in *;
    rewrite ?app_nil_r;
    intros [Hc|[Hc|[Hc|Hc]]]; try discriminate Hc;
    try (apply in_app_iff in Hc; destruct Hc as [Hc|[Hc|[]]]; [|discriminate Hc]);
    apply Hnone; exact Hc.
Qed.


Lemma performs_tryFinally {St A : Type} (ok : Effect -> bool)
    (body : M St A) (finalizer : M St unit) :
  performs ok body -> performs ok finalizer -> performs ok (tryFinally body finalizer).
Proof.
  intros Hbody Hfin st. destruct (tryFinally_run body finalizer st) as (-> & _).
  rewrite forallb_app, Hbody, Hfin. reflexivity.
Qed.

Lemma performs_pWaitFor {St : Type} (ok : Effect -> bool)
    (timeout : thrown) (condition : M St bool) (polls : nat) :
  performs ok condition -> performs ok (pWaitFor timeout polls condition).
Proof.
  intros Hcond. induction polls as [|n IH]; cbn [pWaitFor].
  - apply performs_throw.
  - apply performs_bind; [exact Hcond|]. intros [|]; [apply performs_ret|exact IH].
Qed.

Lemma deleteBranch_performs (g : SimpleGit) (branchName : string) :
  performs (onRepository g) (deleteBranch H B g branchName).
Proof.
  unfold deleteBranch, console, reportError, CBranchLocal, CCheckout, CBranch.
  repeat first
    [ apply performs_bind; [|intros ?]
    | apply performs_tryCatch; [|intros ?]
    | apply performs_tryFinally
    | apply performs_pWaitFor
    | apply performs_hostCall; cbn [onRepository]; apply String.eqb_refl
    | apply performs_tell; reflexivity
    | apply performs_ret
    | intros st; reflexivity
    | match goal with
      | |- performs _ (match ?x with _ => _ end) => destruct x
      | |- performs _ (if ?b then _ else _) => destruct b
      end ].
Qed.

(** [deleteTask] works on the shadow repository of the workspace, found
    under the global storage directory by the hash of the workspace path,
    and on nothing else. *)
Theorem deleteTask_footprint
    (P : Platform) (C : Crypto) (taskId globalStorageDir workspaceDir : string)
    (y : Sys World) :
  forallb
    (onRepository
       (mkSimpleGit
          (path_join P [globalStorageDir; "checkpoints";
                        substring 0 8 (sha256_hex C workspaceDir)])))
    (effectsOf (deleteTask H B P C taskId globalStorageDir workspaceDir y)) = true.
Proof.
  revert y.
  change (performs
            (onRepository
               (mkSimpleGit (workspaceRepoDir P C globalStorageDir workspaceDir)))
            (deleteTask H B P C taskId globalStorageDir workspaceDir)).
  unfold deleteTask, console.
  apply performs_bind; [apply deleteBranch_performs|].
  intros [|]; apply performs_tell; reflexivity.
Qed.

End Branches.
(** ** The properties above, on concrete runs *)

Lemma saveCheckpoint_requires_init_witness :
  exists fx,
    saveCheckpoint (Demo.host Demo.calm) Demo.platform "edit" None
                   (Demo.fresh, Demo.start)
    = (Throw (unhandledError Demo.platform
                (mkError "Shadow git repo not initialized")),
       (Demo.fresh, Demo.start), fx)
    /\ emitted fx = []
    /\ forallb (fun e => negb (isCall e)) fx = true.
Proof.
  apply (@saveCheckpoint_requires_init Z (Demo.host Demo.calm) Demo.platform
           "edit" None Demo.fresh Demo.start).
  reflexivity.
Defined.

Lemma restoreCheckpoint_requires_init_witness :
  exists fx,
    restoreCheckpoint (Demo.heard (Demo.host Demo.calm)) Demo.platform "c1"
                      (Demo.fresh, Demo.start)
    = (Throw notInitialized, (Demo.fresh, Demo.start), fx)
    /\ emitted fx = [EvError (mkError "Shadow git repo not initialized")]
    /\ forallb (fun e => negb (isCall e)) fx = true.
Proof.
  apply (@restoreCheckpoint_requires_init Z (Demo.heard (Demo.host Demo.calm))
           Demo.platform "c1" Demo.fresh Demo.start).
  reflexivity.
Defined.

Lemma getDiff_requires_init_witness :
  getDiff (Demo.host Demo.calm) Demo.platform None None (Demo.fresh, Demo.start)
  = (Throw notInitialized, (Demo.fresh, Demo.start), []).
Proof.
  apply (@getDiff_requires_init Z (Demo.host Demo.calm) Demo.platform
           None None Demo.fresh Demo.start).
  reflexivity.
Defined.

Lemma restoreCheckpoint_failure_witness :
  exists fx,
    restoreCheckpoint (Demo.heard (Demo.host Scenarios.resetFails)) Demo.platform
                      "c9" (Demo.opened ["c1"], Demo.start)
    = (Throw (ThrownError (mkError "fatal: Could not parse object 'c9'")),
       (Demo.opened ["c1"], mkSys 1 []), fx)
    /\ emitted fx = [EvError (mkError "fatal: Could not parse object 'c9'")]
    /\ (Ok tt = Throw (ThrownError (mkError "fatal: Could not parse object 'c9'")) ->
        forallb (fun fx => match fx with FxCall (CGitReset _ _) => false | _ => true end)
                fx = true).
Proof.
  apply (@restoreCheckpoint_failure Z (Demo.heard (Demo.host Scenarios.resetFails))
           Demo.platform "c9" (Demo.opened ["c1"]) Demo.start Demo.store 0 1 1 1
           (Ok tt) (ThrownError (mkError "fatal: Could not parse object 'c9'")));
    try reflexivity.
  right. split; reflexivity.
Defined.

Lemma restoreCheckpoint_twice_witness :
  fst (stateOf (restoreCheckpoint (Demo.host Demo.calm) Demo.platform "c2"
                  (Demo.opened ["c1"; "c2"], mkSys 2 [])))
  = fst (stateOf (restoreCheckpoint (Demo.host Demo.calm) Demo.platform "c2"
                    (Demo.opened ["c1"; "c2"; "c3"], Demo.start))).
Proof.
  apply (@restoreCheckpoint_twice Z (Demo.host Demo.calm) Demo.platform "c2"
           (Demo.opened ["c1"; "c2"; "c3"])
           (fst (stateOf (restoreCheckpoint (Demo.host Demo.calm) Demo.platform "c2"
                            (Demo.opened ["c1"; "c2"; "c3"], Demo.start))))
           (fst (stateOf (restoreCheckpoint (Demo.host Demo.calm) Demo.platform "c2"
                            (Demo.opened ["c1"; "c2"], mkSys 2 []))))
           Demo.start (mkSys 2 []) (mkSys 4 [])
           (effectsOf (restoreCheckpoint (Demo.host Demo.calm) Demo.platform "c2"
                         (Demo.opened ["c1"; "c2"; "c3"], Demo.start)))
           (effectsOf (restoreCheckpoint (Demo.host Demo.calm) Demo.platform "c2"
                         (Demo.opened ["c1"; "c2"], mkSys 2 []))));
    vm_compute; reflexivity.
Defined.

Lemma saveCheckpoint_after_restore_witness :
  exists kept later fx2,
    ["c1"; "c2"; "c3"] = (kept ++ "c2" :: later)%list
    /\ ~ In "c2" kept
    /\ saveCheckpoint (Demo.host Scenarios.editedAgain) Demo.platform "edit" None
                      (Demo.opened ["c1"; "c2"], mkSys 2 [])
       = (Ok (Some (mkCommitResult "c4" "master")),
          (set_checkpoints (kept ++ ["c2"; "c4"]) (Demo.opened ["c1"; "c2"; "c3"]),
           mkSys 4 []), fx2)
    /\ emitted fx2 = [EvCheckpoint "c2" "c4" 1 false].
Proof.
  apply (@saveCheckpoint_after_restore Z (Demo.host Scenarios.editedAgain)
           Demo.platform "c2" "edit" None (Demo.opened ["c1"; "c2"; "c3"])
           (Demo.opened ["c1"; "c2"]) Demo.start (mkSys 2 [])
           (effectsOf (restoreCheckpoint (Demo.host Scenarios.editedAgain)
                         Demo.platform "c2"
                         (Demo.opened ["c1"; "c2"; "c3"], Demo.start)))
           2 3 3 3 3 4 (Ok tt) (mkCommitResult "c4" "master") Demo.store);
    try (vm_compute; reflexivity).
  - right. left. reflexivity.
  - discriminate.
Defined.

Lemma initShadowGit_postcondition_witness :
  git Demo.fresh = None
  /\ git (mkService "task" "/store" "/ws" [] (Some "b0") "/store/.git"
                    (Some Demo.store) None)
     = Some (mkSimpleGit (checkpointsDir Demo.fresh))
  /\ hasBaseHash (mkService "task" "/store" "/ws" [] (Some "b0") "/store/.git"
                            (Some Demo.store) None)
  /\ _checkpoints (mkService "task" "/store" "/ws" [] (Some "b0") "/store/.git"
                             (Some Demo.store) None)
     = _checkpoints Demo.fresh
  /\ workspaceDir (mkService "task" "/store" "/ws" [] (Some "b0") "/store/.git"
                             (Some Demo.store) None)
     = workspaceDir Demo.fresh
  /\ exists before,
       effectsOf (initShadowGit (Demo.host Scenarios.firstCommit) Demo.platform None
                                (Demo.fresh, Demo.start))
       = (before
          ++ [FxEmit (EvInitialize
                        (workspaceDir Demo.fresh)
                        (_baseHash (mkService "task" "/store" "/ws" [] (Some "b0")
                                              "/store/.git" (Some Demo.store) None))
                        (init_created (mkInitResult true 1))
                        (init_duration (mkInitResult true 1)))])%list.
Proof.
  apply (@initShadowGit_postcondition Z (Demo.host Scenarios.firstCommit)
           Demo.platform None Demo.fresh
           (mkService "task" "/store" "/ws" [] (Some "b0") "/store/.git"
                      (Some Demo.store) None)
           Demo.start (mkSys 2 []) (mkInitResult true 1)
           (effectsOf (initShadowGit (Demo.host Scenarios.firstCommit) Demo.platform
                                     None (Demo.fresh, Demo.start)))).
  vm_compute. reflexivity.
Defined.

Lemma initShadowGit_first_creation_witness :
  exists (content : string) (base : CommitResult) (staged : outcome unit)
         (wa wb wc : Z) (t1 : Z),
    git_add (Demo.host Scenarios.firstCommit)
            (mkSimpleGit (checkpointsDir Demo.fresh)) "." wa = (staged, wb)
    /\ git_commit (Demo.host Scenarios.firstCommit)
                  (mkSimpleGit (checkpointsDir Demo.fresh)) "initial commit" true wb
       = (Ok base, wc)
    /\ Date_now (Demo.host Scenarios.firstCommit) wc = (t1, world (mkSys 2 []))
    /\ calls (effectsOf (initShadowGit (Demo.host Scenarios.firstCommit) Demo.platform
                                    None (Demo.fresh, Demo.start)))
    = [CRipgrep (ripgrepArgs (workspaceDir Demo.fresh)) (workspaceDir Demo.fresh);
       CMkdir (checkpointsDir Demo.fresh);
       CGitVersion (mkSimpleGit (checkpointsDir Demo.fresh));
       CFileExists (dotGitDir Demo.fresh);
       CGitInit (mkSimpleGit (checkpointsDir Demo.fresh));
       CGitAddConfig (mkSimpleGit (checkpointsDir Demo.fresh)) "core.worktree"
                     (workspaceDir Demo.fresh);
       CGitAddConfig (mkSimpleGit (checkpointsDir Demo.fresh)) "commit.gpgSign" "false";
       CGitAddConfig (mkSimpleGit (checkpointsDir Demo.fresh)) "user.name" "Kilo Code";
       CGitAddConfig (mkSimpleGit (checkpointsDir Demo.fresh)) "user.email"
                     "noreply@example.com";
       CMkdir (path_join Demo.platform [dotGitDir Demo.fresh; "info"]);
       CExcludePatterns (workspaceDir Demo.fresh);
       CWriteFile (path_join Demo.platform [dotGitDir Demo.fresh; "info"; "exclude"])
                  content;
       CGitAdd (mkSimpleGit (checkpointsDir Demo.fresh)) ".";
       CGitCommit (mkSimpleGit (checkpointsDir Demo.fresh)) "initial commit" true]
    /\ _baseHash (mkService "task" "/store" "/ws" [] (Some "b0") "/store/.git"
                            (Some Demo.store) None)
       = Some (commit base)
    /\ emitted (effectsOf (initShadowGit (Demo.host Scenarios.firstCommit)
                                         Demo.platform None (Demo.fresh, Demo.start)))
       = [EvInitialize (workspaceDir Demo.fresh) (Some (commit base)) true
                       (init_duration (mkInitResult true 1))].
Proof.
  apply (@initShadowGit_first_creation Z (Demo.host Scenarios.firstCommit)
           Demo.platform Demo.fresh
           (mkService "task" "/store" "/ws" [] (Some "b0") "/store/.git"
                      (Some Demo.store) None)
           Demo.start (mkSys 2 []) (mkInitResult true 1)
           (effectsOf (initShadowGit (Demo.host Scenarios.firstCommit) Demo.platform
                                     None (Demo.fresh, Demo.start)))).
  - vm_compute. reflexivity.
  - reflexivity.
Defined.

Lemma initShadowGit_reopen_witness :
  exists (content head : string) (lookup : list Call) (wr wh : Z) (t1 : Z),
    git_revparse (Demo.host Scenarios.existing)
                 (mkSimpleGit (checkpointsDir Demo.fresh)) ["HEAD"] wr
    = (Ok head, wh)
    /\ Date_now (Demo.host Scenarios.existing) wh = (t1, world (mkSys 2 []))
    /\ calls (effectsOf (initShadowGit (Demo.host Scenarios.existing) Demo.platform
                                    None (Demo.fresh, Demo.start)))
    = ([CRipgrep (ripgrepArgs (workspaceDir Demo.fresh)) (workspaceDir Demo.fresh);
        CMkdir (checkpointsDir Demo.fresh);
        CGitVersion (mkSimpleGit (checkpointsDir Demo.fresh));
        CFileExists (dotGitDir Demo.fresh)]
       ++ lookup
       ++ [CMkdir (path_join Demo.platform [dotGitDir Demo.fresh; "info"]);
           CExcludePatterns (workspaceDir Demo.fresh);
           CWriteFile (path_join Demo.platform [dotGitDir Demo.fresh; "info"; "exclude"])
                      content;
           CGitRevparse (mkSimpleGit (checkpointsDir Demo.fresh)) ["HEAD"]])%list
    /\ (lookup = []
        \/ lookup = [CGitGetConfig (mkSimpleGit (checkpointsDir Demo.fresh))
                                   "core.worktree"])
    /\ shadowGitConfigWorktree
         (mkService "task" "/store" "/ws" [] (Some "b0") "/store/.git"
                    (Some Demo.store) (Some "/ws"))
       = Some (workspaceDir Demo.fresh)
    /\ _baseHash (mkService "task" "/store" "/ws" [] (Some "b0") "/store/.git"
                            (Some Demo.store) (Some "/ws"))
       = Some head
    /\ emitted (effectsOf (initShadowGit (Demo.host Scenarios.existing) Demo.platform
                                         None (Demo.fresh, Demo.start)))
       = [EvInitialize (workspaceDir Demo.fresh) (Some head) false
                       (init_duration (mkInitResult false 1))].
Proof.
  apply (@initShadowGit_reopen Z (Demo.host Scenarios.existing) Demo.platform
           Demo.fresh
           (mkService "task" "/store" "/ws" [] (Some "b0") "/store/.git"
                      (Some Demo.store) (Some "/ws"))
           Demo.start (mkSys 2 []) (mkInitResult false 1)
           (effectsOf (initShadowGit (Demo.host Scenarios.existing) Demo.platform
                                     None (Demo.fresh, Demo.start)))).
  - vm_compute. reflexivity.
  - reflexivity.
Defined.

Lemma initShadowGit_failure_witness :
  git Demo.fresh = git Demo.fresh
  /\ _checkpoints Demo.fresh = _checkpoints Demo.fresh
  /\ emitted (effectsOf (initShadowGit (Demo.host Demo.nested) Demo.platform None
                                       (Demo.fresh, Demo.start)))
     = [].
Proof.
  apply (@initShadowGit_failure Z (Demo.host Demo.nested) Demo.platform
           Demo.fresh Demo.fresh Demo.start
           (mkSys 0 ["kilocode:checkpoints.nestedGitRepos"])
           (nestedRepositoryError "sub")
           (effectsOf (initShadowGit (Demo.host Demo.nested) Demo.platform None
                                     (Demo.fresh, Demo.start)))).
  vm_compute. reflexivity.
Defined.

Lemma initShadowGit_callback_throws_witness :
  initShadowGit (Demo.host Scenarios.firstCommit) Demo.platform
                (Some Scenarios.failingCallback) (Demo.fresh, Demo.start)
  = (Throw (ThrownError (mkError "listener failed")),
     (mkService "task" "/store" "/ws" [] (Some "b0") "/store/.git"
                (Some Demo.store) None, mkSys 2 []),
     (removelast (effectsOf (initShadowGit (Demo.host Scenarios.firstCommit)
                                           Demo.platform None
                                           (Demo.fresh, Demo.start)))
      ++ [])%list)
  /\ isInitialized (mkService "task" "/store" "/ws" [] (Some "b0") "/store/.git"
                              (Some Demo.store) None)
     = true.
Proof.
  apply (@initShadowGit_callback_throws Z (Demo.host Scenarios.firstCommit)
           Demo.platform Scenarios.failingCallback Demo.fresh
           (mkService "task" "/store" "/ws" [] (Some "b0") "/store/.git"
                      (Some Demo.store) None)
           Demo.start (mkSys 2 []) (mkSys 2 []) (mkInitResult true 1)
           (effectsOf (initShadowGit (Demo.host Scenarios.firstCommit) Demo.platform
                                     None (Demo.fresh, Demo.start)))
           [] (ThrownError (mkError "listener failed"))).
  - vm_compute. reflexivity.
  - reflexivity.
Defined.


Lemma getShadowGitConfigWorktree_looks_up_once_witness :
  getShadowGitConfigWorktree (Demo.host Demo.calm) Demo.platform Demo.store
                             (Scenarios.unresolved, Demo.start)
  = (Ok (Some "/ws"),
     (set_shadowGitConfigWorktree (Some "/ws") Scenarios.unresolved,
      mkSys 0 (warningsShown Demo.start)),
     [FxCall (CGitGetConfig Demo.store "core.worktree")])
  /\ getShadowGitConfigWorktree (Demo.host Demo.calm) Demo.platform
       (mkSimpleGit "/elsewhere")
       (set_shadowGitConfigWorktree (Some "/ws") Scenarios.unresolved, mkSys 7 [])
     = (Ok (Some "/ws"),
        (set_shadowGitConfigWorktree (Some "/ws") Scenarios.unresolved, mkSys 7 []),
        []).
Proof.
  apply (@getShadowGitConfigWorktree_looks_up_once Z (Demo.host Demo.calm)
           Demo.platform Demo.store (mkSimpleGit "/elsewhere") Scenarios.unresolved
           Demo.start (mkSys 7 []) (mkConfigGetResult (Some "/ws")) 0 "/ws");
    try reflexivity.
  discriminate.
Defined.

Lemma getShadowGitConfigWorktree_lookup_failure_witness :
  exists fx,
    getShadowGitConfigWorktree (Scenarios.withoutConfig (Demo.host Demo.calm))
                               Demo.platform Demo.store
                               (Scenarios.unresolved, Demo.start)
    = (Ok None, (Scenarios.unresolved, mkSys 0 (warningsShown Demo.start)), fx)
    /\ calls fx = [CGitGetConfig Demo.store "core.worktree"]
    /\ In (FxTelemetry (className Demo.platform ++ "#getShadowGitConfigWorktree")
                       (ThrownError (mkError "fatal: not in a git directory")))
          fx.
Proof.
  apply (@getShadowGitConfigWorktree_lookup_failure Z
           (Scenarios.withoutConfig (Demo.host Demo.calm)) Demo.platform Demo.store
           Scenarios.unresolved Demo.start
           (ThrownError (mkError "fatal: not in a git directory")) 0);
    reflexivity.
Defined.

Lemma getDiff_read_content_witness :
  exists records st' fx record,
    diffFiles (Demo.host Demo.calm) Demo.platform Demo.store "b0" None "/ws"
              [mkDiffFile "a.txt"; mkDiffFile "b.txt"] []
              (Demo.opened ["c1"], Demo.start)
    = (Ok records, st', fx)
    /\ length records = length [mkDiffFile "a.txt"; mkDiffFile "b.txt"]
    /\ nth_error records 1 = Some record
    /\ contentOf LiveFile record = "new".
Proof.
  apply (@getDiff_read_content Z (Demo.host Demo.calm) Demo.platform Demo.store
           "b0" None "/ws" [mkDiffFile "a.txt"; mkDiffFile "b.txt"]
           (Demo.opened ["c1"], Demo.start) 1%nat (mkDiffFile "b.txt") LiveFile "new").
  - reflexivity.
  - vm_compute. split; reflexivity.
Defined.

Lemma getDiff_from_root_witness :
  resultOf (getDiff (Demo.host Scenarios.twoChanged) Demo.platform None None
                    (Demo.opened ["c1"], Demo.start))
  = resultOf (diffFiles (Demo.host Scenarios.twoChanged) Demo.platform Demo.store
                        (Js.trim ("b0" ++ LF)) None "/ws"
                        (files (mkDiffResult [mkDiffFile "a.txt"; mkDiffFile "b.txt"]))
                        [] (Demo.opened ["c1"], mkSys 0 (warningsShown Demo.start)))
  /\ stateOf (getDiff (Demo.host Scenarios.twoChanged) Demo.platform None None
                      (Demo.opened ["c1"], Demo.start))
     = stateOf (diffFiles (Demo.host Scenarios.twoChanged) Demo.platform Demo.store
                          (Js.trim ("b0" ++ LF)) None "/ws"
                          (files (mkDiffResult [mkDiffFile "a.txt"; mkDiffFile "b.txt"]))
                          [] (Demo.opened ["c1"], mkSys 0 (warningsShown Demo.start)))
  /\ calls (effectsOf (getDiff (Demo.host Scenarios.twoChanged) Demo.platform None
                               None (Demo.opened ["c1"], Demo.start)))
     = CGitRaw Demo.store ["rev-list"; "--max-parents=0"; "HEAD"]
       :: CGitAdd Demo.store "."
       :: CGitDiffSummary Demo.store
            [if Js.truthyOpt None
             then Js.trim ("b0" ++ LF) ++ ".." ++ nonNull None
             else Js.trim ("b0" ++ LF)]
       :: flat_map (readsOf Demo.platform Demo.store (Js.trim ("b0" ++ LF)) None "/ws")
                   (files (mkDiffResult [mkDiffFile "a.txt"; mkDiffFile "b.txt"])).
Proof.
  apply (@getDiff_from_root Z (Demo.host Scenarios.twoChanged) Demo.platform
           None None (Demo.opened ["c1"]) Demo.start Demo.store ("b0" ++ LF) "/ws"
           (Ok tt) (mkDiffResult [mkDiffFile "a.txt"; mkDiffFile "b.txt"]) 0 0 0);
    try reflexivity.
  discriminate.
Defined.

Lemma isNestedGitHead_classifies_witness :
  isNestedGitHead (mkRgItem "folder" "packages/app/.git/HEAD") = false.
Proof.
  apply isNestedGitHead_classifies. discriminate.
Defined.

Lemma deleteBranch_missing_witness :
  exists fx,
    Static.deleteBranch (Demo.host Demo.calm) Scenarios.branches Demo.store
                        "roo-gone" Demo.start
    = (Ok false, mkSys 0 (warningsShown Demo.start), fx)
    /\ calls fx = [CBranchLocal Demo.store].
Proof.
  apply (@deleteBranch_missing Z (Demo.host Demo.calm) Scenarios.branches
           Demo.store "roo-gone" Demo.start (mkBranchSummary ["b0"; "roo-task"]) 0).
  - reflexivity.
  - intros [Hx|[Hx|[]]]; discriminate Hx.
Defined.

Lemma deleteBranch_not_checked_out_witness :
  exists fx,
    Static.deleteBranch (Demo.host Demo.calm) Scenarios.branches Demo.store
                        "roo-task" Demo.start
    = (Ok true, mkSys 0 (warningsShown Demo.start), fx)
    /\ calls fx = [CBranchLocal Demo.store;
                   CGitRevparse Demo.store ["--abbrev-ref"; "HEAD"];
                   CBranch Demo.store ["-D"; "roo-task"]].
Proof.
  apply (@deleteBranch_not_checked_out Z (Demo.host Demo.calm) Scenarios.branches
           Demo.store "roo-task" "b0" Demo.start
           (mkBranchSummary ["b0"; "roo-task"]) 0 0 0 (Ok tt)).
  - reflexivity.
  - right. left. reflexivity.
  - reflexivity.
  - discriminate.
  - reflexivity.
Defined.

Lemma deleteBranch_restores_worktree_witness :
  exists before,
    calls (effectsOf (Static.deleteBranch (Demo.host Demo.calm) Scenarios.branches
                                          Demo.store "b0" Demo.start))
    = (before ++ [CGitAddConfig Demo.store "core.worktree" "/ws"])%list
    /\ (resultOf (Static.deleteBranch (Demo.host Demo.calm) Scenarios.branches
                                      Demo.store "b0" Demo.start) = Ok true
        \/ resultOf (Static.deleteBranch (Demo.host Demo.calm) Scenarios.branches
                                         Demo.store "b0" Demo.start) = Ok false
        \/ exists e w,
             resultOf (Static.deleteBranch (Demo.host Demo.calm) Scenarios.branches
                                           Demo.store "b0" Demo.start) = Throw e
             /\ fst (git_addConfig (Demo.host Demo.calm) Demo.store "core.worktree"
                                   "/ws" w) = Throw e).
Proof.
  apply (@deleteBranch_restores_worktree Z (Demo.host Demo.calm) Scenarios.branches
           Demo.store "b0" "/ws" Demo.start (mkBranchSummary ["b0"; "roo-task"])
           (mkConfigGetResult (Some "/ws")) 0 0 0);
    try reflexivity.
  - left. reflexivity.
  - discriminate.
Defined.

Lemma deleteBranch_unconfirmed_switch_witness :
  resultOf (Static.deleteBranch (Demo.host Demo.calm) Scenarios.branches Demo.store
                                "b0" Demo.start) <> Ok true
  /\ ~ In (CBranch Demo.store ["-D"; "b0"])
          (calls (effectsOf (Static.deleteBranch (Demo.host Demo.calm)
                               Scenarios.branches Demo.store "b0" Demo.start))).
Proof.
  apply (@deleteBranch_unconfirmed_switch Z (Demo.host Demo.calm) Scenarios.branches
           Demo.store "b0" Demo.start (mkBranchSummary ["b0"; "roo-task"]) 0 0).
  - reflexivity.
  - left. reflexivity.
  - reflexivity.
  - intros w. vm_compute. discriminate.
Defined.
